(** * Messenger-Facebook: profile-messaging orchestration

    A shallow embedding of the two Puppeteer scripts of the repository,
    [Messenger/src/messenger.js] (the Apify actor, module [MessengerJs]) and
    [Messenger/src/messengerrrr.js] (the enhanced script, module
    [MessengerrrrJs]), and of the entry point [main.js] (module [MainJs]).

    The scripts are sequences of awaited calls into a browser they do not
    control.  They are embedded in a small monad of our own:

    - every call into the browser, the key-value store, the file system or
      the result sink is answered by an environment [Env]; the answer may
      depend on the position of the call in the run (the [clock]), so the
      environment is an arbitrary, possibly adversarial, page;
    - a call either completes or throws an [Error] carrying a message
      ([Res]); [try_catch] is the script's [try { } catch (err) { }];
    - one call, the download of [downloadAudio], can also end the process or
      never settle; a computation that got there is [Stopped]: nothing of
      the script runs after it, no [catch] and no [finally];
    - every call is recorded, with its answer, in a [trace], which is what
      the properties about "what the script did" are stated on;
    - function-local [let] variables that are assigned inside a [try] and
      read in its [catch] are the [locals] component of the state.

    A string is the sequence of the bytes of its UTF-8 form; the operations
    of the scripts that count UTF-16 code units or walk code points
    ([length], [substring], [replace], [for ... of]) are defined on that
    form.  Console output is not modelled. *)

From Stdlib Require Import List String Ascii ZArith NArith QArith Qround Bool Lia Arith.
From Stdlib Require Import DecimalString.
Import ListNotations.

Open Scope string_scope.
Open Scope Z_scope.

Set Warnings "-register-all".

(* ====================================================================== *)
(** * JavaScript values *)
(* ====================================================================== *)

(** The values an actor input (INPUT.json) can hold.  [JNum n] is the
    number that the integer literal [n] denotes: the double nearest to [n].
    Numbers with a fraction are not represented. *)
Inductive JsVal : Type :=
| JUndefined
| JNull
| JBool (b : bool)
| JNum (n : Z)
| JStr (s : string)
| JArr (items : list JsVal)
| JObj (fields : list (string * JsVal)).

(** [!!v]: what [if (v)], [!v] and [v || w] test. *)
Definition truthy (v : JsVal) : bool :=
  match v with
  | JUndefined | JNull => false
  | JBool b => b
  | JNum n => negb (n =? 0)
  | JStr s => negb (s =? EmptyString)%string
  | JArr _ | JObj _ => true
  end.

(** [v || w] *)
Definition js_or (v w : JsVal) : JsVal := if truthy v then v else w.

(** [Array.isArray(v)] *)
Definition isArray (v : JsVal) : bool :=
  match v with JArr _ => true | _ => false end.

(** [typeof v === "string"] *)
Definition isString (v : JsVal) : bool :=
  match v with JStr _ => true | _ => false end.

Fixpoint assoc (k : string) (fields : list (string * JsVal)) : JsVal :=
  match fields with
  | [] => JUndefined
  | (k', v) :: rest => if (k =? k')%string then v else assoc k rest
  end.

(** [v?.k]: the property [k] of an object, [undefined] on anything else
    (the inputs read here are plain JSON, whose only named properties are
    object fields). *)
Definition get_prop (v : JsVal) (k : string) : JsVal :=
  match v with
  | JObj fields => assoc k fields
  | _ => JUndefined
  end.

(** [v.length] of an array *)
Definition js_length (v : JsVal) : Z :=
  match v with JArr items => Z.of_nat (List.length items) | _ => 0 end.

(** An optional string as a JavaScript value ([process.env.X]). *)
Definition of_env_var (o : option string) : JsVal :=
  match o with Some s => JStr s | None => JUndefined end.

(** [s.includes(sub)] *)
Fixpoint includes (s sub : string) : bool :=
  if String.prefix sub s then true
  else match s with
       | EmptyString => false
       | String _ rest => includes rest sub
       end.

(** Decimal rendering of a number inside a template literal. *)
Definition string_of_Z (z : Z) : string :=
  NilZero.string_of_int (Z.to_int z).

(* ---------------------------------------------------------------------- *)
(** ** Strings *)

(** The number of UTF-16 code units of the character that a byte opens: one
    for a character of the basic plane, two (a surrogate pair) for a
    character beyond it, none for a continuation byte. *)
Definition units (c : ascii) : nat :=
  let n := nat_of_ascii c in
  if (n <? 128)%nat then 1%nat
  else if (n <? 192)%nat then 0%nat
  else if (n <? 240)%nat then 1%nat
  else if (n <? 248)%nat then 2%nat
  else 1%nat.

Definition is_continuation (c : ascii) : bool :=
  let n := nat_of_ascii c in (128 <=? n)%nat && (n <? 192)%nat.

(** [s.length] *)
Fixpoint utf16_length (s : string) : nat :=
  match s with
  | EmptyString => 0%nat
  | String c rest => (units c + utf16_length rest)%nat
  end.

(** The pieces that [for (const char of s)] walks: the code points of [s],
    each a byte that opens a character with the continuation bytes that
    follow it. *)
Fixpoint code_points (s : string) : list string :=
  match s with
  | EmptyString => []
  | String c rest =>
      let continued :=
        match rest with String c' _ => is_continuation c' | EmptyString => false end in
      match code_points rest with
      | p :: ps =>
          if continued then String c p :: ps else String c EmptyString :: p :: ps
      | [] => [String c EmptyString]
      end
  end.

(** The high surrogate of the character beyond the basic plane whose four
    bytes are [c] and the first three bytes of [rest], as the three bytes of
    its own code point: what is left of the character when a string is cut
    between its two code units. *)
Definition high_surrogate (c : ascii) (rest : string) : string :=
  let byte (i : nat) : N :=
    match get i rest with Some b => N_of_ascii b | None => 0%N end in
  let cp := (N.lor (N.shiftl (N.land (N_of_ascii c) 7) 18)
              (N.lor (N.shiftl (N.land (byte 0%nat) 63) 12)
                 (N.lor (N.shiftl (N.land (byte 1%nat) 63) 6)
                        (N.land (byte 2%nat) 63))))%N in
  let x := (N.land (N.shiftr (cp - 65536) 10) 1023)%N in
  String (ascii_of_N 237)
    (String (ascii_of_N (160 + N.shiftr x 6))
       (String (ascii_of_N (128 + N.land x 63)) EmptyString)).

(** [s.substring(0, n)]: the first [n] code units of [s]. *)
Fixpoint substring_0 (n : nat) (s : string) : string :=
  match s with
  | EmptyString => EmptyString
  | String c rest =>
      if (units c <=? n)%nat then String c (substring_0 (n - units c) rest)
      else if (n =? 0)%nat then EmptyString
      else high_surrogate c rest
  end.

(* ---------------------------------------------------------------------- *)
(** ** Numbers as strings *)

(** The double nearest to the integer [z > 0], ties to even; [None] when it
    is beyond the largest double ([Infinity]). *)
Definition nearest_double (z : Z) : option Z :=
  let bits := Z.log2 z + 1 in
  if bits <=? 53 then Some z
  else
    let shift := bits - 53 in
    let q := Z.shiftr z shift in
    let r := z - Z.shiftl q shift in
    let half := Z.shiftl 1 (shift - 1) in
    let q' := if (half <? r) || ((r =? half) && Z.odd q) then q + 1 else q in
    let v := Z.shiftl q' shift in
    if v <? 2 ^ 1024 then Some v else None.

Definition rounds_to (v c : Z) : bool :=
  match nearest_double c with Some v' => v' =? v | None => false end.

(** The decimal numeral with the fewest significant digits whose double is
    [v], the nearest to [v] if there are several: the integer it denotes.
    [n] is the number of digits of [v]; [k], from 1 on, is the number of
    significant digits tried. *)
Fixpoint shortest_decimal (fuel : nat) (v n k : Z) : Z :=
  match fuel with
  | O => v
  | S fuel' =>
      let p := 10 ^ (n - k) in
      let low := (v / p) * p in
      let high := low + p in
      match rounds_to v low, rounds_to v high with
      | true, true =>
          if v - low <? high - v then low
          else if high - v <? v - low then high
          else if Z.even (v / p) then low else high
      | true, false => low
      | false, true => high
      | false, false => shortest_decimal fuel' v n (k + 1)
      end
  end.

Definition digits_of (z : Z) : string := string_of_Z z.

Fixpoint strip_zeros (fuel : nat) (z : Z) : Z :=
  match fuel with
  | O => z
  | S fuel' => if (z mod 10 =? 0) && negb (z =? 0) then strip_zeros fuel' (z / 10) else z
  end.

(** [String(x)] for the double [x] nearest to the integer [z]
    (Number::toString with radix 10). *)
Definition Number_toString (z : Z) : string :=
  if z =? 0 then "0"
  else
    let sign := if z <? 0 then "-" else EmptyString in
    match nearest_double (Z.abs z) with
    | None => sign ++ "Infinity"
    | Some v =>
        let n := Z.of_nat (String.length (digits_of v)) in
        let c := shortest_decimal (Z.to_nat n) v n 1 in
        let n' := Z.of_nat (String.length (digits_of c)) in
        if n' <=? 21 then sign ++ digits_of c
        else
          let s := digits_of (strip_zeros (Z.to_nat n') c) in
          sign ++ match s with
                  | String d EmptyString =>
                      String d EmptyString ++ "e+" ++ string_of_Z (n' - 1)
                  | String d more =>
                      String d ("." ++ more) ++ "e+" ++ string_of_Z (n' - 1)
                  | EmptyString => EmptyString
                  end
    end.

(* ====================================================================== *)
(** * The data model of the scripts *)
(* ====================================================================== *)

(** One entry of the [profiles] input array. *)
Record Profile : Type := mkProfile {
  id : string;
  url : string
}.

(** The result object built by [sendMessageToProfile] and by the [catch] of
    the profile loop.  The scripts build it with different sets of keys on
    different paths, hence the optional fields. *)
Record Outcome : Type := mkOutcome {
  success : bool;
  profileId : string;
  outcome_url : string;
  error : option string;
  durationMs : option Z;
  message_preview : option string;
  messageButtonPresent : option string;
  messageSent : option string;
  timestamp : option Z
}.

(** [{ timestamp: new Date().toISOString(), ...result }] *)
Definition with_timestamp (t : Z) (o : Outcome) : Outcome :=
  mkOutcome (success o) (profileId o) (outcome_url o) (error o) (durationMs o)
            (message_preview o) (messageButtonPresent o) (messageSent o)
            (match timestamp o with Some t' => Some t' | None => Some t end).

Definition ElementHandle : Type := nat.

Record Frame : Type := mkFrame {
  frame_id : nat;
  frame_url : string
}.

(** [element.boundingBox()]: [{x, y, width, height}].  Coordinates are
    doubles in the script; they are exact rationals here.  No property
    below depends on the numeric value of a pointer position. *)
Record Box : Type := mkBox {
  box_x : Q;
  box_y : Q;
  box_width : Q;
  box_height : Q
}.

Record Cookie : Type := mkCookie {
  cookie_name : string;
  cookie_value : string;
  cookie_domain : string
}.

(** What the key-value store or a cookie file holds under a key. *)
Inductive Stored : Type :=
| SAbsent                          (* null / undefined *)
| SOther                           (* a value that is not an array *)
| SCookies (cookies : list Cookie).

(** [process.env] *)
Record ProcessEnv : Type := mkProcessEnv {
  LOGIN_EMAIL : option string;
  LOGIN_PASSWORD : option string;
  HEADLESS : option string
}.

(* ====================================================================== *)
(** * Calls into the outside world *)
(* ====================================================================== *)

(** Calls whose result is not used: they complete or throw. *)
Inductive Action : Type :=
| AActorInit
| AActorExit
| ALaunch (headless : JsVal)
| ANewPage
| ASetUserAgent
| ASetExtraHTTPHeaders
| AEvaluateOnNewDocument
| ABrowserClose
| AGoto (target : string) (waitUntil : string) (timeout : Z)
| AReload
| AWaitForSelector (frame : option Frame) (sel : string) (timeout : Z)
| AWaitForNavigation (waitUntil : string) (timeout : Z)
| ATimer (ms : Z)
| ARace (contenders : list Action)
| AClick (e : ElementHandle) (clickCount : option Z) (press_delay : option Z)
| AType (e : ElementHandle) (text : JsVal)
| AFocus (e : ElementHandle)
| AKeyPress (key : string)
| AKeyDown (key : string)
| AKeyUp (key : string)
| AMouseMove (x y : Z)
| AScrollBy (amount : Z)
| ASetCookie (cookies : list Cookie)
| ASetValue (key : string) (cookies : list Cookie)
| ASetOutput (results : list Outcome)
| APushData (o : Outcome)
| APushDataAll (results : list Outcome)
| AAppendFile (o : Outcome)
| AEnsureDir
| AWriteJson (path : string) (cookies : list Cookie).

(** [page.evaluate] of a predicate on the document, and other calls that
    answer with a boolean.  The document is the environment's; what the
    predicate yields on it is the environment's answer. *)
Inductive Probe : Type :=
| PPageLoaded
| PIsBlocked
| PLoginElements
| PCaptchaPresent
| PLoginCaptchaPresent
| PStillPresent
| PContentEditable (e : ElementHandle)
| PPathExists (path : string).

(** Calls that answer with a string or [null]. *)
Inductive TextProbe : Type :=
| TLoginErrorMessage
| TAudioLink (frame : Frame).

(** The answer to a call: a value, or an [Error] with its message. *)
Inductive Res (A : Type) : Type :=
| Ok (a : A)
| Throw (msg : string).
Arguments Ok {A} a.
Arguments Throw {A} msg.

(** How the download of [downloadAudio] ends ([https.get(url, callback)]
    inside [new Promise], with listeners on the response only). *)
Inductive Download : Type :=
| Arrives                    (* the response ends: the promise resolves *)
| Rejects (msg : string)     (* [https.get] throws on the address, or the
                                response emits 'error': the promise rejects *)
| Dies                       (* the request emits 'error' (connection refused,
                                host unknown): nothing listens to it, the
                                process ends *)
| Hangs.                     (* no response, or one that never ends: there is
                                no timeout, the promise never settles *)

Definition download_settles (d : Download) : bool :=
  match d with
  | Arrives | Rejects _ => true
  | Dies | Hangs => false
  end.

(** A call with its answer. *)
Inductive Event : Type :=
| EDelay (ms : Z)
| EDo (a : Action) (threw : option string)
| ETest (p : Probe) (r : Res bool)
| EQuery (frame : option Frame) (sel : string) (r : Res (option ElementHandle))
| EBox (e : ElementHandle) (r : Res (option Box))
| EFrames (frames : list Frame)
| EUrl (current : string)
| EText (p : TextProbe) (r : Res (option string))
| ECookies (r : Res (list Cookie))
| EStored (key : string) (r : Res Stored)
| EDownload (link : option string) (d : Download).

(** The outside world.  The first argument of every answer is the index of
    the call in the run. *)
Record Env : Type := mkEnv {
  env_random : nat -> N;
  env_elapsed : nat -> N;
  env_do : nat -> Action -> option string;
  env_test : nat -> Probe -> Res bool;
  env_query : nat -> option Frame -> string -> Res (option ElementHandle);
  env_box : nat -> ElementHandle -> Res (option Box);
  env_frames : nat -> list Frame;
  env_url : nat -> string;
  env_text : nat -> TextProbe -> Res (option string);
  env_cookies : nat -> Res (list Cookie);
  env_stored : nat -> string -> Res Stored;
  env_download : nat -> option string -> Download
}.

(* ====================================================================== *)
(** * The monad *)
(* ====================================================================== *)

Record World : Type := mkWorld {
  clock : nat;          (* number of calls answered so far *)
  now : Z;              (* Date.now() *)
  penv : ProcessEnv     (* process.env *)
}.

(** How a computation ends: it settles, with a value or with an error, or
    it stops where it is, because the process has ended or because it waits
    for a promise that never settles. *)
Inductive Run (A : Type) : Type :=
| Settled (r : Res A)
| Stopped.
Arguments Settled {A} r.
Arguments Stopped {A}.
Coercion Settled : Res >-> Run.

Record Out (L A : Type) : Type := mkOut {
  res : Run A;
  trace : list Event;
  locals : L;
  world : World
}.
Arguments mkOut {L A} res trace locals world.
Arguments res {L A} o.
Arguments trace {L A} o.
Arguments locals {L A} o.
Arguments world {L A} o.

(** A computation with local variables [L] and result [A]. *)
Definition M (L A : Type) : Type := L -> World -> Out L A.

Definition ret {L A} (a : A) : M L A :=
  fun l w => mkOut (Ok a) [] l w.

Definition throw {L A} (msg : string) : M L A :=
  fun l w => mkOut (Throw msg) [] l w.

Definition bind {L A B} (m : M L A) (f : A -> M L B) : M L B :=
  fun l w =>
    match m l w with
    | mkOut (Settled (Ok a)) t l1 w1 =>
        match f a l1 w1 with
        | mkOut r t2 l2 w2 => mkOut r (t ++ t2) l2 w2
        end
    | mkOut (Settled (Throw msg)) t l1 w1 => mkOut (Throw msg) t l1 w1
    | mkOut Stopped t l1 w1 => mkOut Stopped t l1 w1
    end.

(** [try { m } catch (err) { handler err.message }] *)
Definition try_catch {L A} (m : M L A) (handler : string -> M L A) : M L A :=
  fun l w =>
    match m l w with
    | mkOut (Settled (Ok a)) t l1 w1 => mkOut (Ok a) t l1 w1
    | mkOut (Settled (Throw msg)) t l1 w1 =>
        match handler msg l1 w1 with
        | mkOut r t2 l2 w2 => mkOut r (t ++ t2) l2 w2
        end
    | mkOut Stopped t l1 w1 => mkOut Stopped t l1 w1
    end.

(** [try { m } finally { cleanup }] *)
Definition try_finally {L A} (m : M L A) (cleanup : M L unit) : M L A :=
  fun l w =>
    match m l w with
    | mkOut (Settled r) t l1 w1 =>
        match cleanup l1 w1 with
        | mkOut (Settled (Ok _)) t2 l2 w2 => mkOut r (t ++ t2) l2 w2
        | mkOut (Settled (Throw msg)) t2 l2 w2 => mkOut (Throw msg) (t ++ t2) l2 w2
        | mkOut Stopped t2 l2 w2 => mkOut Stopped (t ++ t2) l2 w2
        end
    | mkOut Stopped t l1 w1 => mkOut Stopped t l1 w1
    end.

(** A call of a function: the callee runs on its own local variables. *)
Definition call {L L' A} (init : L') (m : M L' A) : M L A :=
  fun l w =>
    match m init w with
    | mkOut r t _ w1 => mkOut r t l w1
    end.

Definition get_locals {L} : M L L :=
  fun l w => mkOut (Ok l) [] l w.

Definition set_locals {L} (l' : L) : M L unit :=
  fun _ w => mkOut (Ok tt) [] l' w.

Declare Scope js_scope.
Delimit Scope js_scope with js.
Notation "x <- m ;; k" := (bind m (fun x => k))
  (at level 61, m at next level, right associativity) : js_scope.
Notation "m ;; k" := (bind m (fun _ => k))
  (at level 61, right associativity) : js_scope.
Open Scope js_scope.

Fixpoint for_each {L A} (items : list A) (body : A -> M L unit) : M L unit :=
  match items with
  | [] => ret tt
  | x :: rest => body x ;; for_each rest body
  end.

(** [Date.now()] *)
Definition Date_now {L} : M L Z :=
  fun l w => mkOut (Ok (now w)) [] l w.

(** [process.env] *)
Definition process_env {L} : M L ProcessEnv :=
  fun l w => mkOut (Ok (penv w)) [] l w.

Definition set_process_env {L} (p : ProcessEnv) : M L unit :=
  fun l w => mkOut (Ok tt) [] l (mkWorld (clock w) (now w) p).

Definition random_unit (k : N) : Q :=
  Qmake (Z.of_N k mod 2 ^ 53) (2 ^ 53)%positive.

Section Primitives.

Variable env : Env.

(** The world after the environment has answered one call. *)
Definition tick (w : World) : World :=
  mkWorld (S (clock w)) (now w + Z.of_N (env_elapsed env (clock w))) (penv w).

Definition act {L} (a : Action) : M L unit :=
  fun l w =>
    match env_do env (clock w) a with
    | None => mkOut (Ok tt) [EDo a None] l (tick w)
    | Some msg => mkOut (Throw msg) [EDo a (Some msg)] l (tick w)
    end.

Definition test {L} (p : Probe) : M L bool :=
  fun l w =>
    let r := env_test env (clock w) p in mkOut r [ETest p r] l (tick w).

(** [page.$(sel)] and [frame.$(sel)] *)
Definition query {L} (frame : option Frame) (sel : string) : M L (option ElementHandle) :=
  fun l w =>
    let r := env_query env (clock w) frame sel in
    mkOut r [EQuery frame sel r] l (tick w).

Definition boundingBox {L} (e : ElementHandle) : M L (option Box) :=
  fun l w =>
    let r := env_box env (clock w) e in mkOut r [EBox e r] l (tick w).

(** [page.frames()] *)
Definition page_frames {L} : M L (list Frame) :=
  fun l w =>
    let fs := env_frames env (clock w) in mkOut (Ok fs) [EFrames fs] l (tick w).

(** [page.url()] *)
Definition page_url {L} : M L string :=
  fun l w =>
    let u := env_url env (clock w) in mkOut (Ok u) [EUrl u] l (tick w).

Definition text_of {L} (p : TextProbe) : M L (option string) :=
  fun l w =>
    let r := env_text env (clock w) p in mkOut r [EText p r] l (tick w).

(** [page.cookies()] *)
Definition page_cookies {L} : M L (list Cookie) :=
  fun l w =>
    let r := env_cookies env (clock w) in mkOut r [ECookies r] l (tick w).

(** [Actor.getValue(key)], [fs.readJson(path)] *)
Definition stored {L} (key : string) : M L Stored :=
  fun l w =>
    let r := env_stored env (clock w) key in mkOut r [EStored key r] l (tick w).

(** [Math.random()]: a double in [0, 1), here the rational [k / 2^53] for
    the [k] the environment draws.  Products with it are exact, where the
    script rounds to a double. *)
Definition Math_random {L} : M L Q :=
  fun l w =>
    mkOut (Ok (random_unit (env_random env (clock w)))) [] l
          (mkWorld (S (clock w)) (now w) (penv w)).

(* ---------------------------- Utility helpers ---------------------------- *)

(** [function rand(min = 100, max = 1000)] *)
Definition rand {L} (min max : Z) : M L Z :=
  r <- Math_random ;;
  ret (Qfloor (r * inject_Z (max - min + 1)) + min).

(** [function delay(ms)]: the timer fires after [ms] milliseconds. *)
Definition delay {L} (ms : Z) : M L unit :=
  fun l w => mkOut (Ok tt) [EDelay ms] l
                   (mkWorld (clock w) (now w + Z.max 0 ms) (penv w)).

(** [Math.round(q)] *)
Definition Math_round (q : Q) : Z := Qfloor (q + (1 # 2)).

(* --------------------------- Human-like actions -------------------------- *)

(** A value passed where an element handle is expected. *)
Inductive Target : Type :=
| THandle (e : ElementHandle)
| TSelector (s : string)
| TNull.

(** [target.method(...)]: only an element handle has the method. *)
Definition receiver {L} (target : Target) (name method : string) : M L ElementHandle :=
  match target with
  | THandle e => ret e
  | TSelector _ => throw (name ++ "." ++ method ++ " is not a function")
  | TNull => throw ("Cannot read properties of null (reading '" ++ method ++ "')")
  end.

(** What [for (const char of text)] walks: the code points of a string, the
    items of an array; nothing else among the values of an input is
    iterable. *)
Definition for_of (text : JsVal) : option (list JsVal) :=
  match text with
  | JStr s => Some (map JStr (code_points s))
  | JArr items => Some items
  | _ => None
  end.

(** [async function humanType(elementHandle, text, opts = {})].  [text] is
    whatever the caller passes: a string, [undefined] (an unset environment
    variable), or an input value that was only tested for truthiness. *)
Definition humanType {L} (elementHandle : Target) (text : JsVal) (min max : Z)
  : M L unit :=
  e <- receiver elementHandle "elementHandle" "click" ;;
  act (AClick e (Some 3) None) ;;
  d <- rand 100 300 ;;
  delay d ;;
  match for_of text with
  | Some pieces =>
      for_each pieces (fun char =>
        act (AType e char) ;;
        d <- rand min max ;;
        delay d)
  | None => throw "text is not iterable"
  end.

(** [async function humanMove(page, from, to, steps = 20)] *)
Definition humanMove {L} (from_x from_y to_x to_y : Q) (steps : nat) : M L unit :=
  let dx := ((to_x - from_x) / inject_Z (Z.of_nat steps))%Q in
  let dy := ((to_y - from_y) / inject_Z (Z.of_nat steps))%Q in
  for_each (seq 0 (S steps)) (fun i =>
    r1 <- Math_random ;;
    let x := Math_round (from_x + dx * inject_Z (Z.of_nat i) + (r1 * 4 - 2))%Q in
    r2 <- Math_random ;;
    let y := Math_round (from_y + dy * inject_Z (Z.of_nat i) + (r2 * 4 - 2))%Q in
    act (AMouseMove x y) ;;
    d <- rand 5 30 ;;
    delay d).

(** [async function humanScroll(page, distance = 300, steps = 10)] *)
Definition humanScroll {L} (distance steps : Z) : M L unit :=
  for_each (seq 0 (Z.to_nat steps)) (fun _ =>
    act (AScrollBy (Math_round (inject_Z distance / inject_Z steps)%Q)) ;;
    d <- rand 100 350 ;;
    delay d).

(** [async function humanClick(page, element)] *)
Definition humanClick {L} (element : Target) : M L unit :=
  e <- receiver element "element" "boundingBox" ;;
  box <- boundingBox e ;;
  match box with
  | Some box =>
      jx <- rand (-5) 5 ;;
      let x := (box_x box + box_width box / 2 + inject_Z jx)%Q in
      jy <- rand (-5) 5 ;;
      let y := (box_y box + box_height box / 2 + inject_Z jy)%Q in
      humanMove 100 100 x y 15 ;;
      d <- rand 50 150 ;;
      act (AClick e None (Some d))
  | None => ret tt
  end.

End Primitives.

(* ====================================================================== *)
(** * Code shared by the two scripts *)
(* ====================================================================== *)

(** The double-quote character of the selectors. *)
Definition dq : string := String (ascii_of_nat 34) EmptyString.

(** [[attr="value"]] *)
Definition attr (name value : string) : string :=
  "[" ++ name ++ "=" ++ dq ++ value ++ dq ++ "]".

Definition recaptchaIframeSelector : string :=
  "iframe[src*=" ++ dq ++ "recaptcha" ++ dq ++ "]".

Definition emailSelector : string :=
  "input" ++ attr "name" "email" ++ ", input" ++ attr "type" "email".

Definition passwordSelector : string :=
  "input" ++ attr "name" "pass" ++ ", input" ++ attr "type" "password".

Definition loginButtonSelector : string :=
  "button" ++ attr "name" "login" ++ ", input" ++ attr "value" "Log In"
  ++ ", " ++ attr "data-testid" "royal_login_button"
  ++ ", button" ++ attr "type" "submit".

Definition messageButtonSelector : string :=
  "div" ++ attr "aria-label" "Message" ++ attr "role" "button".

Definition messageInputSelectors : list string :=
  [ "div" ++ attr "aria-label" "Message" ++ attr "role" "textbox"
    ++ attr "contenteditable" "true" ].

Definition sendSelectors : list string :=
  [ "div.xsrhx6k" ++ attr "role" "button";
    "div.x5yr21d svg.xsrhx6k";
    "svg.xsrhx6k" ++ attr "aria-label" "Send" ].

Definition composerRace : Action :=
  ARace [ AWaitForSelector None ("div" ++ attr "contenteditable" "true") 15000;
          AWaitForSelector None "textarea" 15000;
          AWaitForNavigation "domcontentloaded" 15000;
          ATimer 10000 ].

Definition loginRace : Action :=
  ARace [ AWaitForNavigation "networkidle2" 15000; ATimer 5000 ].

Definition maxAttempts : Z := 3.

(** The characters kept by [email.replace(/[^a-z0-9_\-\.@]/gi, "_")]. *)
Definition safe_char (c : ascii) : bool :=
  let n := nat_of_ascii c in
  ((97 <=? n) && (n <=? 122))%nat || ((65 <=? n) && (n <=? 90))%nat
  || ((48 <=? n) && (n <=? 57))%nat
  || (n =? 95)%nat || (n =? 45)%nat || (n =? 46)%nat || (n =? 64)%nat.

Fixpoint underscores (n : nat) : string :=
  match n with
  | O => EmptyString
  | S n' => String "_"%char (underscores n')
  end.

(** The replacement works on UTF-16 code units: every code unit that is not
    kept becomes one "_". *)
Fixpoint sanitize (email : string) : string :=
  match email with
  | EmptyString => EmptyString
  | String c rest =>
      if safe_char c then String c (sanitize rest)
      else underscores (units c) ++ sanitize rest
  end.

Definition nonempty (s : string) : bool := negb (s =? EmptyString)%string.

(** [message.substring(0, 50) + (message.length > 50 ? "..." : "")] *)
Definition preview (message : string) : string :=
  substring_0 50 message
  ++ (if (50 <? Z.of_nat (utf16_length message)) then "..." else EmptyString).

Definition target_of (h : option ElementHandle) : Target :=
  match h with Some e => THandle e | None => TNull end.

(** The [let] variables of [sendMessageToProfile]. *)
Record Locals : Type := mkLocals {
  var_messageButtonPresent : string;
  var_messageSent : string;
  var_messageButton : option ElementHandle
}.

Definition initial_locals : Locals := mkLocals "No" "No" None.

Definition set_messageButtonPresent (v : string) : M Locals unit :=
  fun l w => mkOut (Ok tt) []
    (mkLocals v (var_messageSent l) (var_messageButton l)) w.

Definition set_messageSent (v : string) : M Locals unit :=
  fun l w => mkOut (Ok tt) []
    (mkLocals (var_messageButtonPresent l) v (var_messageButton l)) w.

Definition set_messageButton (v : option ElementHandle) : M Locals unit :=
  fun l w => mkOut (Ok tt) []
    (mkLocals (var_messageButtonPresent l) (var_messageSent l) v) w.

(** [results.push(r)] *)
Definition push_result (r : Outcome) : M (list Outcome) unit :=
  fun l w => mkOut (Ok tt) [] (l ++ [r])%list w.

Definition is_anchor_frame (f : Frame) : bool :=
  includes (frame_url f) "recaptcha/api2/anchor".

Definition is_challenge_frame (f : Frame) : bool :=
  includes (frame_url f) "recaptcha/api2/bframe".

(** The three bytes of the cross mark that opens the error messages of
    [messenger.js] and [main.js]. *)
Definition cross_mark : string :=
  String (ascii_of_nat 226) (String (ascii_of_nat 157)
    (String (ascii_of_nat 140) EmptyString)).

(** A profile entry of the shape [{id: string, url: string}]. *)
Definition as_profile (v : JsVal) : option Profile :=
  match get_prop v "id", get_prop v "url" with
  | JStr i, JStr u => Some (mkProfile i u)
  | _, _ => None
  end.

Fixpoint all_profiles (items : list JsVal) : option (list Profile) :=
  match items with
  | [] => Some []
  | v :: rest =>
      match as_profile v, all_profiles rest with
      | Some p, Some ps => Some (p :: ps)
      | _, _ => None
      end
  end.

Definition as_profiles (v : JsVal) : option (list Profile) :=
  match v with
  | JArr items => all_profiles items
  | _ => None
  end.

Section Shared.

Variable env : Env.

(** [async function isLoginRequired(page)] *)
Definition isLoginRequired {L} : M L bool :=
  currentUrl <- page_url env ;;
  let isLoginPage :=
    includes currentUrl "/login"
    || includes currentUrl "/signin"
    || includes currentUrl "login.facebook.com"
    || includes currentUrl "m.facebook.com/login" in
  if isLoginPage then ret true
  else
    loginElements <- test env PLoginElements ;;
    ret loginElements.

(** The selector loops of [sendMessageToProfile]:
    [for (const selector of selectors) { try { h = await page.$(selector);
    if (h) break; } catch (e) {} }]. *)
Fixpoint first_match {L} (selectors : list string) : M L (option ElementHandle) :=
  match selectors with
  | [] => ret None
  | selector :: rest =>
      h <- try_catch (query env None selector) (fun _ => ret None) ;;
      match h with
      | Some e => ret (Some e)
      | None => first_match rest
      end
  end.

(** The retry loop of [sendMessageToProfile] ("Navigate with retry
    mechanism"):
    [while (!navigationSuccess && attempt < maxAttempts) { try { attempt++;
    ... } catch (navError) { ... } }].
    [fuel] bounds the number of iterations; [navigate_fuel] shows that
    [maxAttempts] iterations are all the loop can make. *)
Fixpoint navigate {L} (fuel : nat) (target : string)
         (navigationSuccess : bool) (attempt : Z) : M L unit :=
  if negb navigationSuccess && (attempt <? maxAttempts) then
    match fuel with
    | O => ret tt
    | S fuel' =>
        let attempt := attempt + 1 in
        navigationSuccess <-
          try_catch
            (act env (AGoto target "domcontentloaded" 45000) ;;
             d <- rand env 3000 6000 ;;
             delay d ;;
             pageLoaded <- test env PPageLoaded ;;
             if pageLoaded then ret true
             else throw "Page did not load properly")
            (fun navError =>
               if attempt =? maxAttempts then
                 throw ("Failed to load profile after " ++ string_of_Z maxAttempts
                        ++ " attempts: " ++ navError)
               else
                 d <- rand env 2000 4000 ;;
                 delay d ;;
                 ret false) ;;
        navigate fuel' target navigationSuccess attempt
    end
  else ret tt.

(** The first part of [solveRecaptchaAudio], the same in both scripts: wait
    for the widget, tick the checkbox, and look for the challenge frame. *)
Definition tickCheckbox {L} : M L (option Frame) :=
  d <- rand env 1000 2000 ;;
  delay d ;;
  act env (AWaitForSelector None recaptchaIframeSelector 10000) ;;
  frames <- page_frames env ;;
  let recaptchaFrame := find is_anchor_frame frames in
  match recaptchaFrame with
  | Some recaptchaFrame =>
      checkbox <- query env (Some recaptchaFrame) "#recaptcha-anchor" ;;
      match checkbox with
      | Some checkbox =>
          act env (AClick checkbox None None) ;;
          d <- rand env 2000 3000 ;;
          delay d
      | None => ret tt
      end
  | None => ret tt
  end ;;
  delay 1000 ;;
  updatedFrames <- page_frames env ;;
  ret (find is_challenge_frame updatedFrames).

(** The manual-solve loop of [solveCaptcha]:
    [while (Date.now() - start < maxWait) { ... if (!stillPresent) return
    true; await delay(2000); }].
    The result is [true] when the function returned [true] from inside the
    loop and [false] when the loop ran to its end.  [fuel] bounds the number
    of iterations; every iteration takes at least 2000 ms, so 90 iterations
    exhaust the 180000 ms ([manualWait_fuel]). *)
Fixpoint manualWait {L} (fuel : nat) (start maxWait : Z) : M L bool :=
  t <- Date_now ;;
  if t - start <? maxWait then
    match fuel with
    | O => ret false
    | S fuel' =>
        stillPresent <- test env PStillPresent ;;
        if negb stillPresent then ret true
        else
          delay 2000 ;;
          manualWait fuel' start maxWait
    end
  else ret false.

Definition manualWait_iterations : nat := 90.

End Shared.

(* ====================================================================== *)
(** * messenger.js *)
(* ====================================================================== *)

Module MessengerJs.

(** The string literals that lines 561 and 563 put in front of
    [process.env.LOGIN_EMAIL] and [process.env.LOGIN_PASSWORD].  The second
    one is a password; it is not reproduced, a placeholder of the same
    length stands for it (only its being a non-empty literal matters). *)
Definition hardcoded_loginEmail : string := "adedokunfemi14@gmail.com".
Definition hardcoded_loginPassword : string := "*************".

Definition default_profiles : JsVal :=
  JArr [ JObj [ ("id", JStr "profile-001");
                ("url", JStr "https://www.facebook.com/terri.lopez.9659283") ];
         JObj [ ("id", JStr "profile-002");
                ("url", JStr "https://www.facebook.com/profile.php?id=61559986547821") ] ].

(** The values [Actor.main] works with, as resolved at lines 557-572. *)
Record Resolved : Type := mkResolved {
  r_loginEmail : JsVal;
  r_loginPassword : JsVal;
  r_profiles : JsVal;
  r_message : JsVal;
  r_headless : JsVal
}.

Definition resolve (raw : JsVal) (p : ProcessEnv) : Resolved :=
  let input := js_or raw (JObj []) in
  mkResolved
    (js_or (js_or (JStr hardcoded_loginEmail) (of_env_var (LOGIN_EMAIL p)))
           (get_prop input "loginEmail"))
    (js_or (js_or (JStr hardcoded_loginPassword) (of_env_var (LOGIN_PASSWORD p)))
           (get_prop input "loginPassword"))
    (js_or (get_prop input "profiles") default_profiles)
    (js_or (get_prop input "message") (JStr "Hello World"))
    (js_or (get_prop input "headless") (JBool false)).

(** The three [if (...) throw new Error(...)] of lines 575-589: the message
    of the error thrown, if any. *)
Definition validate (r : Resolved) : option string :=
  if negb (truthy (r_loginEmail r)) || negb (truthy (r_loginPassword r)) then
    Some (cross_mark ++ " loginEmail and loginPassword are required inputs (via .env or INPUT.json)")
  else if negb (truthy (r_profiles r)) || negb (isArray (r_profiles r))
          || (js_length (r_profiles r) =? 0) then
    Some (cross_mark ++ " profiles array is required and must contain at least one profile")
  else if negb (truthy (r_message r)) || negb (isString (r_message r)) then
    Some (cross_mark ++ " message is required and must be a string")
  else None.

Definition typed (r : Resolved) : option (string * list Profile * string) :=
  match r_loginEmail r, as_profiles (r_profiles r), r_message r with
  | JStr email, Some profiles, JStr message => Some (email, profiles, message)
  | _, _, _ => None
  end.

Section Script.

Variable env : Env.

(* -------------------------- Cookie Persistence -------------------------- *)

Definition cookieKey (email : string) : string := "cookies-" ++ sanitize email.

(** [async function saveCookies(page, email)] *)
Definition saveCookies {L} (email : string) : M L unit :=
  cookies <- page_cookies env ;;
  act env (ASetValue (cookieKey email) cookies).

(** [async function loadCookies(page, email)] *)
Definition loadCookies {L} (email : string) : M L bool :=
  cookies <- stored env (cookieKey email) ;;
  match cookies with
  | SCookies cookies =>
      try_catch (act env (ASetCookie cookies) ;; ret true)
                (fun _ => ret false)
  | _ => ret false
  end.

(* -------------------------- reCAPTCHA Solving --------------------------- *)

(** [async function solveRecaptchaAudio(page)] *)
Definition solveRecaptchaAudio {L} : M L bool :=
  try_catch
    (challengeFrame <- tickCheckbox env ;;
     match challengeFrame with
     | None => ret true
     | Some _ => ret false       (* "requires manual intervention" *)
     end)
    (fun _ => ret false).

(** [async function solveCaptcha(page, headless)] *)
Definition solveCaptcha {L} (headless : JsVal) : M L bool :=
  captchaPresent <- test env PCaptchaPresent ;;
  if negb captchaPresent then ret true
  else
    audioSolved <- solveRecaptchaAudio ;;
    if audioSolved then ret true
    else if negb (truthy headless) then
      let maxWait := 3 * 60 * 1000 in
      start <- Date_now ;;
      solved <- manualWait env manualWait_iterations start maxWait ;;
      if solved then ret true else ret false
    else ret false.

(* ----------------------- Login Detection & Handling ---------------------- *)

(** [async function performFacebookLogin(page, email, password)] *)
Definition performFacebookLogin {L} (email password : string) : M L bool :=
  try_catch
    (act env (AWaitForSelector None emailSelector 10000) ;;
     emailField <- query env None emailSelector ;;
     match emailField with
     | Some emailField =>
         humanClick env (THandle emailField) ;;
         d <- rand env 300 600 ;;
         delay d ;;
         humanType env (THandle emailField) (JStr email) 80 180 ;;
         d <- rand env 400 800 ;;
         delay d
     | None => throw "Email field not found"
     end ;;
     passwordField <- query env None passwordSelector ;;
     match passwordField with
     | Some passwordField =>
         humanClick env (THandle passwordField) ;;
         d <- rand env 300 600 ;;
         delay d ;;
         (* line 262: the selector, not the handle, is passed *)
         humanType env (TSelector passwordSelector) (JStr password) 80 180 ;;
         d <- rand env 500 1000 ;;
         delay d
     | None => throw "Password field not found"
     end ;;
     loginButton <- query env None loginButtonSelector ;;
     match loginButton with
     | Some loginButton => humanClick env (THandle loginButton)
     | None => act env (AKeyPress "Enter")
     end ;;
     act env loginRace ;;
     d <- rand env 2000 4000 ;;
     delay d ;;
     captchaPresent <- test env PLoginCaptchaPresent ;;
     (if captchaPresent then
        (* line 304: [solveCaptcha(page)], no second argument *)
        solved <- solveCaptcha JUndefined ;;
        if negb solved then throw "CAPTCHA could not be solved during login"
        else
          d <- rand env 3000 5000 ;;
          delay d
      else ret tt) ;;
     stillOnLoginPage <- isLoginRequired env ;;
     (if stillOnLoginPage then
        errorMessage <- text_of env TLoginErrorMessage ;;
        match errorMessage with
        | Some errorMessage =>
            if nonempty errorMessage
            then throw ("Login failed: " ++ errorMessage)
            else throw "Login failed: Still on login page"
        | None => throw "Login failed: Still on login page"
        end
      else ret tt) ;;
     ret true)
    (fun error => throw error).

(* ------------------------- Send message to profile ------------------------ *)

(** The outer [try] of [sendMessageToProfile], up to "Look for messaging
    interface": cookies, navigation, login if required, scrolling.  It
    assigns none of the [let] variables of the function. *)
Definition reach_profile {L} (profile : Profile) (email : string) (headless : JsVal)
  : M L unit :=
  (if nonempty email then loadCookies email ;; ret tt else ret tt) ;;
  navigate env (Z.to_nat maxAttempts) (url profile) false 0 ;;
  needsLogin <- isLoginRequired env ;;
  (if needsLogin then
     p <- process_env ;;
     (* [performFacebookLogin] has three parameters: [headless], passed as
        a fourth argument, is dropped *)
     performFacebookLogin email
       (match LOGIN_PASSWORD p with
        | Some s => if nonempty s then s else EmptyString
        | None => EmptyString
        end) ;;
     saveCookies email ;;
     act env (AGoto (url profile) "domcontentloaded" 45000) ;;
     d <- rand env 3000 5000 ;;
     delay d
   else ret tt) ;;
  distance <- rand env 200 500 ;;
  steps <- rand env 3 6 ;;
  humanScroll env distance steps ;;
  d <- rand env 2000 4000 ;;
  delay d.

(** The inner [try { } catch (err) { }] of [sendMessageToProfile]: from
    "Look for messaging interface" to "Message sent successfully!". *)
Definition deliver_message (message : string) : M Locals unit :=
  try_catch
    (messageButton <- query env None messageButtonSelector ;;
     set_messageButton messageButton ;;
     match messageButton with
     | None => throw "Profile unavailable or no messaging option found"
     | Some _ =>
         call tt (humanClick env (target_of messageButton)) ;;
         set_messageButtonPresent "Yes" ;;
         act env composerRace ;;
         d <- rand env 2000 4000 ;;
         delay d ;;
         messageInput <- call tt (first_match env messageInputSelectors) ;;
         match messageInput with
         | Some input =>
             call tt (humanClick env (THandle input)) ;;
             d <- rand env 500 1000 ;;
             delay d ;;
             isContentEditable <- test env (PContentEditable input) ;;
             (if isContentEditable then
                act env (AFocus input) ;;
                act env (AKeyDown "Control") ;;
                act env (AKeyPress "a") ;;
                act env (AKeyUp "Control") ;;
                delay 100 ;;
                act env (AType input (JStr message))
              else
                call tt (humanType env (THandle input) (JStr message) 100 250)) ;;
             d <- rand env 1000 2000 ;;
             delay d ;;
             sendButton <- call tt (first_match env sendSelectors) ;;
             match sendButton with
             | Some sendButton =>
                 call tt (humanClick env (THandle sendButton)) ;;
                 set_messageSent "Yes"
             | None =>
                 act env (AKeyPress "Enter") ;;
                 set_messageSent "Yes"
             end ;;
             d <- rand env 4000 7000 ;;
             delay d
         | None => throw "Message input field not found"
         end
     end)
    (fun _ => throw "Profile unavailable or no messaging option found").

(** The [return] of the outer [try]. *)
Definition success_record (start : Z) (profile : Profile) (message : string)
  : M Locals Outcome :=
  t <- Date_now ;;
  vars <- get_locals ;;
  ret (mkOutcome true (id profile) (url profile) None (Some (t - start))
                 (Some (preview message))
                 (Some (var_messageButtonPresent vars))
                 (Some (var_messageSent vars)) None).

(** The [return] of the outer [catch (err)]. *)
Definition failure_record (start : Z) (profile : Profile) (err : string)
  : M Locals Outcome :=
  t <- Date_now ;;
  vars <- get_locals ;;
  ret (mkOutcome false (id profile) (url profile) (Some err) (Some (t - start))
                 None
                 (Some (var_messageButtonPresent vars))
                 (Some (var_messageSent vars)) None).

(** [async function sendMessageToProfile(page, profile, message, email,
    headless)] *)
Definition sendMessageToProfile {L} (profile : Profile) (message email : string)
           (headless : JsVal) : M L Outcome :=
  call initial_locals
    (start <- Date_now ;;
     try_catch
       (call tt (reach_profile profile email headless) ;;
        deliver_message message ;;
        success_record start profile message)
       (fun err => failure_record start profile err)).

(* ------------------------------- Main Actor ------------------------------ *)

(** The [catch] record of the profile loop. *)
Definition fail_record (profile : Profile) (err : string) (t : Z) : Outcome :=
  mkOutcome false (id profile) (url profile) (Some err) None None
            (Some "No") (Some "No") (Some t).

(** One turn of [for (let i = 0; i < profiles.length; i++)]. *)
Definition profile_turn (message email : string) (headless : JsVal)
           (i : nat) (profile : Profile) : M (list Outcome) unit :=
  try_catch
    ((if (0 <? Z.of_nat i) then
        pauseTime <- rand env 3000 10000 ;;
        delay pauseTime
      else ret tt) ;;
     result <- sendMessageToProfile profile message email headless ;;
     t <- Date_now ;;
     act env (APushData (with_timestamp t result)) ;;
     push_result result)
    (fun err =>
       t <- Date_now ;;
       let fail := fail_record profile err t in
       act env (APushData fail) ;;
       push_result fail).

(** The profile loop, from index [i] on. *)
Fixpoint profile_loop (message email : string) (headless : JsVal)
         (i : nat) (profiles : list Profile) : M (list Outcome) unit :=
  match profiles with
  | [] => ret tt
  | profile :: rest =>
      profile_turn message email headless i profile ;;
      profile_loop message email headless (S i) rest
  end.

(** The [try] that opens the Facebook home page before the loop; its
    [catch] only logs. *)
Definition establish_session {L} (email : string) : M L unit :=
  try_catch
    (act env (AGoto "https://www.facebook.com" "domcontentloaded" 30000) ;;
     d <- rand env 2000 4000 ;;
     delay d ;;
     loadCookies email ;;
     act env AReload ;;
     d <- rand env 2000 3000 ;;
     delay d)
    (fun _ => ret tt).

(** The body of [Actor.main]: [raw] is what [Actor.getInput()] returned.
    The result is [None] on an input that passes the script's validation
    although a profile entry is not of the shape [{id, url}]: the run of
    the script on such an input is not modelled. *)
Definition main (raw : JsVal) : M unit (option (list Outcome)) :=
  p <- process_env ;;
  let r := resolve raw p in
  match validate r with
  | Some msg => throw msg
  | None =>
      match typed r with
      | None => ret None
      | Some (email, profiles, message) =>
          act env (ALaunch (r_headless r)) ;;
          act env ANewPage ;;
          act env ASetUserAgent ;;
          act env ASetExtraHTTPHeaders ;;
          act env AEvaluateOnNewDocument ;;
          results <- call []
            (try_finally
               (try_catch
                  (establish_session email ;;
                   profile_loop message email (r_headless r) 0 profiles)
                  (fun err => throw err))
               (act env ABrowserClose) ;;
             get_locals) ;;
          act env (ASetOutput results) ;;
          ret (Some results)
      end
  end.

End Script.

End MessengerJs.

(* ====================================================================== *)
(** * messengerrrr.js *)
(* ====================================================================== *)

Module MessengerrrrJs.

(** [String(v)]: what an assignment to [process.env.X] stores. *)
Fixpoint js_String (v : JsVal) : string :=
  match v with
  | JUndefined => "undefined"
  | JNull => "null"
  | JBool true => "true"
  | JBool false => "false"
  | JNum n => Number_toString n
  | JStr s => s
  | JArr items =>
      (fix join (l : list JsVal) : string :=
         match l with
         | [] => EmptyString
         | x :: rest =>
             (match x with
              | JUndefined | JNull => EmptyString
              | _ => js_String x
              end)
             ++ (match rest with [] => EmptyString | _ => "," ++ join rest end)
         end) items
  | JObj _ => "[object Object]"
  end.

Definition numbers : list string :=
  [ "zero"; "one"; "two"; "three"; "four"; "five"; "six"; "seven"; "eight"; "nine" ].

Definition env_truthy (o : option string) : bool :=
  match o with Some s => nonempty s | None => false end.

Definition is_true_string (o : option string) : bool :=
  match o with Some s => (s =? "true")%string | None => false end.

Section Script.

Variable env : Env.

(* -------------------------- Cookie Persistence -------------------------- *)

(** [async function cookieFilePathFor(email)]; [email] is [None] when the
    caller passes an unset [process.env.LOGIN_EMAIL]. *)
Definition cookieFilePathFor {L} (email : option string) : M L string :=
  act env AEnsureDir ;;
  match email with
  | Some email => ret ("cookies/" ++ sanitize email ++ ".json")
  | None => throw "Cannot read properties of undefined (reading 'replace')"
  end.

(** [async function saveCookies(page, email)] *)
Definition saveCookies {L} (email : option string) : M L unit :=
  cookies <- page_cookies env ;;
  pathToFile <- cookieFilePathFor email ;;
  act env (AWriteJson pathToFile cookies).

(** [async function loadCookies(page, email)] *)
Definition loadCookies {L} (email : option string) : M L bool :=
  pathToFile <- cookieFilePathFor email ;;
  exists_ <- test env (PPathExists pathToFile) ;;
  if exists_ then
    cookies <- stored env pathToFile ;;
    try_catch
      (match cookies with
       | SCookies cookies => act env (ASetCookie cookies) ;; ret true
       | _ => throw "cookies is not iterable"
       end)
      (fun _ => ret false)
  else ret false.

(* -------------------------- reCAPTCHA Solving --------------------------- *)

(** [async function downloadAudio(url)].  The promise resolves when the
    response ends and rejects when [https.get] throws or the response emits
    'error'; an 'error' of the request itself has no listener and ends the
    process, and a request without an answer is waited for without a
    timeout. *)
Definition downloadAudio {L} (link : option string) : M L unit :=
  fun l w =>
    let d := env_download env (clock w) link in
    mkOut (match d with
           | Arrives => Settled (Ok tt)
           | Rejects msg => Settled (Throw msg)
           | Dies | Hangs => Stopped
           end)
          [EDownload link d] l (tick env w).

(** [async function processAudioChallenge(audioUrl)] *)
Definition processAudioChallenge {L} (audioUrl : option string) : M L (option string) :=
  try_catch
    (downloadAudio audioUrl ;;
     (* "This is a mock implementation." *)
     r <- Math_random env ;;
     let result := nth_error numbers
                     (Z.to_nat (Qfloor (r * inject_Z (Z.of_nat (List.length numbers))))) in
     d <- rand env 2000 4000 ;;
     delay d ;;
     ret result)
    (fun _ => ret None).

(** [async function solveRecaptchaAudio(page)] *)
Definition solveRecaptchaAudio {L} : M L bool :=
  try_catch
    (challengeFrame <- tickCheckbox env ;;
     match challengeFrame with
     | None => ret true
     | Some challengeFrame =>
         d <- rand env 1000 2000 ;;
         delay d ;;
         audioButton <- query env (Some challengeFrame)
                              "#recaptcha-audio-button, .rc-button-audio" ;;
         match audioButton with
         | Some audioButton =>
             act env (AClick audioButton None None) ;;
             d <- rand env 2000 3000 ;;
             delay d
         | None => ret tt
         end ;;
         act env (AWaitForSelector (Some challengeFrame)
                                   ".rc-audiochallenge-tdownload-link" 10000) ;;
         audioLink <- text_of env (TAudioLink challengeFrame) ;;
         audioText <- processAudioChallenge audioLink ;;
         match audioText with
         | Some audioText =>
             if nonempty audioText then
               audioInput <- query env (Some challengeFrame) "#audio-response" ;;
               match audioInput with
               | Some audioInput =>
                   act env (AClick audioInput None None) ;;
                   d <- rand env 500 1000 ;;
                   delay d ;;
                   act env (AType audioInput (JStr audioText)) ;;
                   d <- rand env 500 1000 ;;
                   delay d ;;
                   verifyButton <- query env (Some challengeFrame)
                                         "#recaptcha-verify-button" ;;
                   match verifyButton with
                   | Some verifyButton =>
                       act env (AClick verifyButton None None) ;;
                       d <- rand env 3000 5000 ;;
                       delay d ;;
                       ret true
                   | None => ret false
                   end
               | None => ret false
               end
             else ret false
         | None => ret false
         end
     end)
    (fun _ => ret false).

(** [async function solveCaptcha(page)] *)
Definition solveCaptcha {L} : M L bool :=
  captchaPresent <- test env PCaptchaPresent ;;
  if negb captchaPresent then ret true
  else
    audioSolved <- solveRecaptchaAudio ;;
    if audioSolved then ret true
    else
      p <- process_env ;;
      if negb (is_true_string (HEADLESS p)) then
        let maxWait := 3 * 60 * 1000 in
        start <- Date_now ;;
        solved <- manualWait env manualWait_iterations start maxWait ;;
        if solved then ret true else ret false
      else ret false.

(* ----------------------- Login Detection & Handling ---------------------- *)

(** [async function performFacebookLogin(page, email, password)] *)
Definition performFacebookLogin {L} (email password : option string) : M L bool :=
  try_catch
    (act env (AWaitForSelector None emailSelector 10000) ;;
     emailField <- query env None emailSelector ;;
     match emailField with
     | Some emailField =>
         humanClick env (THandle emailField) ;;
         d <- rand env 300 600 ;;
         delay d ;;
         humanType env (THandle emailField) (of_env_var email) 80 180 ;;
         d <- rand env 400 800 ;;
         delay d
     | None => throw "Email field not found"
     end ;;
     passwordField <- query env None passwordSelector ;;
     match passwordField with
     | Some passwordField =>
         humanClick env (THandle passwordField) ;;
         d <- rand env 300 600 ;;
         delay d ;;
         humanType env (THandle passwordField) (of_env_var password) 80 180 ;;
         d <- rand env 500 1000 ;;
         delay d
     | None => throw "Password field not found"
     end ;;
     loginButton <- query env None loginButtonSelector ;;
     match loginButton with
     | Some loginButton => humanClick env (THandle loginButton)
     | None => act env (AKeyPress "Enter")
     end ;;
     act env loginRace ;;
     d <- rand env 2000 4000 ;;
     delay d ;;
     captchaPresent <- test env PLoginCaptchaPresent ;;
     (if captchaPresent then
        solved <- solveCaptcha ;;
        if negb solved then throw "CAPTCHA could not be solved during login"
        else
          d <- rand env 3000 5000 ;;
          delay d
      else ret tt) ;;
     stillOnLoginPage <- isLoginRequired env ;;
     (if stillOnLoginPage then
        errorMessage <- text_of env TLoginErrorMessage ;;
        match errorMessage with
        | Some errorMessage =>
            if nonempty errorMessage
            then throw ("Login failed: " ++ errorMessage)
            else throw "Login failed: Still on login page"
        | None => throw "Login failed: Still on login page"
        end
      else ret tt) ;;
     ret true)
    (fun error => throw error).

(* ------------------------- Send message to profile ------------------------ *)

(** The [try] of [sendMessageToProfile], up to "Look for messaging
    interface": cookies, navigation, login if required, scrolling.  It
    assigns none of the [let] variables of the function. *)
Definition reach_profile {L} (profile : Profile) : M L unit :=
  p <- process_env ;;
  let email := LOGIN_EMAIL p in
  (if env_truthy email then loadCookies email ;; ret tt else ret tt) ;;
  navigate env (Z.to_nat maxAttempts) (url profile) false 0 ;;
  isBlocked <- test env PIsBlocked ;;
  needsLogin <- isLoginRequired env ;;
  (if needsLogin then
     p <- process_env ;;
     performFacebookLogin (LOGIN_EMAIL p) (LOGIN_PASSWORD p) ;;
     p <- process_env ;;
     saveCookies (LOGIN_EMAIL p) ;;
     act env (AGoto (url profile) "domcontentloaded" 45000) ;;
     d <- rand env 3000 5000 ;;
     delay d
   else ret tt) ;;
  distance <- rand env 200 500 ;;
  steps <- rand env 3 6 ;;
  humanScroll env distance steps ;;
  d <- rand env 2000 4000 ;;
  delay d.

(** The rest of the [try] of [sendMessageToProfile]: from "Look for
    messaging interface" to "Message sent successfully!".  [message] is the
    [message] of the input, which [runMessenger] has only tested for
    truthiness. *)
Definition deliver_message (message : JsVal) : M Locals unit :=
  try_catch
    (messageButton <- query env None messageButtonSelector ;;
     set_messageButton messageButton ;;
     call tt (humanClick env (target_of messageButton)))
    (fun _ => ret tt) ;;
  vars <- get_locals ;;
  let messageButton := var_messageButton vars in
  (match messageButton with
   | None => throw "Profile unavailable or no messaging option found"
   | Some _ => ret tt
   end) ;;
  match messageButton with
  | Some _ =>
      call tt (humanClick env (target_of messageButton)) ;;
      set_messageButtonPresent "Yes" ;;
      act env composerRace ;;
      d <- rand env 2000 4000 ;;
      delay d ;;
      messageInput <- call tt (first_match env messageInputSelectors) ;;
      match messageInput with
      | Some input =>
          call tt (humanClick env (THandle input)) ;;
          d <- rand env 500 1000 ;;
          delay d ;;
          isContentEditable <- test env (PContentEditable input) ;;
          (if isContentEditable then
             act env (AFocus input) ;;
             act env (AKeyDown "Control") ;;
             act env (AKeyPress "a") ;;
             act env (AKeyUp "Control") ;;
             delay 100 ;;
             act env (AType input message)
           else
             call tt (humanType env (THandle input) message 100 250)) ;;
          d <- rand env 1000 2000 ;;
          delay d ;;
          sendButton <- call tt (first_match env sendSelectors) ;;
          match sendButton with
          | Some sendButton =>
              call tt (humanClick env (THandle sendButton)) ;;
              set_messageSent "Yes"
          | None =>
              act env (AKeyPress "Enter") ;;
              set_messageSent "Yes"
          end ;;
          d <- rand env 4000 7000 ;;
          delay d
      | None => throw "Message input field not found"
      end
  | None => throw "No messaging interface found on this profile"
  end.

(** [message.substring(0, 50) + (message.length > 50 ? "..." : "")] on the
    [message] of the input: only a string has the method. *)
Definition preview_of {L} (message : JsVal) : M L string :=
  match message with
  | JStr s => ret (preview s)
  | JUndefined => throw "Cannot read properties of undefined (reading 'substring')"
  | JNull => throw "Cannot read properties of null (reading 'substring')"
  | _ => throw "message.substring is not a function"
  end.

(** The [return] of the [try]. *)
Definition success_record (start : Z) (profile : Profile) (message : JsVal)
  : M Locals Outcome :=
  t <- Date_now ;;
  vars <- get_locals ;;
  shown <- preview_of message ;;
  ret (mkOutcome true (id profile) (url profile) None (Some (t - start))
                 (Some shown)
                 (Some (var_messageButtonPresent vars))
                 (Some (var_messageSent vars)) None).

(** The [return] of the [catch (err)]. *)
Definition failure_record (start : Z) (profile : Profile) (err : string)
  : M Locals Outcome :=
  t <- Date_now ;;
  vars <- get_locals ;;
  ret (mkOutcome false (id profile) (url profile) (Some err) (Some (t - start))
                 None
                 (Some (var_messageButtonPresent vars))
                 (Some (var_messageSent vars)) None).

(** [async function sendMessageToProfile(page, profile, message, options =
    {})] *)
Definition sendMessageToProfile {L} (profile : Profile) (message : JsVal)
  : M L Outcome :=
  call initial_locals
    (start <- Date_now ;;
     try_catch
       (call tt (reach_profile profile) ;;
        deliver_message message ;;
        success_record start profile message)
       (fun err => failure_record start profile err)).

(* ------------------------------- Main flow ------------------------------- *)

(** [async function launchBrowser(opts = {})] *)
Definition launchBrowser {L} : M L unit :=
  p <- process_env ;;
  let headless := is_true_string (HEADLESS p) in
  act env (ALaunch (JBool headless)).

(** The [catch] record of the profile loop. *)
Definition fail_record (profile : Profile) (err : string) (t : Z) : Outcome :=
  mkOutcome false (id profile) (url profile) (Some err) None None None None (Some t).

(** [async function logResult(obj)] *)
Definition logResult {L} (obj : Outcome) : M L unit :=
  act env (AAppendFile obj).

(** One turn of [for (let i = 0; i < profiles.length; i++)]. *)
Definition profile_turn (message : JsVal) (i : nat) (profile : Profile)
  : M (list Outcome) unit :=
  try_catch
    ((if (0 <? Z.of_nat i) then
        pauseTime <- rand env 3000 10000 ;;
        delay pauseTime
      else ret tt) ;;
     result <- sendMessageToProfile profile message ;;
     t <- Date_now ;;
     logResult (with_timestamp t result) ;;
     push_result result)
    (fun err =>
       t <- Date_now ;;
       let fail := fail_record profile err t in
       logResult fail ;;
       push_result fail).

(** The profile loop, from index [i] on. *)
Fixpoint profile_loop (message : JsVal) (i : nat) (profiles : list Profile)
  : M (list Outcome) unit :=
  match profiles with
  | [] => ret tt
  | profile :: rest =>
      profile_turn message i profile ;;
      profile_loop message (S i) rest
  end.

(** The [try] that opens the Facebook home page before the loop; its
    [catch] only logs. *)
Definition establish_session {L} (email : option string) : M L unit :=
  try_catch
    (act env (AGoto "https://www.facebook.com" "domcontentloaded" 30000) ;;
     d <- rand env 2000 4000 ;;
     delay d ;;
     if env_truthy email then
       loadCookies email ;;
       act env AReload ;;
       d <- rand env 2000 3000 ;;
       delay d
     else ret tt)
    (fun _ => ret tt).

(** [async function processAll(profiles, message)] *)
Definition processAll (profiles : list Profile) (message : JsVal)
  : M unit (list Outcome) :=
  p <- process_env ;;
  let email := LOGIN_EMAIL p in
  let password := LOGIN_PASSWORD p in
  if negb (env_truthy email) || negb (env_truthy password) then
    throw (cross_mark ++ " LOGIN_EMAIL and LOGIN_PASSWORD must be set in .env file")
  else
    launchBrowser ;;
    act env ANewPage ;;
    act env ASetUserAgent ;;
    act env ASetExtraHTTPHeaders ;;
    act env AEvaluateOnNewDocument ;;
    call []
      (try_finally
         (try_catch
            (establish_session email ;;
             profile_loop message 0 profiles)
            (fun err => throw err))
         (act env ABrowserClose) ;;
       get_locals).

(** The three [if (...) throw new Error(...)] of [runMessenger]: the message
    of the error thrown, if any.  [input.loginEmail] on [null] or
    [undefined] is a [TypeError]. *)
Definition validate (input : JsVal) : option string :=
  match input with
  | JUndefined => Some "Cannot read properties of undefined (reading 'loginEmail')"
  | JNull => Some "Cannot read properties of null (reading 'loginEmail')"
  | _ =>
      if negb (truthy (get_prop input "loginEmail"))
         || negb (truthy (get_prop input "loginPassword")) then
        Some "loginEmail and loginPassword are required in input"
      else if negb (truthy (get_prop input "profiles"))
              || negb (isArray (get_prop input "profiles"))
              || (js_length (get_prop input "profiles") =? 0) then
        Some "profiles (array) required in input"
      else if negb (truthy (get_prop input "message")) then
        Some "message required in input"
      else None
  end.

(** The [profiles] of the input, when every entry has the shape
    [{id: string, url: string}]. *)
Definition typed (input : JsVal) : option (list Profile) :=
  as_profiles (get_prop input "profiles").

(** [export async function runMessenger(input)].  The result is [None] on an
    input that passes the validation although a profile entry is not of the
    shape [{id, url}]: the run of the script on such an input is not
    modelled. *)
Definition runMessenger (input : JsVal) : M unit (option (list Outcome)) :=
  match validate input with
  | Some msg => throw msg
  | None =>
      set_process_env
        (mkProcessEnv (Some (js_String (get_prop input "loginEmail")))
                      (Some (js_String (get_prop input "loginPassword")))
                      (Some (if truthy (get_prop input "headless")
                             then "true" else "false"))) ;;
      match typed input with
      | None => ret None
      | Some profiles =>
          results <- processAll profiles (get_prop input "message") ;;
          ret (Some results)
      end
  end.

End Script.

End MessengerrrrJs.

(* ====================================================================== *)
(** * main.js *)
(* ====================================================================== *)

Module MainJs.

(** The three [if (...) throw new Error(...)] of [main.js]. *)
Definition validate (input : JsVal) : option string :=
  if negb (truthy (get_prop input "loginEmail"))
     || negb (truthy (get_prop input "loginPassword")) then
    Some (cross_mark
          ++ " loginEmail and loginPassword are required in INPUT.json or Apify Console.")
  else if negb (truthy (get_prop input "profiles"))
          || negb (isArray (get_prop input "profiles"))
          || (js_length (get_prop input "profiles") =? 0) then
    Some "profiles (array) required in INPUT.json or Apify Console."
  else if negb (truthy (get_prop input "message")) then
    Some "message required in INPUT.json or Apify Console."
  else None.

Section Script.

Variable env : Env.

(** The module body; [input] is what [Actor.getInput()] returned. *)
Definition main (input : JsVal) : M unit (option (list Outcome)) :=
  act env AActorInit ;;
  match validate input with
  | Some msg => throw msg
  | None =>
      results <- MessengerrrrJs.runMessenger env input ;;
      match results with
      | Some results =>
          act env (APushDataAll results) ;;
          act env AActorExit ;;
          ret (Some results)
      | None => ret None
      end
  end.

End Script.

End MainJs.

(* ====================================================================== *)
(** * Observations on runs *)
(* ====================================================================== *)

(** What [rand] returns on the draw [k]. *)
Definition rand_value (k : N) (min max : Z) : Z :=
  Qfloor (random_unit k * inject_Z (max - min + 1)) + min.

(** The calls that inject input into the page. *)
Definition is_input_action (e : Event) : bool :=
  match e with
  | EDo (AClick _ _ _) _ | EDo (AType _ _) _ | EDo (AFocus _) _
  | EDo (AKeyPress _) _ | EDo (AKeyDown _) _ | EDo (AKeyUp _) _
  | EDo (AMouseMove _ _) _ | EDo (AScrollBy _) _ => true
  | _ => false
  end.


(* ---------------------------------------------------------------------- *)
(** ** Observations on the navigation loop *)

(** A page-load attempt: [page.goto]. *)
Definition is_page_load (e : Event) : bool :=
  match e with EDo (AGoto _ _ _) _ => true | _ => false end.

Definition count_page_loads (tr : list Event) : nat :=
  List.length (filter is_page_load tr).

(** A pause within the backoff range of the retry loop. *)
Definition is_backoff_pause (e : Event) : bool :=
  match e with
  | EDelay ms => (2000 <=? ms) && (ms <=? 4000)
  | _ => false
  end.

(** Every page load but the first of the trace comes right after a backoff
    pause. *)
Fixpoint loads_are_spaced (tr : list Event) : bool :=
  match tr with
  | [] => true
  | e :: rest =>
      match rest with
      | next :: _ => if is_page_load next then is_backoff_pause e else true
      | [] => true
      end && loads_are_spaced rest
  end.

(** The message of the failure an event of the retry loop stands for: a
    [page.goto] or a liveness check that threw, or a liveness check that
    answered [false]. *)
Definition attempt_failure (e : Event) : option string :=
  match e with
  | EDo (AGoto _ _ _) (Some msg) => Some msg
  | ETest PPageLoaded (Throw msg) => Some msg
  | ETest PPageLoaded (Ok false) => Some "Page did not load properly"
  | _ => None
  end.

Fixpoint attempt_failures (tr : list Event) : list string :=
  match tr with
  | [] => []
  | e :: rest =>
      match attempt_failure e with
      | Some msg => msg :: attempt_failures rest
      | None => attempt_failures rest
      end
  end.

Definition last_failure (tr : list Event) : option string :=
  last (map Some (attempt_failures tr)) None.

(* ---------------------------------------------------------------------- *)
(** ** Observations on the result sink *)

(** A write to the result sink: [Actor.pushData(record)] in [messenger.js],
    [logResult(record)] in [messengerrrr.js]. *)
Definition is_sink_write (e : Event) : bool :=
  match e with
  | EDo (APushData _) _ | EDo (AAppendFile _) _ => true
  | _ => false
  end.

Definition no_sink_write (e : Event) : bool := negb (is_sink_write e).

(** The profile an outcome record is about. *)
Definition subject (o : Outcome) : Profile :=
  mkProfile (profileId o) (outcome_url o).

(** The records the sink accepted, in the order of their arrival. *)
Fixpoint emitted (tr : list Event) : list Outcome :=
  match tr with
  | [] => []
  | EDo (APushData o) None :: rest => o :: emitted rest
  | EDo (AAppendFile o) None :: rest => o :: emitted rest
  | _ :: rest => emitted rest
  end.

(** The sink takes the record that the [catch] of the profile loop writes
    (the one record the scripts build without a [durationMs]). *)
Definition sink_takes_fallback (env : Env) : Prop :=
  forall (k : nat) (o : Outcome),
    durationMs o = None ->
    env_do env k (APushData o) = None /\ env_do env k (AAppendFile o) = None.

(* ---------------------------------------------------------------------- *)
(** ** Observations on the challenge resolution chain *)

(** A poll of the manual-solve window of [solveCaptcha]. *)
Definition is_manual_poll (e : Event) : bool :=
  match e with ETest PStillPresent _ => true | _ => false end.

Definition no_manual_poll (e : Event) : bool := negb (is_manual_poll e).

(** A step of the audio path of [solveRecaptchaAudio]: a look-up of the
    audio button, of the response field or of the verify button inside the
    challenge frame, the wait for the download link, the read of its
    address, the download. *)
Definition is_audio_step (e : Event) : bool :=
  match e with
  | EQuery (Some _) sel _ =>
      (sel =? "#recaptcha-audio-button, .rc-button-audio")%string
      || (sel =? "#audio-response")%string
      || (sel =? "#recaptcha-verify-button")%string
  | EDo (AWaitForSelector (Some _) _ _) _ => true
  | EDownload _ _ => true
  | EText (TAudioLink _) _ => true
  | _ => false
  end.

Definition no_audio_step (e : Event) : bool := negb (is_audio_step e).

(** [process.env.HEADLESS === "true"]: the run is headless. *)
Definition headless_env (pe : ProcessEnv) : Prop :=
  MessengerrrrJs.is_true_string (HEADLESS pe) = true.

(** The values handed to [element.type], in the order of the calls. *)
Fixpoint typed_texts (tr : list Event) : list JsVal :=
  match tr with
  | [] => []
  | EDo (AType _ text) _ :: rest => text :: typed_texts rest
  | _ :: rest => typed_texts rest
  end.

Definition no_typing (e : Event) : bool :=
  match e with EDo (AType _ _) _ => false | _ => true end.

(* ---------------------------------------------------------------------- *)
(** ** Observations on the login *)

(** A step of the submission of the login form: the look-up of the login
    button, the Enter key, the wait for the navigation that follows. *)
Definition is_submit_step (e : Event) : bool :=
  match e with
  | EQuery None sel _ => (sel =? loginButtonSelector)%string
  | EDo (AKeyPress key) _ => (key =? "Enter")%string
  | EDo (ARace _) _ => true
  | _ => false
  end.

Definition no_submit_step (e : Event) : bool := negb (is_submit_step e).

(** What [humanType] types for the string [text]: its code points, one by
    one. *)
Definition keystrokes (text : string) : list JsVal :=
  map JStr (code_points text).

(** The texts typed, put end to end, when only strings were typed. *)
Fixpoint typed_string (typed : list JsVal) : option string :=
  match typed with
  | [] => Some EmptyString
  | JStr s :: rest =>
      match typed_string rest with
      | Some s' => Some (s ++ s')
      | None => None
      end
  | _ :: _ => None
  end.

(** The browser is launched. *)
Definition is_launch (e : Event) : bool :=
  match e with EDo (ALaunch _) _ => true | _ => false end.

(* ---------------------------------------------------------------------- *)
(** ** Routine calls *)

(** The calls that are neither a write to the sink, nor a poll of the
    manual-solve window, nor a step of the audio path. *)
Definition routine (e : Event) : bool :=
  no_sink_write e && no_manual_poll e && no_audio_step e.

(* ---------------------------------------------------------------------- *)
(** ** Properties of computations *)

(** Started with a [process.env] that satisfies [pre], [m] makes only calls
    that satisfy [p], and leaves [process.env] as it found it. *)
Definition confined {L A} (pre : ProcessEnv -> Prop) (p : Event -> bool)
           (m : M L A) : Prop :=
  forall (l : L) (w : World),
    pre (penv w) ->
    forallb p (trace (m l w)) = true /\ penv (world (m l w)) = penv w.

(** No condition on [process.env]. *)
Definition any_env : ProcessEnv -> Prop := fun _ => True.

(** [m] always throws. *)
Definition never_returns {L A} (m : M L A) : Prop :=
  forall (l : L) (w : World), exists msg, res (m l w) = Throw msg.

(** [m] always settles: it returns or throws. *)
Definition settles {L A} (m : M L A) : Prop :=
  forall (l : L) (w : World), res (m l w) <> Stopped.

(** Every download of the audio challenge settles: the request is answered
    to its end, or fails in a way that rejects the promise. *)
Definition downloads_settle (env : Env) : Prop :=
  forall (k : nat) (link : option string),
    download_settles (env_download env k link) = true.

(** The trace of a run that has stopped at a download: its last call is a
    download that does not settle. *)
Definition stopped_at_download (tr : list Event) : Prop :=
  exists t link d,
    tr = (t ++ [EDownload link d])%list /\ download_settles d = false.

(** [m] stops only at a download that does not settle. *)
Definition stops_at_download {L A} (m : M L A) : Prop :=
  forall (l : L) (w : World),
    res (m l w) = Stopped -> stopped_at_download (trace (m l w)).

(* ====================================================================== *)
(** * Concrete pages *)
(* ====================================================================== *)

(** A page on which everything works: no login wall, every selector
    matches, every element is visible, the composer is a rich-text region,
    nothing throws.  The handle returned by a query is the index of the
    call. *)
Definition cooperative : Env :=
  mkEnv (fun _ => 0%N) (fun _ => 7%N) (fun _ _ => None)
        (fun _ p => match p with
                    | PPageLoaded | PContentEditable _ => Ok true
                    | _ => Ok false
                    end)
        (fun k _ _ => Ok (Some k))
        (fun _ _ => Ok (Some (mkBox 10 20 30 40)))
        (fun _ => [])
        (fun _ => "https://www.facebook.com/someone")
        (fun _ _ => Ok None)
        (fun _ => Ok [])
        (fun _ _ => Ok SAbsent)
        (fun _ _ => Arrives).

(** [cooperative], except that no element has a bounding box. *)
Definition invisible : Env :=
  mkEnv (env_random cooperative) (env_elapsed cooperative) (env_do cooperative)
        (env_test cooperative) (env_query cooperative)
        (fun _ _ => Ok None)
        (env_frames cooperative) (env_url cooperative) (env_text cooperative)
        (env_cookies cooperative) (env_stored cooperative)
        (env_download cooperative).

(** [base] with other answers to the calls that complete or throw. *)
Definition with_do (base : Env) (answer : nat -> Action -> option string) : Env :=
  mkEnv (env_random base) (env_elapsed base) answer
        (env_test base) (env_query base) (env_box base)
        (env_frames base) (env_url base) (env_text base)
        (env_cookies base) (env_stored base)
        (env_download base).

(** No page ever loads, and the sink is busy whenever a record of
    [sendMessageToProfile] arrives; it takes the record of the [catch]. *)
Definition hostile : Env :=
  with_do cooperative
    (fun _ a =>
       match a with
       | AGoto _ _ _ => Some "net::ERR_TIMED_OUT"
       | APushData o | AAppendFile o =>
           match durationMs o with
           | Some _ => Some "sink busy"
           | None => None
           end
       | _ => None
       end).

(** The sink takes nothing. *)
Definition deaf_sink : Env :=
  with_do cooperative
    (fun _ a =>
       match a with
       | APushData _ | AAppendFile _ => Some "sink down"
       | _ => None
       end).

(** [base] with other answers to [page.$] and [frame.$]. *)
Definition with_query (base : Env)
           (answer : nat -> option Frame -> string -> Res (option ElementHandle))
  : Env :=
  mkEnv (env_random base) (env_elapsed base) (env_do base)
        (env_test base) answer (env_box base)
        (env_frames base) (env_url base) (env_text base)
        (env_cookies base) (env_stored base)
        (env_download base).

(** A profile page without a "Message" button. *)
Definition no_message_button : Env :=
  with_query cooperative
    (fun k _ sel =>
       if (sel =? messageButtonSelector)%string then Ok None else Ok (Some k)).

(** A composer without a send button. *)
Definition no_send_button : Env :=
  with_query cooperative
    (fun k _ sel =>
       if existsb (String.eqb sel) sendSelectors then Ok None else Ok (Some k)).

(** A login wall with a challenge nobody solves: every page is the login
    page, a reCAPTCHA with its challenge frame shows up after the form is
    submitted, and the audio download link never appears. *)
Definition captcha_wall : Env :=
  mkEnv (env_random cooperative) (env_elapsed cooperative)
        (fun _ a =>
           match a with
           | AWaitForSelector (Some _) _ _ => Some "waiting for selector failed: timeout"
           | _ => None
           end)
        (fun _ p =>
           match p with
           | PPageLoaded | PCaptchaPresent | PLoginCaptchaPresent | PStillPresent => Ok true
           | _ => Ok false
           end)
        (env_query cooperative) (env_box cooperative)
        (fun _ => [ mkFrame 1 "https://www.google.com/recaptcha/api2/anchor?k=1";
                    mkFrame 2 "https://www.google.com/recaptcha/api2/bframe?k=1" ])
        (fun _ => "https://www.facebook.com/login/?next=profile")
        (env_text cooperative) (env_cookies cooperative) (env_stored cooperative)
        (env_download cooperative).

(** A reCAPTCHA that the tick of its checkbox resolves: the widget frame is
    there, no challenge frame ever shows up. *)
Definition checkbox_only : Env :=
  mkEnv (env_random cooperative) (env_elapsed cooperative) (env_do cooperative)
        (fun _ p =>
           match p with
           | PPageLoaded | PCaptchaPresent | PLoginCaptchaPresent => Ok true
           | _ => Ok false
           end)
        (env_query cooperative) (env_box cooperative)
        (fun _ => [ mkFrame 1 "https://www.google.com/recaptcha/api2/anchor?k=1" ])
        (env_url cooperative)
        (env_text cooperative) (env_cookies cooperative) (env_stored cooperative)
        (env_download cooperative).

(** A reCAPTCHA with an audio challenge: the challenge frame shows up, the
    download link is there, the file downloads; [Math.random()] is 1/2. *)
Definition audio_challenge : Env :=
  mkEnv (fun _ => (2 ^ 52)%N) (env_elapsed cooperative) (env_do cooperative)
        (fun _ p =>
           match p with
           | PPageLoaded | PCaptchaPresent | PLoginCaptchaPresent => Ok true
           | _ => Ok false
           end)
        (env_query cooperative) (env_box cooperative)
        (fun _ => [ mkFrame 1 "https://www.google.com/recaptcha/api2/anchor?k=1";
                    mkFrame 2 "https://www.google.com/recaptcha/api2/bframe?k=1" ])
        (env_url cooperative)
        (fun _ p =>
           match p with
           | TAudioLink _ => Ok (Some "https://www.google.com/recaptcha/api2/payload/audio.mp3")
           | _ => Ok None
           end)
        (env_cookies cooperative) (env_stored cooperative)
        (env_download cooperative).

(** An actor input for one profile. *)
Definition sample_input (headless : bool) : JsVal :=
  JObj [ ("loginEmail", JStr "a@x.com");
         ("loginPassword", JStr "s");
         ("profiles", JArr [ JObj [ ("id", JStr "p1"); ("url", JStr "u1") ] ]);
         ("message", JStr "hi");
         ("headless", JBool headless) ].

Definition headless_world : World :=
  mkWorld 0 1000 (mkProcessEnv (Some "a@x.com") (Some "s") (Some "true")).

Definition one_profile : Profile := mkProfile "p1" "u1".

Definition two_profiles : list Profile :=
  [ mkProfile "p1" "https://www.facebook.com/one";
    mkProfile "p2" "https://www.facebook.com/two" ].

Definition fresh_world : World := mkWorld 0 1000 (mkProcessEnv None None None).

(* ====================================================================== *)
(** * Further observations *)
(* ====================================================================== *)

(* ---------------------------------------------------------------------- *)
(** ** Observations on the behaviour simulator *)

(** [page.mouse.move], attempted. *)
Definition is_pointer_move (e : Event) : bool :=
  match e with EDo (AMouseMove _ _) _ => true | _ => false end.

(** [window.scrollBy], attempted. *)
Definition is_scroll (e : Event) : bool :=
  match e with EDo (AScrollBy _) _ => true | _ => false end.

(** [element.click], attempted. *)
Definition is_click (e : Event) : bool :=
  match e with EDo (AClick _ _ _) _ => true | _ => false end.

(** Every [window.scrollBy] of the trace is by [amount]. *)
Definition scrolls_by (amount : Z) (e : Event) : bool :=
  match e with EDo (AScrollBy a) _ => a =? amount | _ => true end.

(** The selectors handed to [page.$], in the order of the calls. *)
Fixpoint queried (tr : list Event) : list string :=
  match tr with
  | [] => []
  | EQuery None sel _ :: rest => sel :: queried rest
  | _ :: rest => queried rest
  end.

(** A [page.$] that found nothing: it answered [null], or threw. *)
Definition is_miss (e : Event) : bool :=
  match e with
  | EQuery None _ (Ok None) | EQuery None _ (Throw _) => true
  | _ => false
  end.

(* ---------------------------------------------------------------------- *)
(** ** Observations on the life of the browser *)

(** The calls that start, set up and end the run: everything that is not a
    call of [sendMessageToProfile] or of the profile loop. *)
Definition is_lifecycle (e : Event) : bool :=
  match e with
  | EDo AActorInit _ | EDo AActorExit _ | EDo (ALaunch _) _ | EDo ANewPage _
  | EDo ASetUserAgent _ | EDo ASetExtraHTTPHeaders _
  | EDo AEvaluateOnNewDocument _ | EDo ABrowserClose _
  | EDo (ASetOutput _) _ | EDo (APushDataAll _) _ => true
  | _ => false
  end.

Definition page_level (e : Event) : bool := negb (is_lifecycle e).

(** [browser.close()], attempted. *)
Definition is_close (e : Event) : bool :=
  match e with EDo ABrowserClose _ => true | _ => false end.

(** The page has been set up: [page.evaluateOnNewDocument], the last call
    before the [try] whose [finally] closes the browser, has completed. *)
Definition is_set_up (e : Event) : bool :=
  match e with EDo AEvaluateOnNewDocument None => true | _ => false end.

(** The result list handed over at the end of the run: to
    [Actor.setValue("OUTPUT", ...)] in [messenger.js], to [Actor.pushData] in
    [main.js]. *)
Definition published (e : Event) : option (list Outcome) :=
  match e with
  | EDo (ASetOutput rs) _ | EDo (APushDataAll rs) _ => Some rs
  | _ => None
  end.

(* ---------------------------------------------------------------------- *)
(** ** Observations on the login, continued *)

(** The first call of [performFacebookLogin]: the wait for the e-mail
    field. *)
Definition is_login_attempt (e : Event) : bool :=
  match e with
  | EDo (AWaitForSelector None sel _) _ => (sel =? emailSelector)%string
  | _ => false
  end.

Definition no_login_attempt (e : Event) : bool := negb (is_login_attempt e).

(* ---------------------------------------------------------------------- *)
(** ** Properties of computations, continued *)

(** When [m] returns, all the calls it has made satisfy [p]. *)
Definition on_return {L A} (p : Event -> bool) (m : M L A) : Prop :=
  forall (l : L) (w : World),
    match res (m l w) with
    | Settled (Ok _) => forallb p (trace (m l w)) = true
    | _ => True
    end.

(* ---------------------------------------------------------------------- *)
(** ** The outcome record *)

(** The record of one profile: it is about that profile, has a duration and
    no timestamp, and is either a success (no error, the preview of the
    message, both flags at "Yes") or a failure (an error, no preview).  A
    failure has [messageSent] at "No", unless the message is not a string:
    the delivery has then completed, both flags are at "Yes", and the
    failure is the one of [message.substring]. *)
Definition well_formed (profile : Profile) (message : JsVal) (r : Outcome) : Prop :=
  subject r = profile
  /\ durationMs r <> None
  /\ timestamp r = None
  /\ ((success r = true /\ error r = None
       /\ (exists text, message = JStr text /\ message_preview r = Some (preview text))
       /\ messageButtonPresent r = Some "Yes" /\ messageSent r = Some "Yes")
      \/ (success r = false /\ error r <> None
          /\ message_preview r = None
          /\ (((messageButtonPresent r = Some "Yes" \/ messageButtonPresent r = Some "No")
               /\ messageSent r = Some "No")
              \/ (isString message = false
                  /\ messageButtonPresent r = Some "Yes"
                  /\ messageSent r = Some "Yes")))).

(* ---------------------------------------------------------------------- *)
(** ** Concrete pages, continued *)

Definition session_cookie : Cookie := mkCookie "c_user" "1000" ".facebook.com".

(** [cooperative], for a visitor who has been there before: the page has a
    session cookie, and the store and the cookie file hold it. *)
Definition returning_visitor : Env :=
  mkEnv (env_random cooperative) (env_elapsed cooperative) (env_do cooperative)
        (fun k p => match p with
                    | PPathExists _ => Ok true
                    | _ => env_test cooperative k p
                    end)
        (env_query cooperative) (env_box cooperative)
        (env_frames cooperative) (env_url cooperative) (env_text cooperative)
        (fun _ => Ok [session_cookie])
        (fun _ _ => Ok (SCookies [session_cookie]))
        (env_download cooperative).

(** [cooperative], with a store and a cookie file that cannot be read. *)
Definition unreadable_store : Env :=
  mkEnv (env_random cooperative) (env_elapsed cooperative) (env_do cooperative)
        (fun k p => match p with
                    | PPathExists _ => Ok true
                    | _ => env_test cooperative k p
                    end)
        (env_query cooperative) (env_box cooperative)
        (env_frames cooperative) (env_url cooperative) (env_text cooperative)
        (env_cookies cooperative)
        (fun _ _ => Throw "Unexpected end of JSON input")
        (env_download cooperative).

(* ---------------------------------------------------------------------- *)
(** ** Observations on the pace of the profile loop *)

(** A timer. *)
Definition is_delay (e : Event) : bool :=
  match e with EDelay _ => true | _ => false end.

Definition not_a_timer (e : Event) : bool := negb (is_delay e).

(** [m] makes a first call, whatever comes of it, and that call satisfies
    [p]. *)
Definition starts_with {L A} (p : Event -> bool) (m : M L A) : Prop :=
  forall (l : L) (w : World),
    exists e rest, trace (m l w) = e :: rest /\ p e = true.

(** The markers of a login page in its address. *)
Definition login_markers : list string :=
  [ "/login"; "/signin"; "login.facebook.com"; "m.facebook.com/login" ].

(* ---------------------------------------------------------------------- *)
(** ** The summary of [messenger.js] *)

(** [results.filter((r) => r.success).length] and
    [results.filter((r) => !r.success).length], the two counts of the
    summary that [Actor.main] logs and stores with the results under
    OUTPUT, next to [totalProfiles: profiles.length].  (Its [successRate],
    a rounded floating-point percentage, is not modelled.) *)
Definition successful (results : list Outcome) : Z :=
  Z.of_nat (List.length (filter (fun r => success r) results)).

Definition failed (results : list Outcome) : Z :=
  Z.of_nat (List.length (filter (fun r => negb (success r)) results)).

(** [cooperative], behind a login form that shows on the first visit of a
    page and is gone once the form has been submitted. *)
Definition login_wall : Env :=
  mkEnv (env_random cooperative) (env_elapsed cooperative) (env_do cooperative)
        (fun k p => match p with
                    | PLoginElements => Ok (k <? 20)%nat
                    | _ => env_test cooperative k p
                    end)
        (env_query cooperative) (env_box cooperative)
        (env_frames cooperative) (env_url cooperative) (env_text cooperative)
        (env_cookies cooperative) (env_stored cooperative)
        (env_download cooperative).

(* ---------------------------------------------------------------------- *)
(** ** Concrete pages: the download of the audio challenge *)

(** [audio_challenge] behind a login form, with a download that is refused:
    the request emits 'error'. *)
Definition refused_download : Env :=
  mkEnv (env_random audio_challenge) (env_elapsed audio_challenge)
        (env_do audio_challenge)
        (fun k p => match p with
                    | PLoginElements => Ok true
                    | _ => env_test audio_challenge k p
                    end)
        (env_query audio_challenge) (env_box audio_challenge)
        (env_frames audio_challenge) (env_url audio_challenge)
        (env_text audio_challenge) (env_cookies audio_challenge)
        (env_stored audio_challenge)
        (fun _ _ => Dies).

(* ---------------------------------------------------------------------- *)
(** ** Observations on the transcription *)

(** A value typed is one of the ten words of the mock transcription. *)
Definition is_mock_word (v : JsVal) : Prop :=
  exists word, v = JStr word /\ In word MessengerrrrJs.numbers.

(** The last calls of the audio path when it goes to its end: the look-up
    of the response field in the challenge frame, a click on it, the typing
    of [word] into it, the look-up of the verify button, a click on it;
    every call completes. *)
Definition answer_steps (frame : Frame) (input : ElementHandle) (word : string)
           (verify : ElementHandle) (d1 d2 d3 : Z) : list Event :=
  [ EQuery (Some frame) "#audio-response" (Ok (Some input));
    EDo (AClick input None None) None;
    EDelay d1;
    EDo (AType input (JStr word)) None;
    EDelay d2;
    EQuery (Some frame) "#recaptcha-verify-button" (Ok (Some verify));
    EDo (AClick verify None None) None;
    EDelay d3 ].

(** The trace ends with the calls of [suffix]. *)
Definition ends_with (suffix tr : list Event) : Prop :=
  exists t, tr = (t ++ suffix)%list.

(** The Enter key has been pressed, and the call has completed. *)
Definition pressed_enter (tr : list Event) : bool :=
  existsb (fun e => match e with
                    | EDo (AKeyPress key) None => (key =? "Enter")%string
                    | _ => false
                    end) tr.

(** What the success record shows of [message]. *)
Definition shown_in_record (message : string) (r : Outcome) : Prop :=
  success r = true ->
  exists shown,
    message_preview r = Some shown
    /\ (utf16_length shown <= 53)%nat
    /\ (((utf16_length message <= 50)%nat /\ shown = message)
        \/ ((50 < utf16_length message)%nat
            /\ shown = substring_0 50 message ++ "..."
            /\ utf16_length shown = 53%nat)).

(** The character U+1F600, beyond the basic plane: four bytes, two code
    units. *)
Definition grinning_face : string :=
  String (ascii_of_nat 240) (String (ascii_of_nat 159)
    (String (ascii_of_nat 152) (String (ascii_of_nat 128) EmptyString))).

(** A message of 53 code units, whose 50th and 51st are the two halves of
    one character. *)
Definition long_message : string :=
  "aaaaaaaaaaaaaaaaaaaaaaaaaaaaaaaaaaaaaaaaaaaaaaaaa" ++ grinning_face ++ "bc".

(** The high surrogate U+D83D, alone. *)
Definition half_face : string :=
  String (ascii_of_nat 237) (String (ascii_of_nat 160)
    (String (ascii_of_nat 189) EmptyString)).

(* ---------------------------------------------------------------------- *)
(** ** Observations on the login of [messengerrrr.js] *)

(** The values handed to [element.type], each with the element it is typed
    into, in the order of the calls. *)
Fixpoint typed_into (tr : list Event) : list (ElementHandle * JsVal) :=
  match tr with
  | [] => []
  | EDo (AType e text) _ :: rest => (e, text) :: typed_into rest
  | _ :: rest => typed_into rest
  end.

(** A call that types nothing, or types into [e]. *)
Definition types_into (e : ElementHandle) (ev : Event) : bool :=
  match ev with
  | EDo (AType e' _) _ => (e' =? e)%nat
  | _ => true
  end.

(** The calls of [humanClick] on the element [e] when it returns: without a
    bounding box, the look-up of the box and nothing else; with one, the
    look-up, pointer moves, and one click on [e], which completes. *)
Definition clicks_if_visible (e : ElementHandle) (tr : list Event) : Prop :=
  tr = [EBox e (Ok None)]
  \/ exists box t d,
      tr = (EBox e (Ok (Some box)) :: t ++ [EDo (AClick e None (Some d)) None])%list
      /\ existsb is_click t = false.

(** What follows the look-up of the login button, whose answer is [q], when
    the login returns: a press of Enter when there is no button, the calls
    of [humanClick] on the button when there is one; then the wait for the
    navigation. *)
Definition submission (q : Res (option ElementHandle)) (rest : list Event) : Prop :=
  match q with
  | Ok None =>
      exists rest',
        rest = EDo (AKeyPress "Enter") None :: EDo loginRace None :: rest'
  | Ok (Some button) =>
      exists t rest',
        rest = (t ++ EDo loginRace None :: rest')%list
        /\ clicks_if_visible button t
  | Throw _ => False
  end.

(** [e] is a call of the trace, and [after] holds of the calls that follow
    it. *)
Definition followed_by (e : Event) (after : list Event -> Prop) (tr : list Event)
  : Prop :=
  exists before rest, tr = (before ++ e :: rest)%list /\ after rest.

(* ---------------------------------------------------------------------- *)
(** ** Observations on the life of the browser, continued *)

(** [browser.close()] is called once by a run that settles after the set-up
    of the page has completed; it is not called by a run that settles
    before, nor by a run that stops. *)
Definition closed_as_expected {L A} (o : Out L A) : Prop :=
  List.length (filter is_close (trace o))
  = match res o with
    | Settled _ => if existsb is_set_up (trace o) then 1%nat else 0%nat
    | Stopped => 0%nat
    end.
(* ====================================================================== *)
(** * Running computations *)
(* ====================================================================== *)

Arguments rand : simpl never.
Arguments humanClick : simpl never.
Arguments humanType : simpl never.
Arguments humanMove : simpl never.
Arguments humanScroll : simpl never.
Arguments navigate : simpl never.
Arguments first_match : simpl never.
Arguments manualWait : simpl never.
Arguments tickCheckbox : simpl never.
Arguments isLoginRequired : simpl never.
Arguments string_of_Z : simpl never.
Arguments includes : simpl never.

Lemma rand_run {L} env (min max : Z) (l : L) (w : World) :
  rand env min max l w
  = mkOut (Ok (rand_value (env_random env (clock w)) min max)) [] l
          (mkWorld (S (clock w)) (now w) (penv w)).
Proof. reflexivity. Qed.

(** Symbolic execution: unfold the combinators, then split on the answers of
    the environment one call at a time. *)
Ltac reduce_run :=
  cbn beta iota zeta delta [app trace res locals world clock now penv tick].

Ltac unfold_run :=
  unfold bind, try_catch, try_finally, call, act, test, query, boundingBox,
    page_frames, page_url, text_of, page_cookies, stored, delay, ret, throw,
    Date_now, get_locals, set_locals, process_env, set_process_env,
    set_messageButtonPresent, set_messageSent, set_messageButton, push_result;
  reduce_run.

Ltac reduce_run_in H :=
  cbn beta iota zeta delta [app trace res locals world clock now penv tick] in H.

Ltac unfold_run_in H :=
  unfold bind, try_catch, try_finally, call, act, test, query, boundingBox,
    page_frames, page_url, text_of, page_cookies, stored, delay, ret, throw,
    Date_now, get_locals, set_locals, process_env, set_process_env,
    set_messageButtonPresent, set_messageSent, set_messageButton, push_result
    in H;
  reduce_run_in H.

(** One step on an answer of the environment. *)
Ltac exec_env_step H :=
  match type of H with
  | context [rand ?e ?a ?b ?l ?w] => rewrite (rand_run e a b l w) in H
  | context [match env_do ?e ?k ?a with _ => _ end] =>
      let E := fresh "Hdo" in destruct (env_do e k a) eqn:E
  | context [match env_test ?e ?k ?p with _ => _ end] =>
      let E := fresh "Htest" in destruct (env_test e k p) as [[|]|] eqn:E
  | context [match env_query ?e ?k ?f ?s with _ => _ end] =>
      let E := fresh "Hquery" in destruct (env_query e k f s) as [[|]|] eqn:E
  | context [match env_box ?e ?k ?h with _ => _ end] =>
      let E := fresh "Hbox" in destruct (env_box e k h) as [[|]|] eqn:E
  | context [match env_text ?e ?k ?p with _ => _ end] =>
      let E := fresh "Htext" in destruct (env_text e k p) as [[|]|] eqn:E
  | context [match env_cookies ?e ?k with _ => _ end] =>
      let E := fresh "Hcookies" in destruct (env_cookies e k) as [|] eqn:E
  | context [match env_stored ?e ?k ?s with _ => _ end] =>
      let E := fresh "Hstored" in destruct (env_stored e k s) as [[| |]|] eqn:E
  | context [match env_download ?e ?k ?s with _ => _ end] =>
      let E := fresh "Hdownload" in destruct (env_download e k s) as [| | |] eqn:E
  | context [if ?b then _ else _] =>
      let E := fresh "Hif" in destruct b eqn:E
  end;
  reduce_run_in H.

(** One step on an answer of the environment, on a value already obtained,
    or on the outcome of a call of a function taken as a whole. *)
Ltac exec_step H :=
  first
    [ match type of H with
      | context [rand ?e ?a ?b ?l ?w] => rewrite (rand_run e a b l w) in H
      | context [match ?x with _ => _ end] => is_var x; destruct x
      end; reduce_run_in H
    | match type of H with
      | context [match ?x with _ => _ end] =>
          lazymatch type of x with Out _ _ => idtac end;
          lazymatch x with
          | context [match _ with _ => _ end] => fail
          | _ => idtac
          end;
          let E := fresh "Hcall" in
          let a := fresh "a" in
          let msg := fresh "msg" in
          let t := fresh "t" in
          let l := fresh "l" in
          let w := fresh "w" in
          destruct x as [[[a|msg]|] t l w] eqn:E
      end; reduce_run_in H
    | exec_env_step H ].

Lemma bind_ext {L A B} (m : M L A) (f g : A -> M L B) (l : L) (w : World) :
  (forall a l1 w1, f a l1 w1 = g a l1 w1) ->
  bind m f l w = bind m g l w.
Proof.
  intros H. unfold bind.
  destruct (m l w) as [[[a|msg]|] t l1 w1]; [rewrite H| |]; reflexivity.
Qed.

Lemma bind_ext_at {L A B} (m : M L A) (f g : A -> M L B) (l : L) (w : World) :
  (forall a t l1 w1, m l w = mkOut (Ok a) t l1 w1 -> f a l1 w1 = g a l1 w1) ->
  bind m f l w = bind m g l w.
Proof.
  intros H. unfold bind.
  destruct (m l w) as [[[a|msg]|] t l1 w1]; [rewrite (H a t l1 w1 eq_refl)| |];
    reflexivity.
Qed.

(* ====================================================================== *)
(** * Computations that settle *)
(* ====================================================================== *)

(** Only the download of [downloadAudio] can stop a computation: the
    combinators keep what settles, and every other call settles. *)
Section Settling.

Variable env : Env.

Lemma settles_at {L A} (m : M L A) (l : L) (w : World) :
  settles m -> res (m l w) <> Stopped.
Proof. intros H. apply H. Qed.

Lemma settles_ret {L A} (a : A) : settles (@ret L A a).
Proof. intros l w. discriminate. Qed.

Lemma settles_throw {L A} (msg : string) : settles (@throw L A msg).
Proof. intros l w. discriminate. Qed.

Lemma settles_bind {L A B} (m : M L A) (f : A -> M L B) :
  settles m -> (forall a, settles (f a)) -> settles (bind m f).
Proof.
  intros Hm Hf l w. unfold bind. specialize (Hm l w).
  destruct (m l w) as [[[a|msg]|] t l1 w1]; cbn [res] in *;
    [|discriminate|contradiction].
  specialize (Hf a l1 w1). destruct (f a l1 w1) as [r t2 l2 w2]. exact Hf.
Qed.

Lemma settles_try_catch {L A} (m : M L A) (h : string -> M L A) :
  settles m -> (forall msg, settles (h msg)) -> settles (try_catch m h).
Proof.
  intros Hm Hh l w. unfold try_catch. specialize (Hm l w).
  destruct (m l w) as [[[a|msg]|] t l1 w1]; cbn [res] in *;
    [discriminate| |contradiction].
  specialize (Hh msg l1 w1). destruct (h msg l1 w1) as [r t2 l2 w2]. exact Hh.
Qed.

Lemma settles_try_finally {L A} (m : M L A) (c : M L unit) :
  settles m -> settles c -> settles (try_finally m c).
Proof.
  intros Hm Hc l w. unfold try_finally. specialize (Hm l w).
  destruct (m l w) as [[r|] t l1 w1]; cbn [res] in *; [|contradiction].
  specialize (Hc l1 w1).
  destruct (c l1 w1) as [[[[]|msg]|] t2 l2 w2]; cbn [res] in *;
    [discriminate|discriminate|contradiction].
Qed.

Lemma settles_call {L L' A} (init : L') (m : M L' A) :
  settles m -> settles (@call L L' A init m).
Proof.
  intros Hm l w. unfold call. specialize (Hm init w).
  destruct (m init w) as [r t l1 w1]. exact Hm.
Qed.

Lemma settles_for_each {L A} (items : list A) (body : A -> M L unit) :
  (forall x, settles (body x)) -> settles (for_each items body).
Proof.
  intros H. induction items as [|x items IH]; cbn [for_each].
  - apply settles_ret.
  - apply settles_bind; [apply H | intros _; exact IH].
Qed.

Lemma settles_act {L} (a : Action) : settles (@act env L a).
Proof. intros l w. unfold act. destruct (env_do env (clock w) a); discriminate. Qed.

Lemma settles_downloadAudio {L} (link : option string) :
  downloads_settle env -> settles (@MessengerrrrJs.downloadAudio env L link).
Proof.
  intros H l w. unfold MessengerrrrJs.downloadAudio. cbn [res].
  specialize (H (clock w) link).
  destruct (env_download env (clock w) link); discriminate.
Qed.

End Settling.

(** That a computation settles, by its structure; [known] deals with the
    functions it calls. *)
Ltac settle_step known :=
  first
    [ solve [known]
    | apply settles_ret
    | apply settles_throw
    | apply settles_act
    | solve [intros ? ?; discriminate]
    | apply settles_for_each; intros ?
    | apply settles_call
    | apply settles_try_catch; [|intros ?]
    | apply settles_try_finally
    | apply settles_bind; [|intros ?]
    | match goal with
      | |- settles (match ?x with _ => _ end) => destruct x
      | |- settles (if ?x then _ else _) => destruct x
      | |- settles (let _ := _ in _) => cbv zeta
      end ].

Create HintDb settle.

Ltac settle := repeat settle_step ltac:(eauto with nocore settle).

(** The outcome of a call of a function that settles. *)
Ltac not_stopped :=
  lazymatch goal with
  | |- res (?m ?l ?w) <> Stopped => apply (settles_at m l w); solve [settle]
  end.

Tactic Notation "destruct_run" constr(x) "as" simple_intropattern(p) :=
  let H := fresh "Hsettles" in
  assert (H : res x <> Stopped) by not_stopped;
  destruct x as p; [ clear H .. | exfalso; apply H; reflexivity ].

Tactic Notation "destruct_run" constr(x) "as" simple_intropattern(p) "eqn" ":" ident(E) :=
  let H := fresh "Hsettles" in
  assert (H : res x <> Stopped) by not_stopped;
  destruct x as p eqn:E; [ clear H .. | exfalso; apply H; reflexivity ].

Section SettlingHelpers.

Variable env : Env.

Lemma humanMove_settles {L} (fx fy tx ty : Q) (steps : nat) :
  settles (@humanMove env L fx fy tx ty steps).
Proof. unfold humanMove. settle. Qed.

Lemma humanClick_settles {L} (t : Target) : settles (@humanClick env L t).
Proof.
  unfold humanClick, receiver.
  destruct t; repeat settle_step ltac:(apply humanMove_settles).
Qed.

Lemma humanType_settles {L} (t : Target) (text : JsVal) (min max : Z) :
  settles (@humanType env L t text min max).
Proof. unfold humanType, receiver. destruct t; settle. Qed.

Lemma humanScroll_settles {L} (distance steps : Z) :
  settles (@humanScroll env L distance steps).
Proof. unfold humanScroll. settle. Qed.

Lemma isLoginRequired_settles {L} : settles (@isLoginRequired env L).
Proof. unfold isLoginRequired. settle. Qed.

Lemma first_match_settles {L} (selectors : list string) :
  settles (@first_match env L selectors).
Proof.
  induction selectors as [|sel rest IH]; cbn [first_match];
    repeat settle_step ltac:(assumption).
Qed.

Lemma tickCheckbox_settles {L} : settles (@tickCheckbox env L).
Proof. unfold tickCheckbox. settle. Qed.

Lemma manualWait_settles {L} (fuel : nat) (start maxWait : Z) :
  settles (@manualWait env L fuel start maxWait).
Proof.
  induction fuel as [|fuel IH]; cbn [manualWait];
    repeat settle_step ltac:(assumption).
Qed.

End SettlingHelpers.

#[export] Hint Resolve humanMove_settles humanClick_settles humanType_settles
  humanScroll_settles isLoginRequired_settles first_match_settles
  tickCheckbox_settles manualWait_settles : settle.

Lemma random_unit_range (k : N) : (0 <= random_unit k)%Q /\ (random_unit k < 1)%Q.
Proof.
  unfold random_unit, Qle, Qlt; simpl.
  pose proof (Z.mod_pos_bound (Z.of_N k) (2 ^ 53) ltac:(lia)) as H.
  change (Z.pos (2 ^ 53)) with (2 ^ 53).
  lia.
Qed.

Lemma rand_value_range (k : N) (min max : Z) :
  min <= max -> min <= rand_value k min max <= max.
Proof.
  intros Hle. unfold rand_value.
  destruct (random_unit_range k) as [H0 H1].
  set (n := max - min + 1).
  assert (Hn : (0 < inject_Z n)%Q).
  { unfold Qlt; simpl. subst n. lia. }
  assert (Hlo : (inject_Z 0 <= random_unit k * inject_Z n)%Q).
  { change (inject_Z 0) with 0%Q. apply Qmult_le_0_compat; [assumption|].
    apply Qlt_le_weak; assumption. }
  assert (Hhi : (random_unit k * inject_Z n < inject_Z n)%Q).
  { rewrite <- (Qmult_1_l (inject_Z n)) at 2.
    apply Qmult_lt_compat_r; assumption. }
  apply Qfloor_resp_le in Hlo. rewrite Qfloor_Z in Hlo.
  assert (Hf : Qfloor (random_unit k * inject_Z n) < n).
  { apply Z.lt_nge. intros Hge.
    apply (Qlt_irrefl (inject_Z n)).
    eapply Qle_lt_trans; [|exact Hhi].
    eapply Qle_trans; [|apply Qfloor_le].
    rewrite <- Zle_Qle. exact Hge. }
  subst n. lia.
Qed.

(* ====================================================================== *)
(** * The behaviour simulator *)
(* ====================================================================== *)

(** C9, as the script has it.  On an element without a bounding box
    [humanClick] asks for the box and does nothing else: no pointer move and
    no click reach the page, and the call completes normally, so that its
    caller sees the same result as after a click. *)
Theorem humanClick_without_box_is_silent :
  forall (env : Env) (L : Type) (element : ElementHandle) (l : L) (w : World),
    env_box env (clock w) element = Ok None ->
    let o := humanClick env (THandle element) l w in
    res o = Ok tt
    /\ trace o = [EBox element (Ok None)]
    /\ existsb is_input_action (trace o) = false
    /\ locals o = l.
Proof.
  intros env L element l w Hbox.
  unfold humanClick, receiver, boundingBox, bind, ret; cbn.
  rewrite Hbox; cbn. repeat split.
Qed.

Lemma humanClick_without_box_is_silent_witness :
  let o := humanClick invisible (THandle 7%nat) tt fresh_world in
  res o = Ok tt
  /\ trace o = [EBox 7%nat (Ok None)]
  /\ existsb is_input_action (trace o) = false
  /\ locals o = tt.
Proof.
  apply (humanClick_without_box_is_silent invisible unit 7%nat tt fresh_world).
  reflexivity.
Defined.

(** C9, as the specification has it, fails: on an element without a
    bounding box the call does not throw, and its result [Ok tt] is the one
    of a successful click; nothing is reported to the caller. *)
Lemma humanClick_reports_nothing :
  env_box invisible (clock fresh_world) 7%nat = Ok None
  /\ res (humanClick invisible (THandle 7%nat) tt fresh_world) = Ok tt
  /\ res (humanClick cooperative (THandle 7%nat) tt fresh_world) = Ok tt.
Proof. vm_compute. repeat split. Qed.

(* ====================================================================== *)
(** * The navigation controller *)
(* ====================================================================== *)

Section Navigation.

Variable env : Env.
Variable L : Type.
Variable target : string.

(** One turn of the retry loop, without its recursive call. *)
Lemma navigate_eq (fuel : nat) (success : bool) (attempt : Z) :
  @navigate env L fuel target success attempt
  = if negb success && (attempt <? maxAttempts) then
      match fuel with
      | O => ret tt
      | S fuel' =>
          success' <-
            try_catch
              (act env (AGoto target "domcontentloaded" 45000) ;;
               d <- rand env 3000 6000 ;;
               delay d ;;
               pageLoaded <- test env PPageLoaded ;;
               if pageLoaded then ret true
               else throw "Page did not load properly")
              (fun navError =>
                 if attempt + 1 =? maxAttempts then
                   throw ("Failed to load profile after " ++ string_of_Z maxAttempts
                          ++ " attempts: " ++ navError)
                 else
                   d <- rand env 2000 4000 ;;
                   delay d ;;
                   ret false) ;;
          navigate env fuel' target success' (attempt + 1)
      end
    else ret tt.
Proof. destruct fuel; reflexivity. Qed.

Lemma navigate_done (fuel : nat) (attempt : Z) (l : L) (w : World) :
  navigate env fuel target true attempt l w = mkOut (Ok tt) [] l w.
Proof. rewrite navigate_eq. reflexivity. Qed.

Lemma navigate_exhausted (fuel : nat) (attempt : Z) (l : L) (w : World) :
  maxAttempts <= attempt ->
  navigate env fuel target false attempt l w = mkOut (Ok tt) [] l w.
Proof.
  intros H. rewrite navigate_eq. cbn [negb andb].
  replace (attempt <? maxAttempts) with false
    by (symmetry; apply Z.ltb_ge; exact H).
  reflexivity.
Qed.

(** One more unit of fuel than the attempts left changes nothing: the loop
    stops on its own condition, never on its fuel. *)
Lemma navigate_fuel (fuel : nat) :
  forall (success : bool) (attempt : Z) (l : L) (w : World),
    maxAttempts - attempt <= Z.of_nat fuel ->
    navigate env (S fuel) target success attempt l w
    = navigate env fuel target success attempt l w.
Proof.
  induction fuel as [|fuel IH]; intros success attempt l w Hfuel.
  - destruct success; [rewrite !navigate_done; reflexivity|].
    rewrite !navigate_exhausted by lia. reflexivity.
  - destruct success; [rewrite !navigate_done; reflexivity|].
    rewrite (navigate_eq (S (S fuel))), (navigate_eq (S fuel)).
    cbn [negb andb].
    destruct (attempt <? maxAttempts) eqn:Hlt; [|reflexivity].
    apply bind_ext. intros ok l1 w1. apply IH. lia.
Qed.

Arguments rand_value : simpl never.

Lemma backoff_in_range (k : N) :
  is_backoff_pause (EDelay (rand_value k 2000 4000)) = true.
Proof.
  pose proof (rand_value_range k 2000 4000 ltac:(lia)) as H.
  cbn. apply andb_true_iff. split; apply Z.leb_le; lia.
Qed.

Lemma failure_message (m : string) :
  "Failed to load profile after " ++ string_of_Z maxAttempts ++ " attempts: " ++ m
  = "Failed to load profile after 3 attempts: " ++ m.
Proof. reflexivity. Qed.

Lemma last_failure_cons (e : Event) (tr : list Event) :
  attempt_failures tr <> [] -> last_failure (e :: tr) = last_failure tr.
Proof.
  unfold last_failure. cbn [attempt_failures].
  destruct (attempt_failure e); [|reflexivity].
  destruct (attempt_failures tr) as [|x xs]; [congruence|reflexivity].
Qed.

Lemma last_failure_skip (e : Event) (tr : list Event) :
  attempt_failure e = None -> last_failure (e :: tr) = last_failure tr.
Proof.
  unfold last_failure. cbn [attempt_failures]. intros ->. reflexivity.
Qed.

Lemma spaced_cons_pause (e : Event) (tr : list Event) :
  is_backoff_pause e = true -> loads_are_spaced tr = true ->
  loads_are_spaced (e :: tr) = true.
Proof.
  intros He Htr. cbn [loads_are_spaced]. rewrite He, Htr.
  destruct tr as [|next tr]; [reflexivity|]. destruct (is_page_load next); reflexivity.
Qed.

Lemma spaced_cons_skip (e next : Event) (tr : list Event) :
  is_page_load next = false -> loads_are_spaced (next :: tr) = true ->
  loads_are_spaced (e :: next :: tr) = true.
Proof.
  intros Hnext Htr. change (loads_are_spaced (e :: next :: tr))
    with ((if is_page_load next then is_backoff_pause e else true)
          && loads_are_spaced (next :: tr)).
  rewrite Hnext, Htr. reflexivity.
Qed.

(** The invariant of the retry loop, with [fuel] attempts left. *)
Lemma navigate_invariant (fuel : nat) :
  forall (attempt : Z) (l : L) (w : World),
    attempt = maxAttempts - Z.of_nat fuel ->
    let o := navigate env fuel target false attempt l w in
    (count_page_loads (trace o) <= fuel)%nat
    /\ loads_are_spaced (trace o) = true
    /\ match trace o with [] => True | e :: _ => is_page_load e = true end
    /\ (List.length (attempt_failures (trace o)) <= fuel)%nat
    /\ (forall msg, res o = Throw msg ->
          List.length (attempt_failures (trace o)) = fuel /\ (0 < fuel)%nat)
    /\ ((0 < fuel)%nat -> List.length (attempt_failures (trace o)) = fuel ->
        exists m, last_failure (trace o) = Some m
                  /\ res o = Throw ("Failed to load profile after 3 attempts: " ++ m)).
Proof.
  induction fuel as [|fuel IH]; intros attempt l w Hattempt.
  - rewrite navigate_exhausted by lia. cbn.
    repeat split; try lia; try discriminate.
  - intros o.
    assert (Ho : o = navigate env (S fuel) target false attempt l w) by reflexivity.
    clearbody o. rewrite navigate_eq in Ho. cbn [negb andb] in Ho.
    replace (attempt <? maxAttempts) with true in Ho
      by (symmetry; apply Z.ltb_lt; lia).
    unfold_run_in Ho.
    repeat exec_env_step Ho.
    all: try match type of Ho with
         | context [navigate env ?f target true ?a ?l0 ?w0] =>
             rewrite (navigate_done f a l0 w0) in Ho; reduce_run_in Ho
         end.
    all: try match type of Ho with
         | context [navigate env ?f target false ?a ?l0 ?w0] =>
             specialize (IH a l0 w0 ltac:(lia));
             match goal with
             | H : (_ =? _) = false |- _ => apply Z.eqb_neq in H
             end;
             destruct (navigate env f target false a l0 w0) as [r t2 l2 w2];
             cbn [trace res] in IH;
             destruct IH as (IHcount & IHspaced & IHhead & IHlen & IHthrow & IHlast)
         end.
    all: subst o; cbn [trace res].
    all: match goal with
         | H : (_ =? _) = true |- _ => apply Z.eqb_eq in H
         | _ => idtac
         end.
    all: unfold count_page_loads in *.
    all: repeat match goal with |- _ /\ _ => split end.
    all: try (cbn [filter is_page_load attempt_failures attempt_failure List.length];
              lia).
    all: try (cbn; discriminate).
    all: try reflexivity.
    all: try (intros _ _; eexists; split; reflexivity).
    all: try (repeat (apply spaced_cons_skip; [reflexivity|]);
              apply spaced_cons_pause; [apply backoff_in_range | exact IHspaced]).
    all: try (intros msg' Hr; destruct (IHthrow msg' Hr);
              cbn [attempt_failures attempt_failure List.length]; split; lia).
    all: try (cbn [attempt_failures attempt_failure List.length];
              intros _ Hlen; destruct IHlast as (m & Hm & Hr); [lia | lia |];
              exists m; split; [|exact Hr];
              assert (Hne : attempt_failures t2 <> [])
                by (destruct (attempt_failures t2); [cbn in Hlen; lia | discriminate]);
              repeat first [ rewrite last_failure_skip by reflexivity
                           | rewrite last_failure_cons
                               by (cbn [attempt_failures attempt_failure]; exact Hne) ];
              exact Hm).
Qed.

Lemma navigate_settles (fuel : nat) :
  forall success attempt, settles (@navigate env L fuel target success attempt).
Proof.
  induction fuel as [|fuel IH]; intros success attempt; rewrite navigate_eq;
    repeat settle_step ltac:(apply IH).
Qed.

End Navigation.

#[export] Hint Resolve navigate_settles : settle.

(** The functions of [messenger.js] settle: it downloads nothing. *)
Section SettlingMessengerJs.

Variable env : Env.

Lemma loadCookies_settles {L} (email : string) :
  settles (@MessengerJs.loadCookies env L email).
Proof. unfold MessengerJs.loadCookies. settle. Qed.

Lemma saveCookies_settles {L} (email : string) :
  settles (@MessengerJs.saveCookies env L email).
Proof. unfold MessengerJs.saveCookies. settle. Qed.

Lemma solveRecaptchaAudio_settles {L} : settles (@MessengerJs.solveRecaptchaAudio env L).
Proof. unfold MessengerJs.solveRecaptchaAudio. settle. Qed.

Lemma solveCaptcha_settles {L} (headless : JsVal) :
  settles (@MessengerJs.solveCaptcha env L headless).
Proof.
  unfold MessengerJs.solveCaptcha.
  repeat settle_step ltac:(first [ apply solveRecaptchaAudio_settles
                                 | eauto with nocore settle ]).
Qed.

Lemma performFacebookLogin_settles {L} (email password : string) :
  settles (@MessengerJs.performFacebookLogin env L email password).
Proof.
  unfold MessengerJs.performFacebookLogin.
  repeat settle_step ltac:(first [ apply solveCaptcha_settles
                                 | eauto with nocore settle ]).
Qed.

Lemma reach_profile_settles {L} (profile : Profile) (email : string) (headless : JsVal) :
  settles (@MessengerJs.reach_profile env L profile email headless).
Proof.
  unfold MessengerJs.reach_profile.
  repeat settle_step ltac:(first [ apply loadCookies_settles | apply saveCookies_settles
                                 | apply performFacebookLogin_settles
                                 | eauto with nocore settle ]).
Qed.

Lemma deliver_message_settles (message : string) :
  settles (MessengerJs.deliver_message env message).
Proof. unfold MessengerJs.deliver_message. settle. Qed.

Lemma success_record_settles (start : Z) (profile : Profile) (message : string) :
  settles (MessengerJs.success_record start profile message).
Proof. unfold MessengerJs.success_record. settle. Qed.

Lemma failure_record_settles (start : Z) (profile : Profile) (err : string) :
  settles (MessengerJs.failure_record start profile err).
Proof. unfold MessengerJs.failure_record. settle. Qed.

Lemma sendMessageToProfile_settles {L} (profile : Profile) (message email : string)
      (headless : JsVal) :
  settles (@MessengerJs.sendMessageToProfile env L profile message email headless).
Proof.
  unfold MessengerJs.sendMessageToProfile.
  repeat settle_step ltac:(first [ apply reach_profile_settles
                                 | apply deliver_message_settles
                                 | apply success_record_settles
                                 | apply failure_record_settles
                                 | eauto with nocore settle ]).
Qed.

Lemma profile_turn_settles (message email : string) (headless : JsVal) (i : nat)
      (profile : Profile) :
  settles (MessengerJs.profile_turn env message email headless i profile).
Proof.
  unfold MessengerJs.profile_turn.
  repeat settle_step ltac:(first [ apply sendMessageToProfile_settles
                                 | eauto with nocore settle ]).
Qed.

Lemma profile_loop_settles (message email : string) (headless : JsVal)
      (profiles : list Profile) :
  forall i, settles (MessengerJs.profile_loop env message email headless i profiles).
Proof.
  induction profiles as [|profile rest IH]; intros i; cbn [MessengerJs.profile_loop];
    repeat settle_step ltac:(first [ apply profile_turn_settles | apply IH ]).
Qed.

Lemma establish_session_settles {L} (email : string) :
  settles (@MessengerJs.establish_session env L email).
Proof.
  unfold MessengerJs.establish_session.
  repeat settle_step ltac:(first [ apply loadCookies_settles
                                 | eauto with nocore settle ]).
Qed.

Lemma main_settles (raw : JsVal) : settles (MessengerJs.main env raw).
Proof.
  unfold MessengerJs.main.
  repeat settle_step ltac:(first [ apply establish_session_settles
                                 | apply profile_loop_settles
                                 | eauto with nocore settle ]).
Qed.

End SettlingMessengerJs.

#[export] Hint Resolve loadCookies_settles saveCookies_settles
  solveRecaptchaAudio_settles solveCaptcha_settles performFacebookLogin_settles
  reach_profile_settles deliver_message_settles success_record_settles
  failure_record_settles sendMessageToProfile_settles
  profile_turn_settles profile_loop_settles establish_session_settles
  main_settles : settle.

(** The functions of [messengerrrr.js] settle when the downloads do. *)
Section SettlingMessengerrrrJs.

Variable env : Env.

Lemma loadCookies_settles' {L} (email : option string) :
  settles (@MessengerrrrJs.loadCookies env L email).
Proof.
  unfold MessengerrrrJs.loadCookies, MessengerrrrJs.cookieFilePathFor. settle.
Qed.

Lemma saveCookies_settles' {L} (email : option string) :
  settles (@MessengerrrrJs.saveCookies env L email).
Proof.
  unfold MessengerrrrJs.saveCookies, MessengerrrrJs.cookieFilePathFor. settle.
Qed.

Lemma deliver_message_settles' (message : JsVal) :
  settles (MessengerrrrJs.deliver_message env message).
Proof. unfold MessengerrrrJs.deliver_message. settle. Qed.

Lemma success_record_settles' (start : Z) (profile : Profile) (message : JsVal) :
  settles (MessengerrrrJs.success_record start profile message).
Proof.
  unfold MessengerrrrJs.success_record, MessengerrrrJs.preview_of. settle.
Qed.

Lemma failure_record_settles' (start : Z) (profile : Profile) (err : string) :
  settles (MessengerrrrJs.failure_record start profile err).
Proof. unfold MessengerrrrJs.failure_record. settle. Qed.

Lemma establish_session_settles' {L} (email : option string) :
  settles (@MessengerrrrJs.establish_session env L email).
Proof.
  unfold MessengerrrrJs.establish_session.
  repeat settle_step ltac:(first [ apply loadCookies_settles'
                                 | eauto with nocore settle ]).
Qed.

Hypothesis downloads : downloads_settle env.

Lemma processAudioChallenge_settles {L} (link : option string) :
  settles (@MessengerrrrJs.processAudioChallenge env L link).
Proof.
  unfold MessengerrrrJs.processAudioChallenge.
  repeat settle_step ltac:(first [ apply settles_downloadAudio; exact downloads
                                 | eauto with nocore settle ]).
Qed.

Lemma solveRecaptchaAudio_settles' {L} :
  settles (@MessengerrrrJs.solveRecaptchaAudio env L).
Proof.
  unfold MessengerrrrJs.solveRecaptchaAudio.
  repeat settle_step ltac:(first [ apply processAudioChallenge_settles
                                 | eauto with nocore settle ]).
Qed.

Lemma solveCaptcha_settles' {L} : settles (@MessengerrrrJs.solveCaptcha env L).
Proof.
  unfold MessengerrrrJs.solveCaptcha.
  repeat settle_step ltac:(first [ apply solveRecaptchaAudio_settles'
                                 | eauto with nocore settle ]).
Qed.

Lemma performFacebookLogin_settles' {L} (email password : option string) :
  settles (@MessengerrrrJs.performFacebookLogin env L email password).
Proof.
  unfold MessengerrrrJs.performFacebookLogin.
  repeat settle_step ltac:(first [ apply solveCaptcha_settles'
                                 | eauto with nocore settle ]).
Qed.

Lemma reach_profile_settles' {L} (profile : Profile) :
  settles (@MessengerrrrJs.reach_profile env L profile).
Proof.
  unfold MessengerrrrJs.reach_profile.
  repeat settle_step ltac:(first [ apply loadCookies_settles' | apply saveCookies_settles'
                                 | apply performFacebookLogin_settles'
                                 | eauto with nocore settle ]).
Qed.

Lemma sendMessageToProfile_settles' {L} (profile : Profile) (message : JsVal) :
  settles (@MessengerrrrJs.sendMessageToProfile env L profile message).
Proof.
  unfold MessengerrrrJs.sendMessageToProfile.
  repeat settle_step ltac:(first [ apply reach_profile_settles'
                                 | apply deliver_message_settles'
                                 | apply success_record_settles'
                                 | apply failure_record_settles'
                                 | eauto with nocore settle ]).
Qed.

Lemma profile_turn_settles' (message : JsVal) (i : nat) (profile : Profile) :
  settles (MessengerrrrJs.profile_turn env message i profile).
Proof.
  unfold MessengerrrrJs.profile_turn, MessengerrrrJs.logResult.
  repeat settle_step ltac:(first [ apply sendMessageToProfile_settles'
                                 | eauto with nocore settle ]).
Qed.

Lemma profile_loop_settles' (message : JsVal) (profiles : list Profile) :
  forall i, settles (MessengerrrrJs.profile_loop env message i profiles).
Proof.
  induction profiles as [|profile rest IH]; intros i;
    cbn [MessengerrrrJs.profile_loop];
    repeat settle_step ltac:(first [ apply profile_turn_settles' | apply IH ]).
Qed.

Lemma processAll_settles (profiles : list Profile) (message : JsVal) :
  settles (MessengerrrrJs.processAll env profiles message).
Proof.
  unfold MessengerrrrJs.processAll, MessengerrrrJs.launchBrowser.
  repeat settle_step ltac:(first [ apply establish_session_settles'
                                 | apply profile_loop_settles'
                                 | eauto with nocore settle ]).
Qed.

Lemma runMessenger_settles (input : JsVal) :
  settles (MessengerrrrJs.runMessenger env input).
Proof.
  unfold MessengerrrrJs.runMessenger.
  repeat settle_step ltac:(first [ apply processAll_settles
                                 | eauto with nocore settle ]).
Qed.

Lemma entry_settles (input : JsVal) : settles (MainJs.main env input).
Proof.
  unfold MainJs.main.
  repeat settle_step ltac:(first [ apply runMessenger_settles
                                 | eauto with nocore settle ]).
Qed.

End SettlingMessengerrrrJs.

#[export] Hint Resolve loadCookies_settles' saveCookies_settles'
  deliver_message_settles' success_record_settles' failure_record_settles'
  establish_session_settles'
  processAudioChallenge_settles solveRecaptchaAudio_settles' solveCaptcha_settles'
  performFacebookLogin_settles' reach_profile_settles' sendMessageToProfile_settles'
  profile_turn_settles' profile_loop_settles' processAll_settles runMessenger_settles
  entry_settles : settle.

(** C3.  The retry loop of [sendMessageToProfile] loads the page at most
    three times; every load but the first comes right after a pause of 2000
    to 4000 ms; and either the loop ends normally after fewer than three
    failed attempts, or three attempts failed and the loop throws "Failed to
    load profile after 3 attempts: " followed by the message of the last
    failure. *)
Theorem navigate_retry_bound :
  forall (env : Env) (L : Type) (target : string) (l : L) (w : World),
    let o := navigate env (Z.to_nat maxAttempts) target false 0 l w in
    (count_page_loads (trace o) <= 3)%nat
    /\ loads_are_spaced (trace o) = true
    /\ ((res o = Ok tt /\ (List.length (attempt_failures (trace o)) < 3)%nat)
        \/ (exists m,
              last_failure (trace o) = Some m
              /\ List.length (attempt_failures (trace o)) = 3%nat
              /\ res o = Throw ("Failed to load profile after 3 attempts: " ++ m))).
Proof.
  intros env L target l w o.
  destruct (navigate_invariant env L target 3 0 l w eq_refl)
    as (Hcount & Hspaced & _ & Hlen & Hthrow & Hlast).
  change (navigate env 3 target false 0 l w) with o in *.
  repeat split; [exact Hcount | exact Hspaced |].
  destruct (Nat.eq_dec (List.length (attempt_failures (trace o))) 3) as [Heq|Hne].
  - right. destruct (Hlast ltac:(lia) Heq) as (m & Hm & Hres).
    exists m. auto.
  - left. split; [|lia].
    destruct (res o) as [[[]|msg]|] eqn:Hres; [reflexivity| |].
    + destruct (Hthrow msg eq_refl). contradiction.
    + exfalso. revert Hres. apply navigate_settles.
Qed.

(** Three timeouts in a row: three loads, two pauses, and the error carries
    the message of the third timeout. *)
Example navigate_exhausted_run :
  let o := navigate hostile (Z.to_nat maxAttempts) "u1" false 0 tt fresh_world in
  res o = Throw "Failed to load profile after 3 attempts: net::ERR_TIMED_OUT"
  /\ count_page_loads (trace o) = 3%nat
  /\ List.length (filter is_backoff_pause (trace o)) = 2%nat.
Proof. vm_compute. repeat split. Qed.

(* ====================================================================== *)
(** * Confinement of calls *)
(* ====================================================================== *)

Section Confinement.

Variable env : Env.
Variable pre : ProcessEnv -> Prop.
Variable p : Event -> bool.

Lemma confined_ret {L A} (a : A) : confined pre p (@ret L A a).
Proof. intros l w _. split; reflexivity. Qed.

Lemma confined_throw {L A} (msg : string) : confined pre p (@throw L A msg).
Proof. intros l w _. split; reflexivity. Qed.

Lemma confined_bind {L A B} (m : M L A) (f : A -> M L B) :
  confined pre p m -> (forall a, confined pre p (f a)) -> confined pre p (bind m f).
Proof.
  intros Hm Hf l w Hpre. unfold bind.
  destruct (Hm l w Hpre) as [Ht Hp].
  destruct (m l w) as [[[a|msg]|] t l1 w1]; cbn [trace world] in *; [|auto|auto].
  assert (Hpre1 : pre (penv w1)) by (rewrite Hp; exact Hpre).
  destruct (Hf a l1 w1 Hpre1) as [Ht2 Hp2].
  destruct (f a l1 w1) as [r t2 l2 w2]; cbn [trace world] in *.
  rewrite forallb_app, Ht, Ht2. split; [reflexivity|congruence].
Qed.

(** A computation that always throws cuts off what follows it. *)
Lemma confined_bind_dead {L A B} (m : M L A) (f : A -> M L B) :
  confined pre p m -> never_returns m -> confined pre p (bind m f).
Proof.
  intros Hm Hdead l w Hpre. unfold bind.
  destruct (Hm l w Hpre) as [Ht Hp]. destruct (Hdead l w) as [msg Hmsg].
  destruct (m l w) as [[[a|msg']|] t l1 w1]; cbn [trace world res] in *;
    [discriminate|auto|auto].
Qed.

(** What follows a read of [process.env] runs on a [process.env] that
    satisfies [pre]. *)
Lemma confined_read_env {L B} (f : ProcessEnv -> M L B) :
  (forall pe, pre pe -> confined pre p (f pe)) ->
  confined pre p (bind process_env f).
Proof.
  intros Hf l w Hpre. unfold bind, process_env.
  destruct (Hf (penv w) Hpre l w Hpre) as [Ht Hp].
  destruct (f (penv w) l w) as [r t2 l2 w2]; cbn [trace world] in *.
  cbn [app]. auto.
Qed.

Lemma confined_try_catch {L A} (m : M L A) (h : string -> M L A) :
  confined pre p m -> (forall msg, confined pre p (h msg)) ->
  confined pre p (try_catch m h).
Proof.
  intros Hm Hh l w Hpre. unfold try_catch.
  destruct (Hm l w Hpre) as [Ht Hp].
  destruct (m l w) as [[[a|msg]|] t l1 w1]; cbn [trace world] in *; [auto| |auto].
  assert (Hpre1 : pre (penv w1)) by (rewrite Hp; exact Hpre).
  destruct (Hh msg l1 w1 Hpre1) as [Ht2 Hp2].
  destruct (h msg l1 w1) as [r t2 l2 w2]; cbn [trace world] in *.
  rewrite forallb_app, Ht, Ht2. split; [reflexivity|congruence].
Qed.

Lemma confined_try_finally {L A} (m : M L A) (c : M L unit) :
  confined pre p m -> confined pre p c -> confined pre p (try_finally m c).
Proof.
  intros Hm Hc l w Hpre. unfold try_finally.
  destruct (Hm l w Hpre) as [Ht Hp].
  destruct (m l w) as [[r|] t l1 w1]; cbn [trace world] in *; [|auto].
  assert (Hpre1 : pre (penv w1)) by (rewrite Hp; exact Hpre).
  destruct (Hc l1 w1 Hpre1) as [Ht2 Hp2].
  destruct (c l1 w1) as [[[[]|msg]|] t2 l2 w2]; cbn [trace world] in *;
    rewrite forallb_app, Ht, Ht2; (split; [reflexivity|congruence]).
Qed.

Lemma confined_call {L L' A} (init : L') (m : M L' A) :
  confined pre p m -> confined pre p (@call L L' A init m).
Proof.
  intros Hm l w Hpre. unfold call.
  destruct (Hm init w Hpre) as [Ht Hp].
  destruct (m init w) as [r t l1 w1]; cbn [trace world] in *. auto.
Qed.

Lemma confined_get_locals {L} : confined pre p (@get_locals L).
Proof. intros l w _. split; reflexivity. Qed.

Lemma confined_set_messageButtonPresent v : confined pre p (set_messageButtonPresent v).
Proof. intros l w _. split; reflexivity. Qed.

Lemma confined_set_messageSent v : confined pre p (set_messageSent v).
Proof. intros l w _. split; reflexivity. Qed.

Lemma confined_set_messageButton v : confined pre p (set_messageButton v).
Proof. intros l w _. split; reflexivity. Qed.

Lemma confined_push_result r : confined pre p (push_result r).
Proof. intros l w _. split; reflexivity. Qed.

Lemma confined_Date_now {L} : confined pre p (@Date_now L).
Proof. intros l w _. split; reflexivity. Qed.

Lemma confined_process_env {L} : confined pre p (@process_env L).
Proof. intros l w _. split; reflexivity. Qed.

Lemma confined_Math_random {L} : confined pre p (@Math_random env L).
Proof. intros l w _. split; reflexivity. Qed.

Lemma confined_rand {L} (min max : Z) : confined pre p (@rand env L min max).
Proof. intros l w _. split; reflexivity. Qed.

Lemma confined_delay {L} (ms : Z) :
  p (EDelay ms) = true -> confined pre p (@delay L ms).
Proof. intros H l w _. cbn. rewrite H. split; reflexivity. Qed.

Lemma confined_act {L} (a : Action) :
  (forall r, p (EDo a r) = true) -> confined pre p (@act env L a).
Proof.
  intros H l w _. unfold act.
  destruct (env_do env (clock w) a); cbn; rewrite H; split; reflexivity.
Qed.

Lemma confined_test {L} (q : Probe) :
  (forall r, p (ETest q r) = true) -> confined pre p (@test env L q).
Proof. intros H l w _. cbn. rewrite H. split; reflexivity. Qed.

Lemma confined_query {L} (f : option Frame) (sel : string) :
  (forall r, p (EQuery f sel r) = true) -> confined pre p (@query env L f sel).
Proof. intros H l w _. cbn. rewrite H. split; reflexivity. Qed.

Lemma confined_boundingBox {L} (e : ElementHandle) :
  (forall r, p (EBox e r) = true) -> confined pre p (@boundingBox env L e).
Proof. intros H l w _. cbn. rewrite H. split; reflexivity. Qed.

Lemma confined_page_frames {L} :
  (forall fs, p (EFrames fs) = true) -> confined pre p (@page_frames env L).
Proof. intros H l w _. cbn. rewrite H. split; reflexivity. Qed.

Lemma confined_page_url {L} :
  (forall u, p (EUrl u) = true) -> confined pre p (@page_url env L).
Proof. intros H l w _. cbn. rewrite H. split; reflexivity. Qed.

Lemma confined_text_of {L} (q : TextProbe) :
  (forall r, p (EText q r) = true) -> confined pre p (@text_of env L q).
Proof. intros H l w _. cbn. rewrite H. split; reflexivity. Qed.

Lemma confined_page_cookies {L} :
  (forall r, p (ECookies r) = true) -> confined pre p (@page_cookies env L).
Proof. intros H l w _. cbn. rewrite H. split; reflexivity. Qed.

Lemma confined_stored {L} (key : string) :
  (forall r, p (EStored key r) = true) -> confined pre p (@stored env L key).
Proof. intros H l w _. cbn. rewrite H. split; reflexivity. Qed.

Lemma confined_downloadAudio {L} (link : option string) :
  (forall d, p (EDownload link d) = true) ->
  confined pre p (@MessengerrrrJs.downloadAudio env L link).
Proof. intros H l w _. cbn. rewrite H. split; reflexivity. Qed.

Lemma confined_for_each {L A} (items : list A) (body : A -> M L unit) :
  (forall x, confined pre p (body x)) -> confined pre p (for_each items body).
Proof.
  intros H. induction items as [|x items IH]; cbn [for_each].
  - apply confined_ret.
  - apply confined_bind; [apply H | intros _; exact IH].
Qed.

End Confinement.

(** Confinement by the structure of the computation; [side] proves that [p]
    holds of a call whatever the environment answers, [known] proves the
    confinement of the functions already dealt with. *)
Ltac confine_step side known :=
  first
    [ solve [known]
    | apply confined_ret
    | apply confined_throw
    | apply confined_get_locals
    | apply confined_set_messageButtonPresent
    | apply confined_set_messageSent
    | apply confined_set_messageButton
    | apply confined_push_result
    | apply confined_Date_now
    | apply confined_process_env
    | apply confined_Math_random
    | apply confined_rand
    | apply confined_delay; solve [side]
    | apply confined_act; solve [side]
    | apply confined_test; solve [side]
    | apply confined_query; solve [side]
    | apply confined_boundingBox; solve [side]
    | apply confined_page_frames; solve [side]
    | apply confined_page_url; solve [side]
    | apply confined_text_of; solve [side]
    | apply confined_page_cookies; solve [side]
    | apply confined_stored; solve [side]
    | apply confined_downloadAudio; solve [side]
    | apply confined_for_each; intros ?
    | apply confined_call
    | apply confined_try_catch; [|intros ?]
    | apply confined_try_finally
    | apply confined_bind; [|intros ?]
    | match goal with
      | |- confined _ _ (match ?x with _ => _ end) => destruct x
      | |- confined _ _ (if ?x then _ else _) => destruct x
      | |- confined _ _ (let _ := _ in _) => cbv zeta
      end ].

Ltac confine side known := repeat confine_step side known.

(* ====================================================================== *)
(** * Routine calls *)
(* ====================================================================== *)

Create HintDb routine.

(** The functions below make routine calls only.  [p] is any property of
    calls that all routine calls have. *)
Section Routine.

Variable env : Env.
Variable pre : ProcessEnv -> Prop.
Variable p : Event -> bool.
Hypothesis routine_allowed : forall e, routine e = true -> p e = true.

Ltac routine_side := intros; apply routine_allowed; reflexivity.
Ltac routine_known := eauto with nocore routine.
Ltac routine_confined := confine routine_side routine_known.

Lemma humanClick_routine {L} (t : Target) : confined pre p (@humanClick env L t).
Proof. unfold humanClick, humanMove, receiver. destruct t; routine_confined. Qed.

Lemma humanType_routine {L} (t : Target) (text : JsVal) (min max : Z) :
  confined pre p (@humanType env L t text min max).
Proof. unfold humanType, receiver. destruct t; routine_confined. Qed.

Lemma humanScroll_routine {L} (distance steps : Z) :
  confined pre p (@humanScroll env L distance steps).
Proof. unfold humanScroll. routine_confined. Qed.

Lemma isLoginRequired_routine {L} : confined pre p (@isLoginRequired env L).
Proof. unfold isLoginRequired. routine_confined. Qed.

Lemma first_match_routine {L} (selectors : list string) :
  confined pre p (@first_match env L selectors).
Proof.
  induction selectors as [|sel rest IH]; cbn [first_match]; routine_confined.
Qed.

Lemma navigate_routine {L} (fuel : nat) (target : string) :
  forall success attempt, confined pre p (@navigate env L fuel target success attempt).
Proof.
  induction fuel as [|fuel IH]; intros success attempt; rewrite navigate_eq;
    routine_confined.
Qed.

Lemma tickCheckbox_routine {L} : confined pre p (@tickCheckbox env L).
Proof. unfold tickCheckbox. routine_confined. Qed.

#[local] Hint Resolve humanClick_routine humanType_routine humanScroll_routine
  isLoginRequired_routine first_match_routine navigate_routine
  tickCheckbox_routine : routine.

(* ------------------------------ messenger.js ----------------------------- *)

Lemma loadCookies_routine {L} (email : string) :
  confined pre p (@MessengerJs.loadCookies env L email).
Proof. unfold MessengerJs.loadCookies. routine_confined. Qed.

Lemma saveCookies_routine {L} (email : string) :
  confined pre p (@MessengerJs.saveCookies env L email).
Proof. unfold MessengerJs.saveCookies. routine_confined. Qed.

Lemma MessengerJs_solveRecaptchaAudio_routine {L} :
  confined pre p (@MessengerJs.solveRecaptchaAudio env L).
Proof. unfold MessengerJs.solveRecaptchaAudio. routine_confined. Qed.

(** [humanType] on a selector throws before it does anything. *)
Lemma humanType_selector_throws {L} (sel : string) (text : JsVal) (min max : Z)
      (l : L) (w : World) :
  humanType env (TSelector sel) text min max l w
  = mkOut (Throw "elementHandle.click is not a function") [] l w.
Proof. reflexivity. Qed.

(** The "Fill password" step of [performFacebookLogin] in [messenger.js]. *)
Lemma fill_password_never_returns {L} (passwordField : option ElementHandle)
      (password : string) :
  never_returns
    (match passwordField with
     | Some passwordField =>
         @humanClick env L (THandle passwordField) ;;
         d <- rand env 300 600 ;;
         delay d ;;
         humanType env (TSelector passwordSelector) (JStr password) 80 180 ;;
         d <- rand env 500 1000 ;;
         delay d
     | None => throw "Password field not found"
     end).
Proof.
  intros l w. destruct passwordField as [field|]; [|eexists; reflexivity].
  unfold bind at 1.
  destruct_run (humanClick env (THandle field) l w) as [[[[]|msg]|] t l1 w1];
    [|eexists; reflexivity].
  unfold bind, delay. rewrite rand_run, humanType_selector_throws.
  eexists; reflexivity.
Qed.

Lemma performFacebookLogin_routine {L} (email password : string) :
  confined pre p (@MessengerJs.performFacebookLogin env L email password).
Proof.
  unfold MessengerJs.performFacebookLogin.
  apply confined_try_catch; [|routine_confined].
  apply confined_bind; [routine_confined|intros _].
  apply confined_bind; [routine_confined|intros emailField].
  apply confined_bind; [routine_confined|intros _].
  apply confined_bind; [routine_confined|intros passwordField].
  apply confined_bind_dead; [routine_confined|].
  apply fill_password_never_returns.
Qed.

#[local] Hint Resolve loadCookies_routine saveCookies_routine
  MessengerJs_solveRecaptchaAudio_routine performFacebookLogin_routine : routine.

Lemma reach_profile_routine {L} (profile : Profile) (email : string) (headless : JsVal) :
  confined pre p (@MessengerJs.reach_profile env L profile email headless).
Proof. unfold MessengerJs.reach_profile. routine_confined. Qed.

Lemma deliver_message_routine (message : string) :
  confined pre p (MessengerJs.deliver_message env message).
Proof. unfold MessengerJs.deliver_message. routine_confined. Qed.

#[local] Hint Resolve reach_profile_routine deliver_message_routine : routine.

Lemma sendMessageToProfile_routine {L} (profile : Profile) (message email : string)
      (headless : JsVal) :
  confined pre p (@MessengerJs.sendMessageToProfile env L profile message email headless).
Proof.
  unfold MessengerJs.sendMessageToProfile, MessengerJs.success_record,
    MessengerJs.failure_record.
  routine_confined.
Qed.

(* ----------------------------- messengerrrr.js --------------------------- *)

Lemma loadCookies_routine' {L} (email : option string) :
  confined pre p (@MessengerrrrJs.loadCookies env L email).
Proof.
  unfold MessengerrrrJs.loadCookies, MessengerrrrJs.cookieFilePathFor.
  routine_confined.
Qed.

Lemma saveCookies_routine' {L} (email : option string) :
  confined pre p (@MessengerrrrJs.saveCookies env L email).
Proof.
  unfold MessengerrrrJs.saveCookies, MessengerrrrJs.cookieFilePathFor.
  routine_confined.
Qed.

Lemma deliver_message_routine' (message : JsVal) :
  confined pre p (MessengerrrrJs.deliver_message env message).
Proof. unfold MessengerrrrJs.deliver_message. routine_confined. Qed.

End Routine.

(** The audio strategy of [messengerrrr.js] makes routine calls and the
    calls of the audio path. *)
Section AudioPath.

Variable env : Env.
Variable pre : ProcessEnv -> Prop.
Variable p : Event -> bool.
Hypothesis routine_allowed : forall e, routine e = true -> p e = true.
Hypothesis audio_allowed : forall e, is_audio_step e = true -> p e = true.

Ltac audio_side :=
  intros;
  first [ apply routine_allowed; reflexivity | apply audio_allowed; reflexivity ].
Ltac audio_known :=
  first [ apply tickCheckbox_routine; exact routine_allowed
        | assumption ].

Lemma processAudioChallenge_confined {L} (link : option string) :
  confined pre p (@MessengerrrrJs.processAudioChallenge env L link).
Proof.
  unfold MessengerrrrJs.processAudioChallenge.
  confine audio_side audio_known.
Qed.

Lemma solveRecaptchaAudio_confined {L} :
  confined pre p (@MessengerrrrJs.solveRecaptchaAudio env L).
Proof.
  unfold MessengerrrrJs.solveRecaptchaAudio.
  pose proof (@processAudioChallenge_confined L) as Haudio.
  confine audio_side ltac:(first [apply Haudio | audio_known]).
Qed.

End AudioPath.

(** Nothing but the profile loop writes to the sink. *)
Section SinkFree.

Variable env : Env.
Variable pre : ProcessEnv -> Prop.

Lemma routine_no_sink_write (e : Event) :
  routine e = true -> no_sink_write e = true.
Proof.
  unfold routine. intros H.
  apply andb_true_iff in H. destruct H as [H _].
  apply andb_true_iff in H. destruct H as [H _]. exact H.
Qed.

Lemma audio_no_sink_write (e : Event) :
  is_audio_step e = true -> no_sink_write e = true.
Proof.
  destruct e as [ms|a r|q r|f sel r|h r|fs|u|q r|r|key r|link d]; try reflexivity.
  destruct a; try reflexivity; discriminate.
Qed.

Ltac sink_side := intros; reflexivity.
Ltac sink_known :=
  first
    [ assumption
    | apply humanClick_routine | apply humanType_routine | apply humanScroll_routine
    | apply isLoginRequired_routine | apply first_match_routine
    | apply navigate_routine | apply tickCheckbox_routine
    | apply MessengerJs_solveRecaptchaAudio_routine
    | apply loadCookies_routine' | apply saveCookies_routine'
    | apply deliver_message_routine'
    | apply sendMessageToProfile_routine
    | apply solveRecaptchaAudio_confined ];
  first [ exact routine_no_sink_write | exact audio_no_sink_write ].

Lemma manualWait_no_sink {L} (fuel : nat) (start maxWait : Z) :
  confined pre no_sink_write (@manualWait env L fuel start maxWait).
Proof.
  induction fuel as [|fuel IH]; cbn [manualWait]; confine sink_side sink_known.
Qed.

Lemma solveCaptcha_no_sink {L} :
  confined pre no_sink_write (@MessengerrrrJs.solveCaptcha env L).
Proof.
  unfold MessengerrrrJs.solveCaptcha.
  pose proof (@manualWait_no_sink L) as Hwait.
  confine sink_side ltac:(first [apply Hwait | sink_known]).
Qed.

Lemma performFacebookLogin_no_sink {L} (email password : option string) :
  confined pre no_sink_write (@MessengerrrrJs.performFacebookLogin env L email password).
Proof.
  unfold MessengerrrrJs.performFacebookLogin.
  pose proof (@solveCaptcha_no_sink L) as Hcaptcha.
  confine sink_side ltac:(first [apply Hcaptcha | sink_known]).
Qed.

Lemma reach_profile_no_sink {L} (profile : Profile) :
  confined pre no_sink_write (@MessengerrrrJs.reach_profile env L profile).
Proof.
  unfold MessengerrrrJs.reach_profile.
  pose proof (@performFacebookLogin_no_sink L) as Hlogin.
  confine sink_side ltac:(first [apply Hlogin | sink_known]).
Qed.

Lemma sendMessageToProfile_no_sink {L} (profile : Profile) (message : JsVal) :
  confined pre no_sink_write (@MessengerrrrJs.sendMessageToProfile env L profile message).
Proof.
  unfold MessengerrrrJs.sendMessageToProfile, MessengerrrrJs.success_record,
    MessengerrrrJs.failure_record, MessengerrrrJs.preview_of.
  pose proof (@reach_profile_no_sink unit profile) as Hreach.
  confine sink_side ltac:(first [apply Hreach | sink_known]).
Qed.

End SinkFree.

(* ====================================================================== *)
(** * The batch orchestrator *)
(* ====================================================================== *)

Lemma emitted_app (a b : list Event) : emitted (a ++ b) = (emitted a ++ emitted b)%list.
Proof.
  induction a as [|e a IH]; [reflexivity|].
  destruct e as [ms|act r|q r|f sel r|h r|fs|u|q r|r|key r|link d]; cbn; try exact IH.
  destruct act; try exact IH; destruct r; cbn; rewrite ?IH; reflexivity.
Qed.

Lemma emitted_none (tr : list Event) :
  forallb no_sink_write tr = true -> emitted tr = [].
Proof.
  induction tr as [|e tr IH]; [reflexivity|].
  cbn [forallb]. intros H. apply andb_true_iff in H. destruct H as [He Htr].
  destruct e as [ms|act r|q r|f sel r|h r|fs|u|q r|r|key r|link d]; cbn; auto.
  destruct act; auto; discriminate.
Qed.

Lemma bind_post {L A B} (m : M L A) (f : A -> M L B) (Q : B -> Prop) :
  (forall a l w b, res (f a l w) = Ok b -> Q b) ->
  forall l w b, res (bind m f l w) = Ok b -> Q b.
Proof.
  intros Hf l w b. unfold bind.
  destruct (m l w) as [[[a|msg]|] t l1 w1]; [|discriminate|discriminate].
  specialize (Hf a l1 w1).
  destruct (f a l1 w1) as [r t2 l2 w2]. cbn in *. auto.
Qed.

Section Orchestrator.

Variable env : Env.
Hypothesis sink_ok : sink_takes_fallback env.

(** [sendMessageToProfile] never throws: it returns a record about the
    profile it was given, with a duration. *)
Lemma sendMessageToProfile_returns {L} (profile : Profile) (message email : string)
      (headless : JsVal) (l : L) (w : World) :
  exists r,
    res (MessengerJs.sendMessageToProfile env profile message email headless l w) = Ok r
    /\ subject r = profile /\ durationMs r <> None.
Proof.
  unfold MessengerJs.sendMessageToProfile, call, Date_now, try_catch.
  unfold bind at 1.
  match goal with
  | |- context [match ?m ?l0 ?w0 with _ => _ end] =>
      destruct_run (m l0 w0) as [[[r|msg]|] t l1 w1] eqn:Hbody
  end.
  - exists r. split; [reflexivity|].
    assert (Hres : res (mkOut (Ok r) t l1 w1) = Ok r) by reflexivity.
    rewrite <- Hbody in Hres. revert Hres.
    set (Q := fun b : Outcome => subject b = profile /\ durationMs b <> None).
    change (subject r = profile /\ durationMs r <> None) with (Q r).
    generalize (now w) as start. intros start.
    generalize initial_locals, w, r.
    apply bind_post. intros _. apply bind_post. clear.
    intros _ l w b H. cbn in H. injection H as <-.
    destruct profile; split; [reflexivity|discriminate].
  - cbn. eexists. split; [reflexivity|].
    destruct profile; split; [reflexivity|discriminate].
Qed.

(** A call of [sendMessageToProfile], seen from the profile loop. *)
Lemma sendMessageToProfile_run {L} (profile : Profile) (message email : string)
      (headless : JsVal) (l : L) (w : World) :
  exists r t w1,
    MessengerJs.sendMessageToProfile env profile message email headless l w
    = mkOut (Ok r) t l w1
    /\ subject r = profile /\ durationMs r <> None /\ emitted t = [].
Proof.
  destruct (sendMessageToProfile_returns profile message email headless l w)
    as (r & Hr & Hsubject & Hduration).
  destruct (sendMessageToProfile_routine env any_env no_sink_write
              routine_no_sink_write profile message email headless l w I)
    as [Htrace _].
  assert (Hl : locals (MessengerJs.sendMessageToProfile env profile message email
                         headless l w) = l).
  { unfold MessengerJs.sendMessageToProfile, call.
    match goal with
    | |- context [match ?m ?l0 ?w0 with _ => _ end] => destruct (m l0 w0)
    end. reflexivity. }
  destruct (MessengerJs.sendMessageToProfile env profile message email headless l w)
    as [r0 t l1 w1]; cbn [res trace locals] in *.
  subst. exists r, t, w1. auto using emitted_none.
Qed.

(** One turn of the loop ends normally, with one more record in [results]
    and one more record in the sink, both about the profile of the turn. *)
Lemma profile_turn_one_outcome (message email : string) (headless : JsVal)
      (i : nat) (profile : Profile) (results : list Outcome) (w : World) :
  let o := MessengerJs.profile_turn env message email headless i profile results w in
  res o = Ok tt
  /\ exists r r', locals o = (results ++ [r])%list /\ emitted (trace o) = [r']
                 /\ subject r = profile /\ subject r' = profile.
Proof.
  intros o.
  assert (Ho : o = MessengerJs.profile_turn env message email headless i profile results w)
    by reflexivity.
  clearbody o. unfold MessengerJs.profile_turn in Ho.
  set (pause := if 0 <? Z.of_nat i then _ else _) in Ho.
  assert (Hpause : exists t w1, pause results w = mkOut (Ok tt) t results w1
                                /\ emitted t = []).
  { subst pause. destruct (0 <? Z.of_nat i); unfold_run; rewrite ?rand_run;
      eexists; eexists; split; reflexivity. }
  destruct Hpause as (t0 & w0 & Hpause & Ht0).
  unfold try_catch in Ho. unfold bind at 1 in Ho. rewrite Hpause in Ho.
  unfold bind at 1 in Ho.
  destruct (sendMessageToProfile_run profile message email headless results w0)
    as (r & t & w1 & Hrun & Hsubject & Hduration & Ht).
  rewrite Hrun in Ho. unfold_run_in Ho.
  destruct (env_do env (clock w1) (APushData (with_timestamp (now w1) r)))
    as [msg|] eqn:Hpush; reduce_run_in Ho.
  - destruct (sink_ok (clock (tick env w1))
                (MessengerJs.fail_record profile msg (now (tick env w1))))
      as [Hfallback _]; [reflexivity|].
    cbn [clock now tick] in Hfallback. rewrite Hfallback in Ho.
    reduce_run_in Ho. subst o. cbn [res locals trace].
    split; [reflexivity|]. eexists; eexists. split; [reflexivity|].
    rewrite !emitted_app, Ht0, Ht. cbn.
    destruct profile. repeat split.
  - subst o. cbn [res locals trace].
    split; [reflexivity|]. exists r. eexists. split; [reflexivity|].
    rewrite !emitted_app, Ht0, Ht. cbn. split; [reflexivity|].
    split; [assumption|]. destruct r; exact Hsubject.
Qed.

Lemma profile_loop_outcomes (message email : string) (headless : JsVal)
      (profiles : list Profile) :
  forall (i : nat) (results : list Outcome) (w : World),
    let o := MessengerJs.profile_loop env message email headless i profiles results w in
    res o = Ok tt
    /\ exists rs, locals o = (results ++ rs)%list /\ map subject rs = profiles
                 /\ map subject (emitted (trace o)) = profiles.
Proof.
  induction profiles as [|profile rest IH]; intros i results w; cbn [MessengerJs.profile_loop].
  - cbn. split; [reflexivity|]. exists []. rewrite app_nil_r. repeat split.
  - unfold bind.
    destruct (profile_turn_one_outcome message email headless i profile results w)
      as (Hres & r & r' & Hlocals & Hemitted & Hr & Hr').
    destruct (MessengerJs.profile_turn env message email headless i profile results w)
      as [res1 t1 l1 w1]; cbn [res locals trace] in *. subst res1 l1.
    destruct (IH (S i) (results ++ [r])%list w1) as (Hres2 & rs & Hlocals2 & Hrs & Hes).
    destruct (MessengerJs.profile_loop env message email headless (S i) rest
                (results ++ [r])%list w1) as [res2 t2 l2 w2]; cbn [res locals trace] in *.
    split; [assumption|]. exists (r :: rs).
    rewrite emitted_app, Hemitted, Hlocals2, <- app_assoc. cbn.
    rewrite Hr, Hr', Hrs, Hes. repeat split.
Qed.

(** [messengerrrr.js]: the same, as long as the downloads of the audio
    challenge settle. *)
Hypothesis downloads : downloads_settle env.

Lemma sendMessageToProfile_returns' {L} (profile : Profile) (message : JsVal)
      (l : L) (w : World) :
  exists r,
    res (MessengerrrrJs.sendMessageToProfile env profile message l w) = Ok r
    /\ subject r = profile /\ durationMs r <> None.
Proof.
  unfold MessengerrrrJs.sendMessageToProfile, call, Date_now, try_catch.
  unfold bind at 1.
  match goal with
  | |- context [match ?m ?l0 ?w0 with _ => _ end] =>
      destruct_run (m l0 w0) as [[[r|msg]|] t l1 w1] eqn:Hbody
  end.
  - exists r. split; [reflexivity|].
    assert (Hres : res (mkOut (Ok r) t l1 w1) = Ok r) by reflexivity.
    rewrite <- Hbody in Hres. revert Hres.
    set (Q := fun b : Outcome => subject b = profile /\ durationMs b <> None).
    change (subject r = profile /\ durationMs r <> None) with (Q r).
    generalize (now w) as start. intros start.
    generalize initial_locals, w, r.
    apply bind_post. intros _. apply bind_post. clear.
    intros _ l w b H. unfold MessengerrrrJs.success_record in H.
    destruct message; cbn in H; try discriminate. injection H as <-.
    destruct profile; split; [reflexivity|discriminate].
  - cbn. eexists. split; [reflexivity|].
    destruct profile; split; [reflexivity|discriminate].
Qed.

Lemma sendMessageToProfile_run' {L} (profile : Profile) (message : JsVal)
      (l : L) (w : World) :
  exists r t w1,
    MessengerrrrJs.sendMessageToProfile env profile message l w
    = mkOut (Ok r) t l w1
    /\ subject r = profile /\ durationMs r <> None /\ emitted t = [].
Proof.
  destruct (sendMessageToProfile_returns' profile message l w)
    as (r & Hr & Hsubject & Hduration).
  destruct (sendMessageToProfile_no_sink env any_env profile message l w I)
    as [Htrace _].
  assert (Hl : locals (MessengerrrrJs.sendMessageToProfile env profile message l w)
               = l).
  { unfold MessengerrrrJs.sendMessageToProfile, call.
    match goal with
    | |- context [match ?m ?l0 ?w0 with _ => _ end] => destruct (m l0 w0)
    end. reflexivity. }
  destruct (MessengerrrrJs.sendMessageToProfile env profile message l w)
    as [r0 t l1 w1]; cbn [res trace locals] in *.
  subst. exists r, t, w1. auto using emitted_none.
Qed.

Lemma profile_turn_one_outcome' (message : JsVal)
      (i : nat) (profile : Profile) (results : list Outcome) (w : World) :
  let o := MessengerrrrJs.profile_turn env message i profile results w in
  res o = Ok tt
  /\ exists r r', locals o = (results ++ [r])%list /\ emitted (trace o) = [r']
                 /\ subject r = profile /\ subject r' = profile.
Proof.
  intros o.
  assert (Ho : o = MessengerrrrJs.profile_turn env message i profile results w)
    by reflexivity.
  clearbody o. unfold MessengerrrrJs.profile_turn, MessengerrrrJs.logResult in Ho.
  set (pause := if 0 <? Z.of_nat i then _ else _) in Ho.
  assert (Hpause : exists t w1, pause results w = mkOut (Ok tt) t results w1
                                /\ emitted t = []).
  { subst pause. destruct (0 <? Z.of_nat i); unfold_run; rewrite ?rand_run;
      eexists; eexists; split; reflexivity. }
  destruct Hpause as (t0 & w0 & Hpause & Ht0).
  unfold try_catch in Ho. unfold bind at 1 in Ho. rewrite Hpause in Ho.
  unfold bind at 1 in Ho.
  destruct (sendMessageToProfile_run' profile message results w0)
    as (r & t & w1 & Hrun & Hsubject & Hduration & Ht).
  rewrite Hrun in Ho. unfold_run_in Ho.
  destruct (env_do env (clock w1) (AAppendFile (with_timestamp (now w1) r)))
    as [msg|] eqn:Hpush; reduce_run_in Ho.
  - destruct (sink_ok (clock (tick env w1))
                (MessengerrrrJs.fail_record profile msg (now (tick env w1))))
      as [_ Hfallback]; [reflexivity|].
    cbn [clock now tick] in Hfallback. rewrite Hfallback in Ho.
    reduce_run_in Ho. subst o. cbn [res locals trace].
    split; [reflexivity|]. eexists; eexists. split; [reflexivity|].
    rewrite !emitted_app, Ht0, Ht. cbn.
    destruct profile. repeat split.
  - subst o. cbn [res locals trace].
    split; [reflexivity|]. exists r. eexists. split; [reflexivity|].
    rewrite !emitted_app, Ht0, Ht. cbn. split; [reflexivity|].
    split; [assumption|]. destruct r; exact Hsubject.
Qed.

Lemma profile_loop_outcomes' (message : JsVal) (profiles : list Profile) :
  forall (i : nat) (results : list Outcome) (w : World),
    let o := MessengerrrrJs.profile_loop env message i profiles results w in
    res o = Ok tt
    /\ exists rs, locals o = (results ++ rs)%list /\ map subject rs = profiles
                 /\ map subject (emitted (trace o)) = profiles.
Proof.
  induction profiles as [|profile rest IH]; intros i results w;
    cbn [MessengerrrrJs.profile_loop].
  - cbn. split; [reflexivity|]. exists []. rewrite app_nil_r. repeat split.
  - unfold bind.
    destruct (profile_turn_one_outcome' message i profile results w)
      as (Hres & r & r' & Hlocals & Hemitted & Hr & Hr').
    destruct (MessengerrrrJs.profile_turn env message i profile results w)
      as [res1 t1 l1 w1]; cbn [res locals trace] in *. subst res1 l1.
    destruct (IH (S i) (results ++ [r])%list w1) as (Hres2 & rs & Hlocals2 & Hrs & Hes).
    destruct (MessengerrrrJs.profile_loop env message (S i) rest
                (results ++ [r])%list w1) as [res2 t2 l2 w2]; cbn [res locals trace] in *.
    split; [assumption|]. exists (r :: rs).
    rewrite emitted_app, Hemitted, Hlocals2, <- app_assoc. cbn.
    rewrite Hr, Hr', Hrs, Hes. repeat split.
Qed.

End Orchestrator.

(** C1, as the scripts have it.  Whatever the page does, and as long as the
    sink takes the record that the [catch] of the loop writes, the profile
    loop runs to its end, and leaves in [results] and in the sink exactly
    one record per profile, in the order of the input: no failure of one
    profile stops the loop.  In [messengerrrr.js] this holds of the runs in
    which every download of an audio challenge settles: a download that
    does not stops the process where it is. *)
Theorem one_outcome_per_profile :
  forall (env : Env),
    sink_takes_fallback env ->
    forall (message email : string) (input_message headless : JsVal)
           (profiles : list Profile) (w : World),
      let o := MessengerJs.profile_loop env message email headless 0 profiles [] w in
      let o' := MessengerrrrJs.profile_loop env input_message 0 profiles [] w in
      (res o = Ok tt
       /\ map subject (locals o) = profiles
       /\ map subject (emitted (trace o)) = profiles
       /\ List.length (locals o) = List.length profiles
       /\ List.length (emitted (trace o)) = List.length profiles)
      /\ (downloads_settle env ->
          res o' = Ok tt
          /\ map subject (locals o') = profiles
          /\ map subject (emitted (trace o')) = profiles
          /\ List.length (locals o') = List.length profiles
          /\ List.length (emitted (trace o')) = List.length profiles).
Proof.
  intros env Hsink message email input_message headless profiles w o o'. split.
  - destruct (profile_loop_outcomes env Hsink message email headless profiles 0 [] w)
      as (Hres & rs & Hlocals & Hrs & Hes).
    fold o in Hres, Hlocals, Hes. cbn [app] in Hlocals. rewrite Hlocals.
    repeat split; try assumption.
    + rewrite <- Hrs. symmetry. apply length_map.
    + rewrite <- Hes. symmetry. apply length_map.
  - intros Hdownloads.
    destruct (profile_loop_outcomes' env Hsink Hdownloads input_message profiles 0 [] w)
      as (Hres' & rs' & Hlocals' & Hrs' & Hes').
    fold o' in Hres', Hlocals', Hes'. cbn [app] in Hlocals'. rewrite Hlocals'.
    repeat split; try assumption.
    + rewrite <- Hrs'. symmetry. apply length_map.
    + rewrite <- Hes'. symmetry. apply length_map.
Qed.

Lemma one_outcome_per_profile_witness :
  let o := MessengerJs.profile_loop hostile "hi" "a@x.com" (JBool true) 0
             two_profiles [] fresh_world in
  let o' := MessengerrrrJs.profile_loop hostile (JStr "hi") 0 two_profiles []
              fresh_world in
  (res o = Ok tt
   /\ map subject (locals o) = two_profiles
   /\ map subject (emitted (trace o)) = two_profiles
   /\ List.length (locals o) = List.length two_profiles
   /\ List.length (emitted (trace o)) = List.length two_profiles)
  /\ (res o' = Ok tt
      /\ map subject (locals o') = two_profiles
      /\ map subject (emitted (trace o')) = two_profiles
      /\ List.length (locals o') = List.length two_profiles
      /\ List.length (emitted (trace o')) = List.length two_profiles).
Proof.
  destruct (one_outcome_per_profile hostile
              ltac:(intros k o Hduration; cbn; rewrite Hduration; split; reflexivity)
              "hi" "a@x.com" (JStr "hi") (JBool true) two_profiles fresh_world)
    as [Hactor Hscript].
  split; [exact Hactor|]. apply Hscript. intros k link. reflexivity.
Defined.

(** On the hostile page both profiles fail, each with the record of the
    [catch] of the loop, whose message is the one of the sink. *)
Example hostile_run :
  map (fun r => (profileId r, success r, error r))
      (locals (MessengerJs.profile_loop hostile "hi" "a@x.com" (JBool true) 0
                 two_profiles [] fresh_world))
  = [ ("p1", false, Some "sink busy"); ("p2", false, Some "sink busy") ].
Proof. vm_compute. reflexivity. Qed.

(** C1, as the specification has it, fails: when the sink takes nothing, the
    write in the [catch] of the loop throws in its turn; the first profile
    ends the run of [messenger.js] and of [messengerrrr.js], and no record
    is left for either profile. *)
Lemma deaf_sink_aborts_the_batch :
  let o := MessengerJs.profile_loop deaf_sink "hi" "a@x.com" (JBool true) 0
             two_profiles [] fresh_world in
  let o' := MessengerrrrJs.profile_loop deaf_sink (JStr "hi") 0 two_profiles []
              fresh_world in
  (res o = Throw "sink down" /\ locals o = [] /\ emitted (trace o) = [])
  /\ (res o' = Throw "sink down" /\ locals o' = [] /\ emitted (trace o') = []).
Proof. vm_compute. repeat split. Qed.

(** It fails in [messengerrrr.js] in one more way, with a sink that works: on
    a login wall with an audio challenge whose download is refused, the
    request emits an 'error' that nothing listens to, and the process ends
    in the first profile: the loop neither returns nor throws, no record is
    left, and the download is the last call of the run. *)
Example refused_download_stops_the_batch :
  let o := MessengerrrrJs.profile_loop refused_download (JStr "hi") 0 two_profiles []
             headless_world in
  sink_takes_fallback refused_download
  /\ res o = Stopped
  /\ locals o = []
  /\ emitted (trace o) = []
  /\ last (trace o) (EDelay 0)
     = EDownload (Some "https://www.google.com/recaptcha/api2/payload/audio.mp3") Dies.
Proof.
  split; [intros k o Hduration; split; reflexivity|].
  vm_compute. repeat split.
Qed.

(* ====================================================================== *)
(** * The message delivery pipeline *)
(* ====================================================================== *)

Section Delivery.

Variable env : Env.

(** [messageSent] is "Yes" when the delivery steps complete, and still "No"
    when they throw. *)
Lemma deliver_message_flags (message : string) (l : Locals) (w : World) :
  var_messageSent l = "No" ->
  let o := MessengerJs.deliver_message env message l w in
  match res o with
  | Settled (Ok _) => var_messageSent (locals o) = "Yes"
  | Settled (Throw _) => var_messageSent (locals o) = "No"
  | Stopped => True
  end.
Proof.
  intros Hno o.
  assert (Ho : o = MessengerJs.deliver_message env message l w) by reflexivity.
  clearbody o. unfold MessengerJs.deliver_message in Ho. unfold_run_in Ho.
  repeat exec_step Ho.
  all: subst o; cbn [res locals var_messageSent]; try reflexivity; try exact I;
    exact Hno.
Qed.

Lemma deliver_message_flags' (message : JsVal) (l : Locals) (w : World) :
  var_messageSent l = "No" ->
  let o := MessengerrrrJs.deliver_message env message l w in
  match res o with
  | Settled (Ok _) => var_messageSent (locals o) = "Yes"
  | Settled (Throw _) => var_messageSent (locals o) = "No"
  | Stopped => True
  end.
Proof.
  intros Hno o.
  assert (Ho : o = MessengerrrrJs.deliver_message env message l w) by reflexivity.
  clearbody o. unfold MessengerrrrJs.deliver_message in Ho. unfold_run_in Ho.
  repeat exec_step Ho.
  all: subst o; cbn [res locals var_messageSent]; try reflexivity; try exact I;
    exact Hno.
Qed.

(** [messenger.js]: the record is a success exactly when [messageSent] is
    "Yes". *)
Lemma sent_iff_success {L} (profile : Profile) (message email : string)
      (headless : JsVal) (l : L) (w : World) :
  exists r,
    res (MessengerJs.sendMessageToProfile env profile message email headless l w) = Ok r
    /\ (success r = true <-> messageSent r = Some "Yes").
Proof.
  set (o := MessengerJs.sendMessageToProfile env profile message email headless l w).
  assert (Ho : o = MessengerJs.sendMessageToProfile env profile message email
                     headless l w) by reflexivity.
  clearbody o.
  unfold MessengerJs.sendMessageToProfile, MessengerJs.success_record,
    MessengerJs.failure_record in Ho.
  unfold_run_in Ho.
  match type of Ho with
  | context [MessengerJs.reach_profile env ?p ?e ?h ?l0 ?w0] =>
      destruct_run (MessengerJs.reach_profile env p e h l0 w0) as [[[[]|msg]|] t0 l1 w1]
  end; reduce_run_in Ho.
  - match type of Ho with
    | context [MessengerJs.deliver_message env ?m ?l0 ?w0] =>
        pose proof (deliver_message_flags m l0 w0 eq_refl) as Hflags;
        destruct_run (MessengerJs.deliver_message env m l0 w0)
          as [[[[]|msg]|] t1 l2 w2]
    end; cbn [res locals] in Hflags; reduce_run_in Ho; subst o; cbn [res];
      eexists; (split; [reflexivity|]); cbn [success messageSent]; rewrite Hflags;
      split; intros H; (reflexivity || discriminate).
  - subst o; cbn [res]. eexists; (split; [reflexivity|]).
    cbn. split; intros H; discriminate.
Qed.

(** [messengerrrr.js]: a success is marked as sent; and a record marked as
    sent is a success when the message is a string. *)
Lemma success_is_marked_sent {L} (profile : Profile) (message : JsVal)
      (l : L) (w : World) :
  match res (MessengerrrrJs.sendMessageToProfile env profile message l w) with
  | Settled (Ok r) =>
      (success r = true -> messageSent r = Some "Yes")
      /\ (isString message = true -> messageSent r = Some "Yes" -> success r = true)
  | Settled (Throw _) => False
  | Stopped => True
  end.
Proof.
  set (o := MessengerrrrJs.sendMessageToProfile env profile message l w).
  assert (Ho : o = MessengerrrrJs.sendMessageToProfile env profile message l w)
    by reflexivity.
  clearbody o.
  unfold MessengerrrrJs.sendMessageToProfile, MessengerrrrJs.success_record,
    MessengerrrrJs.failure_record in Ho.
  unfold_run_in Ho.
  match type of Ho with
  | context [MessengerrrrJs.reach_profile env ?p ?l0 ?w0] =>
      destruct (MessengerrrrJs.reach_profile env p l0 w0) as [[[[]|msg]|] t0 l1 w1]
  end; reduce_run_in Ho.
  - match type of Ho with
    | context [MessengerrrrJs.deliver_message env ?m ?l0 ?w0] =>
        pose proof (deliver_message_flags' m l0 w0 eq_refl) as Hflags;
        destruct (MessengerrrrJs.deliver_message env m l0 w0)
          as [[[[]|msg]|] t1 l2 w2]
    end; cbn [res locals] in Hflags; reduce_run_in Ho.
    + unfold MessengerrrrJs.preview_of in Ho.
      destruct message; unfold_run_in Ho; subst o; cbn [res success messageSent];
        rewrite ?Hflags; (split; [intros H|intros Hs H]);
        reflexivity || discriminate.
    + subst o; cbn [res success messageSent]. rewrite Hflags.
      split; [intros H|intros Hs H]; discriminate.
    + subst o. exact I.
  - subst o; cbn [res success messageSent].
    split; [intros H|intros Hs H]; discriminate.
  - subst o. exact I.
Qed.

(** [messenger.js]: the profile is reached and the "Message" button is
    looked up in vain. *)
Lemma no_affordance {L} (profile : Profile) (message email : string)
      (headless : JsVal) (l : L) (w : World) :
  let a := MessengerJs.reach_profile env profile email headless tt w in
  res a = Ok tt ->
  env_query env (clock (world a)) None messageButtonSelector = Ok None ->
  let o := MessengerJs.sendMessageToProfile env profile message email headless l w in
  trace o = (trace a ++ [EQuery None messageButtonSelector (Ok None)])%list
  /\ exists r,
      res o = Ok r
      /\ success r = false
      /\ error r = Some "Profile unavailable or no messaging option found"
      /\ messageButtonPresent r = Some "No"
      /\ messageSent r = Some "No".
Proof.
  intros a Hreach Hquery o.
  assert (Ho : o = MessengerJs.sendMessageToProfile env profile message email
                     headless l w) by reflexivity.
  clearbody o.
  unfold MessengerJs.sendMessageToProfile, MessengerJs.deliver_message,
    MessengerJs.failure_record in Ho.
  unfold_run_in Ho. fold a in Ho.
  destruct a as [ra ta la wa]; cbn [res world trace] in *. subst ra.
  reduce_run_in Ho. rewrite Hquery in Ho. reduce_run_in Ho.
  subst o. cbn [trace res]. rewrite ?app_nil_r. split; [reflexivity|].
  eexists. split; [reflexivity|]. repeat split.
Qed.

(** [messengerrrr.js]: the same. *)
Lemma no_affordance' {L} (profile : Profile) (message : JsVal) (l : L) (w : World) :
  let a := MessengerrrrJs.reach_profile env profile tt w in
  res a = Ok tt ->
  env_query env (clock (world a)) None messageButtonSelector = Ok None ->
  let o := MessengerrrrJs.sendMessageToProfile env profile message l w in
  trace o = (trace a ++ [EQuery None messageButtonSelector (Ok None)])%list
  /\ exists r,
      res o = Ok r
      /\ success r = false
      /\ error r = Some "Profile unavailable or no messaging option found"
      /\ messageButtonPresent r = Some "No"
      /\ messageSent r = Some "No".
Proof.
  intros a Hreach Hquery o.
  assert (Ho : o = MessengerrrrJs.sendMessageToProfile env profile message l w)
    by reflexivity.
  clearbody o.
  unfold MessengerrrrJs.sendMessageToProfile, MessengerrrrJs.deliver_message,
    MessengerrrrJs.failure_record in Ho.
  unfold_run_in Ho. fold a in Ho.
  destruct a as [ra ta la wa]; cbn [res world trace] in *. subst ra.
  reduce_run_in Ho. rewrite Hquery in Ho. reduce_run_in Ho.
  unfold humanClick, receiver, target_of in Ho. unfold_run_in Ho.
  cbn [var_messageButton] in Ho. reduce_run_in Ho.
  subst o. cbn [trace res]. rewrite ?app_nil_r. split; [reflexivity|].
  eexists. split; [reflexivity|]. repeat split.
Qed.

End Delivery.

(** C2.  Every record of [sendMessageToProfile] that is a success has its
    [messageSent] at "Yes", in both scripts.  The converse does not hold:
    [messengerrrr.js], which accepts any truthy [message], types the message
    ["hi"] given as an array, presses Enter for want of a send button, sets
    [messageSent] to "Yes", and then fails on [message.substring]: the
    record is a failure marked as sent.  It is the only way: in
    [messenger.js], and in [messengerrrr.js] when the message is a string,
    a record marked as sent is a success. *)
Theorem success_implies_marked_sent :
  forall (env : Env) (profile : Profile) (message email : string)
         (input_message headless : JsVal) (w : World),
    (exists r,
       res (MessengerJs.sendMessageToProfile env profile message email headless tt w)
       = Ok r
       /\ (success r = true <-> messageSent r = Some "Yes"))
    /\ match res (MessengerrrrJs.sendMessageToProfile env profile input_message tt w) with
       | Settled (Ok r) =>
           (success r = true -> messageSent r = Some "Yes")
           /\ (isString input_message = true ->
               messageSent r = Some "Yes" -> success r = true)
       | Settled (Throw _) => False
       | Stopped => True
       end
    /\ (let o := MessengerrrrJs.sendMessageToProfile no_send_button one_profile
                   (JArr [JStr "hi"]) tt fresh_world in
        MessengerrrrJs.validate
          (JObj [ ("loginEmail", JStr "a@x.com"); ("loginPassword", JStr "s");
                  ("profiles", JArr [ JObj [ ("id", JStr "p1"); ("url", JStr "u1") ] ]);
                  ("message", JArr [JStr "hi"]) ]) = None
        /\ pressed_enter (trace o) = true
        /\ exists r,
            res o = Ok r
            /\ success r = false
            /\ error r = Some "message.substring is not a function"
            /\ messageSent r = Some "Yes").
Proof.
  intros env profile message email input_message headless w.
  split; [apply sent_iff_success|].
  split; [apply success_is_marked_sent|].
  cbv zeta. split; [reflexivity|]. split; [vm_compute; reflexivity|].
  eexists. vm_compute. repeat split.
Qed.

(** The fallback key-press: without a send button the script presses Enter,
    marks the message as sent, and, the message being a string, the record
    is a success. *)
Example fallback_keypress_run :
  let o := MessengerJs.sendMessageToProfile no_send_button one_profile "hi" "a@x.com"
             (JBool true) tt fresh_world in
  let o' := MessengerrrrJs.sendMessageToProfile no_send_button one_profile (JStr "hi") tt
              fresh_world in
  (pressed_enter (trace o) = true
   /\ map (fun r => (success r, messageSent r))
          (match res o with Settled (Ok r) => [r] | _ => [] end)
      = [(true, Some "Yes")])
  /\ (pressed_enter (trace o') = true
      /\ map (fun r => (success r, messageSent r))
             (match res o' with Settled (Ok r) => [r] | _ => [] end)
         = [(true, Some "Yes")]).
Proof. vm_compute. repeat split. Qed.

(** C4.  When the profile page has been reached and the "Message" button
    selector matches nothing, [sendMessageToProfile] returns a failure with
    the error "Profile unavailable or no messaging option found",
    [messageButtonPresent] "No" and [messageSent] "No"; the look-up is the
    last call of the run: it is not made again, and nothing else is tried. *)
Theorem no_affordance_outcome :
  forall (env : Env) (profile : Profile) (message email : string)
         (input_message headless : JsVal) (w : World),
    (let a := MessengerJs.reach_profile env profile email headless tt w in
     res a = Ok tt ->
     env_query env (clock (world a)) None messageButtonSelector = Ok None ->
     let o := MessengerJs.sendMessageToProfile env profile message email headless tt w in
     trace o = (trace a ++ [EQuery None messageButtonSelector (Ok None)])%list
     /\ exists r,
         res o = Ok r
         /\ success r = false
         /\ error r = Some "Profile unavailable or no messaging option found"
         /\ messageButtonPresent r = Some "No"
         /\ messageSent r = Some "No")
    /\ (let a := MessengerrrrJs.reach_profile env profile tt w in
        res a = Ok tt ->
        env_query env (clock (world a)) None messageButtonSelector = Ok None ->
        let o := MessengerrrrJs.sendMessageToProfile env profile input_message tt w in
        trace o = (trace a ++ [EQuery None messageButtonSelector (Ok None)])%list
        /\ exists r,
            res o = Ok r
            /\ success r = false
            /\ error r = Some "Profile unavailable or no messaging option found"
            /\ messageButtonPresent r = Some "No"
            /\ messageSent r = Some "No").
Proof.
  intros. split; [apply no_affordance | apply no_affordance'].
Qed.

Lemma no_affordance_outcome_witness :
  (let a := MessengerJs.reach_profile no_message_button one_profile "a@x.com"
              (JBool false) tt fresh_world in
   let o := MessengerJs.sendMessageToProfile no_message_button one_profile "hi"
              "a@x.com" (JBool false) tt fresh_world in
   trace o = (trace a ++ [EQuery None messageButtonSelector (Ok None)])%list
   /\ exists r,
       res o = Ok r
       /\ success r = false
       /\ error r = Some "Profile unavailable or no messaging option found"
       /\ messageButtonPresent r = Some "No"
       /\ messageSent r = Some "No")
  /\ (let a := MessengerrrrJs.reach_profile no_message_button one_profile tt
                 fresh_world in
      let o := MessengerrrrJs.sendMessageToProfile no_message_button one_profile
                 (JStr "hi") tt fresh_world in
      trace o = (trace a ++ [EQuery None messageButtonSelector (Ok None)])%list
      /\ exists r,
          res o = Ok r
          /\ success r = false
          /\ error r = Some "Profile unavailable or no messaging option found"
          /\ messageButtonPresent r = Some "No"
          /\ messageSent r = Some "No").
Proof.
  destruct (no_affordance_outcome no_message_button one_profile "hi" "a@x.com"
              (JStr "hi") (JBool false) fresh_world) as [Hm Hm'].
  split; [apply Hm | apply Hm']; vm_compute; reflexivity.
Defined.

(* ====================================================================== *)
(** * The challenge resolution chain *)
(* ====================================================================== *)

Section ManualWait.

Variable env : Env.
Variable L : Type.

Lemma manualWait_eq (fuel : nat) (start maxWait : Z) :
  @manualWait env L fuel start maxWait
  = (t <- Date_now ;;
     if t - start <? maxWait then
       match fuel with
       | O => ret false
       | S fuel' =>
           stillPresent <- test env PStillPresent ;;
           if negb stillPresent then ret true
           else
             delay 2000 ;;
             manualWait env fuel' start maxWait
       end
     else ret false).
Proof. destruct fuel; reflexivity. Qed.

(** Every turn of the manual-solve loop takes 2000 ms or more, so the loop
    leaves by its own condition before its fuel runs out. *)
Lemma manualWait_fuel (fuel : nat) :
  forall (start maxWait : Z) (l : L) (w : World),
    maxWait <= now w - start + 2000 * Z.of_nat fuel ->
    manualWait env (S fuel) start maxWait l w
    = manualWait env fuel start maxWait l w.
Proof.
  induction fuel as [|fuel IH]; intros start maxWait l w Hfuel.
  - rewrite !manualWait_eq. unfold bind, Date_now.
    replace (now w - start <? maxWait) with false
      by (symmetry; apply Z.ltb_ge; lia).
    reflexivity.
  - rewrite (manualWait_eq (S (S fuel))), (manualWait_eq (S fuel)).
    apply bind_ext_at. intros t tr0 l0 w0 Hnow.
    unfold Date_now in Hnow. injection Hnow as <- _ <- <-.
    destruct (now w - start <? maxWait) eqn:Hlt; [|reflexivity].
    apply bind_ext_at. intros stillPresent tr1 l1 w1 Htest.
    unfold test in Htest. injection Htest as _ _ <- <-.
    destruct (negb stillPresent); [reflexivity|].
    apply bind_ext_at. intros [] tr2 l2 w2 Hdelay.
    unfold delay in Hdelay. injection Hdelay as _ <- <-.
    apply IH. cbn [now tick]. lia.
Qed.

(** The fuel of [solveCaptcha] is enough. *)
Lemma manualWait_iterations_enough (extra : nat) (l : L) (w : World) :
  manualWait env (extra + manualWait_iterations) (now w) (3 * 60 * 1000) l w
  = manualWait env manualWait_iterations (now w) (3 * 60 * 1000) l w.
Proof.
  induction extra as [|extra IH]; [reflexivity|].
  cbn [Nat.add]. rewrite manualWait_fuel; [exact IH|].
  unfold manualWait_iterations. lia.
Qed.

End ManualWait.

Lemma routine_no_manual_poll (e : Event) :
  routine e = true -> no_manual_poll e = true.
Proof.
  unfold routine. intros H.
  apply andb_true_iff in H. destruct H as [H _].
  apply andb_true_iff in H. destruct H as [_ H]. exact H.
Qed.

Lemma audio_no_manual_poll (e : Event) :
  is_audio_step e = true -> no_manual_poll e = true.
Proof.
  destruct e as [ms|a r|q r|f sel r|h r|fs|u|q r|r|key r|link d]; try reflexivity.
  discriminate.
Qed.

(** A headless run of [messengerrrr.js] never polls for a manual solve. *)
Section HeadlessRun.

Variable env : Env.

Ltac poll_side := intros; reflexivity.
Ltac poll_known :=
  first
    [ assumption
    | apply humanClick_routine | apply humanType_routine | apply humanScroll_routine
    | apply isLoginRequired_routine | apply first_match_routine
    | apply navigate_routine | apply tickCheckbox_routine
    | apply loadCookies_routine' | apply saveCookies_routine'
    | apply deliver_message_routine'
    | apply sendMessageToProfile_routine
    | apply loadCookies_routine
    | apply solveRecaptchaAudio_confined ];
  first [ exact routine_no_manual_poll | exact audio_no_manual_poll ].

Lemma solveCaptcha_headless {L} :
  confined headless_env no_manual_poll (@MessengerrrrJs.solveCaptcha env L).
Proof.
  unfold MessengerrrrJs.solveCaptcha.
  apply confined_bind; [confine poll_side poll_known|intros captchaPresent].
  destruct captchaPresent; cbn [negb]; [|apply confined_ret].
  apply confined_bind; [confine poll_side poll_known|intros audioSolved].
  destruct audioSolved; [apply confined_ret|].
  apply confined_read_env. intros pe Hpe.
  unfold headless_env in Hpe. rewrite Hpe. cbn [negb]. apply confined_ret.
Qed.

Lemma performFacebookLogin_headless {L} (email password : option string) :
  confined headless_env no_manual_poll
           (@MessengerrrrJs.performFacebookLogin env L email password).
Proof.
  unfold MessengerrrrJs.performFacebookLogin.
  pose proof (@solveCaptcha_headless L) as Hcaptcha.
  confine poll_side ltac:(first [apply Hcaptcha | poll_known]).
Qed.

Lemma reach_profile_headless {L} (profile : Profile) :
  confined headless_env no_manual_poll (@MessengerrrrJs.reach_profile env L profile).
Proof.
  unfold MessengerrrrJs.reach_profile.
  pose proof (@performFacebookLogin_headless L) as Hlogin.
  confine poll_side ltac:(first [apply Hlogin | poll_known]).
Qed.

Lemma sendMessageToProfile_headless {L} (profile : Profile) (message : JsVal) :
  confined headless_env no_manual_poll
           (@MessengerrrrJs.sendMessageToProfile env L profile message).
Proof.
  unfold MessengerrrrJs.sendMessageToProfile, MessengerrrrJs.success_record,
    MessengerrrrJs.failure_record, MessengerrrrJs.preview_of.
  pose proof (@reach_profile_headless unit profile) as Hreach.
  confine poll_side ltac:(first [apply Hreach | poll_known]).
Qed.

Lemma profile_loop_headless (message : JsVal) (profiles : list Profile) :
  forall i, confined headless_env no_manual_poll
                     (MessengerrrrJs.profile_loop env message i profiles).
Proof.
  induction profiles as [|profile rest IH]; intros i;
    cbn [MessengerrrrJs.profile_loop];
    unfold MessengerrrrJs.profile_turn, MessengerrrrJs.logResult.
  - apply confined_ret.
  - pose proof (@sendMessageToProfile_headless (list Outcome) profile message) as Hsend.
    specialize (IH (S i)).
    confine poll_side ltac:(first [apply Hsend | poll_known]).
Qed.

Lemma processAll_headless (profiles : list Profile) (message : JsVal) :
  confined headless_env no_manual_poll (MessengerrrrJs.processAll env profiles message).
Proof.
  unfold MessengerrrrJs.processAll, MessengerrrrJs.launchBrowser,
    MessengerrrrJs.establish_session.
  pose proof (profile_loop_headless message profiles 0) as Hloop.
  confine poll_side ltac:(first [apply Hloop | poll_known]).
Qed.

(** [runMessenger] on an input whose [headless] is truthy. *)
Lemma runMessenger_headless (input : JsVal) (w : World) :
  truthy (get_prop input "headless") = true ->
  forallb no_manual_poll (trace (MessengerrrrJs.runMessenger env input tt w)) = true.
Proof.
  intros Hheadless. unfold MessengerrrrJs.runMessenger.
  destruct (MessengerrrrJs.validate input); [reflexivity|].
  rewrite Hheadless. unfold bind at 1, set_process_env.
  destruct (MessengerrrrJs.typed input) as [profiles|]; [|reflexivity].
  unfold bind, ret.
  match goal with
  | |- context [MessengerrrrJs.processAll env profiles ?message tt ?w0] =>
      destruct (processAll_headless profiles message tt w0 eq_refl) as [Htrace _];
      destruct (MessengerrrrJs.processAll env profiles message tt w0)
        as [[[results|msg]|] t l1 w1]
  end; cbn [trace app] in *; rewrite ?app_nil_r; exact Htrace.
Qed.

Lemma main_headless (input : JsVal) (w : World) :
  truthy (get_prop input "headless") = true ->
  forallb no_manual_poll (trace (MainJs.main env input tt w)) = true.
Proof.
  intros Hheadless.
  set (o := MainJs.main env input tt w).
  assert (Ho : o = MainJs.main env input tt w) by reflexivity.
  clearbody o. unfold MainJs.main in Ho. unfold_run_in Ho.
  destruct (env_do env (clock w) AActorInit); reduce_run_in Ho;
    [subst o; reflexivity|].
  destruct (MainJs.validate input); reduce_run_in Ho; [subst o; reflexivity|].
  pose proof (runMessenger_headless input (tick env w) Hheadless) as Hrun.
  destruct (MessengerrrrJs.runMessenger env input tt (tick env w))
    as [[[[results|]|msg]|] t l1 w1]; cbn [trace] in Hrun; reduce_run_in Ho.
  - destruct (env_do env (clock w1) (APushDataAll results)); reduce_run_in Ho.
    + subst o. cbn [trace forallb]. rewrite forallb_app, Hrun. reflexivity.
    + destruct (env_do env (S (clock w1)) AActorExit); reduce_run_in Ho;
        subst o; cbn [trace forallb]; rewrite forallb_app, Hrun; reflexivity.
  - subst o. cbn [trace forallb]. rewrite ?app_nil_r. exact Hrun.
  - subst o. cbn [trace forallb]. exact Hrun.
  - subst o. cbn [trace forallb]. exact Hrun.
Qed.

End HeadlessRun.

(** No run of [messenger.js] polls for a manual solve: its login throws
    before it gets to the challenge. *)
Section MessengerJsRun.

Variable env : Env.

Ltac poll_side := intros; reflexivity.
Ltac poll_known :=
  first
    [ assumption
    | apply sendMessageToProfile_routine
    | apply loadCookies_routine ];
  exact routine_no_manual_poll.

Lemma profile_loop_never_polls (message email : string) (headless : JsVal)
      (profiles : list Profile) :
  forall i, confined any_env no_manual_poll
                     (MessengerJs.profile_loop env message email headless i profiles).
Proof.
  induction profiles as [|profile rest IH]; intros i;
    cbn [MessengerJs.profile_loop]; unfold MessengerJs.profile_turn.
  - apply confined_ret.
  - specialize (IH (S i)). confine poll_side poll_known.
Qed.

Lemma main_never_polls (raw : JsVal) :
  confined any_env no_manual_poll (MessengerJs.main env raw).
Proof.
  unfold MessengerJs.main, MessengerJs.establish_session.
  apply confined_read_env. intros pe _.
  destruct (MessengerJs.validate (MessengerJs.resolve raw pe));
    [apply confined_throw|].
  destruct (MessengerJs.typed (MessengerJs.resolve raw pe)) as [[[email profiles] message]|];
    [|apply confined_ret].
  pose proof (profile_loop_never_polls message email
                (MessengerJs.r_headless (MessengerJs.resolve raw pe)) profiles 0) as Hloop.
  confine poll_side poll_known.
Qed.

End MessengerJsRun.

Section HeadlessChain.

Variable env : Env.

(** In a headless run the chain of [messengerrrr.js] is the detection
    followed by the audio strategy, and nothing else. *)
Lemma solveCaptcha_headless_eq {L} (l : L) (w : World) :
  headless_env (penv w) ->
  MessengerrrrJs.solveCaptcha env l w
  = (captchaPresent <- test env PCaptchaPresent ;;
     if negb captchaPresent then ret true
     else MessengerrrrJs.solveRecaptchaAudio env) l w.
Proof.
  intros Hpre. unfold MessengerrrrJs.solveCaptcha.
  apply bind_ext_at. intros captchaPresent t0 l0 w0 Htest.
  unfold test in Htest. injection Htest as _ _ <- <-.
  destruct captchaPresent; cbn [negb]; [|reflexivity].
  destruct (solveRecaptchaAudio_confined env headless_env no_manual_poll
              routine_no_manual_poll audio_no_manual_poll l (tick env w) Hpre)
    as [_ Hpenv].
  unfold bind at 1.
  destruct (MessengerrrrJs.solveRecaptchaAudio env l (tick env w))
    as [[[[|]|msg]|] t1 l1 w1]; cbn [world] in Hpenv; try reflexivity.
  - unfold ret. rewrite app_nil_r. reflexivity.
  - unfold bind, process_env.
    cbn [penv tick] in Hpenv. unfold headless_env in Hpre.
    rewrite Hpenv, Hpre. cbn [negb]. unfold ret. rewrite !app_nil_r. reflexivity.
Qed.

(** The chain of [messenger.js], called with a truthy [headless]. *)
Lemma solveCaptcha_truthy_eq {L} (headless : JsVal) (l : L) (w : World) :
  truthy headless = true ->
  MessengerJs.solveCaptcha env headless l w
  = (captchaPresent <- test env PCaptchaPresent ;;
     if negb captchaPresent then ret true
     else MessengerJs.solveRecaptchaAudio env) l w.
Proof.
  intros Hheadless. unfold MessengerJs.solveCaptcha.
  apply bind_ext_at. intros captchaPresent t0 l0 w0 _.
  destruct captchaPresent; cbn [negb]; [|reflexivity].
  unfold bind at 1.
  destruct (MessengerJs.solveRecaptchaAudio env l0 w0)
    as [[[[|]|msg]|] t1 l1 w1]; try reflexivity.
  - unfold ret. rewrite app_nil_r. reflexivity.
  - rewrite Hheadless. cbn [negb]. unfold ret. rewrite app_nil_r. reflexivity.
Qed.

End HeadlessChain.

(** C5.  In a headless run the challenge resolution chain is the detection
    followed by the automated strategy: it returns what that strategy
    returns, [false] when it fails, and its last call is the last call of
    that strategy.  No headless run of [main.js] or [runMessenger] makes a
    poll of the manual-solve window, and no run of [messenger.js] makes
    one. *)
Theorem headless_chain_never_waits :
  forall (env : Env) (input headless : JsVal) (w chain_w : World),
    truthy (get_prop input "headless") = true ->
    truthy headless = true ->
    headless_env (penv chain_w) ->
    MessengerrrrJs.solveCaptcha env tt chain_w
    = (captchaPresent <- test env PCaptchaPresent ;;
       if negb captchaPresent then ret true
       else MessengerrrrJs.solveRecaptchaAudio env) tt chain_w
    /\ MessengerJs.solveCaptcha env headless tt chain_w
       = (captchaPresent <- test env PCaptchaPresent ;;
          if negb captchaPresent then ret true
          else MessengerJs.solveRecaptchaAudio env) tt chain_w
    /\ forallb no_manual_poll (trace (MainJs.main env input tt w)) = true
    /\ forallb no_manual_poll (trace (MessengerrrrJs.runMessenger env input tt w)) = true
    /\ forallb no_manual_poll (trace (MessengerJs.main env input tt w)) = true.
Proof.
  intros env input headless w chain_w Hinput Hheadless Hchain.
  split; [apply solveCaptcha_headless_eq; exact Hchain|].
  split; [apply solveCaptcha_truthy_eq; exact Hheadless|].
  split; [apply main_headless; exact Hinput|].
  split; [apply runMessenger_headless; exact Hinput|].
  apply (main_never_polls env input tt w I).
Qed.

Lemma headless_chain_never_waits_witness :
  MessengerrrrJs.solveCaptcha captcha_wall tt headless_world
  = (captchaPresent <- test captcha_wall PCaptchaPresent ;;
     if negb captchaPresent then ret true
     else MessengerrrrJs.solveRecaptchaAudio captcha_wall) tt headless_world
  /\ MessengerJs.solveCaptcha captcha_wall (JBool true) tt headless_world
     = (captchaPresent <- test captcha_wall PCaptchaPresent ;;
        if negb captchaPresent then ret true
        else MessengerJs.solveRecaptchaAudio captcha_wall) tt headless_world
  /\ forallb no_manual_poll
       (trace (MainJs.main captcha_wall (sample_input true) tt fresh_world)) = true
  /\ forallb no_manual_poll
       (trace (MessengerrrrJs.runMessenger captcha_wall (sample_input true) tt
                 fresh_world)) = true
  /\ forallb no_manual_poll
       (trace (MessengerJs.main captcha_wall (sample_input true) tt fresh_world)) = true.
Proof.
  apply (headless_chain_never_waits captcha_wall (sample_input true) (JBool true)
           fresh_world headless_world); reflexivity.
Defined.

(** Line 304 of [messenger.js] calls [solveCaptcha(page)] without its second
    argument.  Called so, the chain waits whatever the run is; the call is
    never reached, since the password step of the login throws before it
    ([fill_password_never_returns]). *)
Example chain_without_headless_argument :
  List.length
    (filter is_manual_poll
       (trace (MessengerJs.solveCaptcha captcha_wall JUndefined tt headless_world)))
  = 90%nat.
Proof. vm_compute. reflexivity. Qed.

(** The same login wall: the headless run of [messengerrrr.js] gives up on the
    challenge at once, the interactive one polls 90 times, two seconds
    apart, before it gives up; [messenger.js] never gets to the challenge. *)
Example captcha_wall_runs :
  let polls (tr : list Event) := List.length (filter is_manual_poll tr) in
  let errors (r : Run (option (list Outcome))) :=
    match r with Settled (Ok (Some rs)) => map error rs | _ => [] end in
  let headless := MessengerrrrJs.runMessenger captcha_wall (sample_input true) tt
                    fresh_world in
  let interactive := MessengerrrrJs.runMessenger captcha_wall (sample_input false) tt
                       fresh_world in
  let actor := MessengerJs.main captcha_wall (sample_input false) tt fresh_world in
  (polls (trace headless) = 0%nat
   /\ errors (res headless) = [Some "CAPTCHA could not be solved during login"])
  /\ (polls (trace interactive) = 90%nat
      /\ errors (res interactive) = [Some "CAPTCHA could not be solved during login"])
  /\ (polls (trace actor) = 0%nat
      /\ errors (res actor) = [Some "elementHandle.click is not a function"]).
Proof. vm_compute. repeat split. Qed.

Lemma routine_no_audio_step (e : Event) :
  routine e = true -> no_audio_step e = true.
Proof.
  unfold routine. intros H.
  apply andb_true_iff in H. destruct H as [_ H]. exact H.
Qed.

Section ShortCircuit.

Variable env : Env.

(** [messengerrrr.js]: no challenge frame after the tick of the checkbox. *)
Lemma audio_not_attempted {L} (l : L) (w : World) :
  res (tickCheckbox env l w) = Ok None ->
  let o := MessengerrrrJs.solveRecaptchaAudio env l w in
  res o = Ok true
  /\ trace o = trace (tickCheckbox env l w)
  /\ forallb no_audio_step (trace o) = true.
Proof.
  intros Hnone o. subst o. unfold MessengerrrrJs.solveRecaptchaAudio, try_catch, bind.
  destruct (tickCheckbox_routine env any_env no_audio_step routine_no_audio_step
              (L := L) l w I) as [Htrace _].
  destruct (tickCheckbox env l w) as [[[[frame|]|msg]|] t l1 w1];
    cbn [res trace] in *; try discriminate.
  unfold ret. cbn [res trace]. rewrite app_nil_r. auto.
Qed.

(** [messenger.js]: the same; there is no audio path in it at all. *)
Lemma audio_not_attempted' {L} (l : L) (w : World) :
  res (tickCheckbox env l w) = Ok None ->
  let o := MessengerJs.solveRecaptchaAudio env l w in
  res o = Ok true
  /\ trace o = trace (tickCheckbox env l w)
  /\ forallb no_audio_step (trace o) = true.
Proof.
  intros Hnone o. subst o. unfold MessengerJs.solveRecaptchaAudio, try_catch, bind.
  destruct (tickCheckbox_routine env any_env no_audio_step routine_no_audio_step
              (L := L) l w I) as [Htrace _].
  destruct (tickCheckbox env l w) as [[[[frame|]|msg]|] t l1 w1];
    cbn [res trace] in *; try discriminate.
  unfold ret. cbn [res trace]. rewrite app_nil_r. auto.
Qed.

(** The chain of [messengerrrr.js] on a detected challenge that the tick of
    the checkbox resolves. *)
Lemma chain_short_circuit {L} (l : L) (w : World) :
  env_test env (clock w) PCaptchaPresent = Ok true ->
  res (tickCheckbox env l (tick env w)) = Ok None ->
  let o := MessengerrrrJs.solveCaptcha env l w in
  res o = Ok true /\ forallb no_audio_step (trace o) = true.
Proof.
  intros Hdetect Hnone o.
  assert (Ho : o = MessengerrrrJs.solveCaptcha env l w) by reflexivity.
  clearbody o.
  destruct (audio_not_attempted l (tick env w) Hnone) as (Hres & _ & Htrace).
  unfold MessengerrrrJs.solveCaptcha in Ho. unfold bind at 1, test in Ho.
  rewrite Hdetect in Ho. cbn [negb] in Ho. unfold bind at 1 in Ho.
  destruct (MessengerrrrJs.solveRecaptchaAudio env l (tick env w))
    as [r t l1 w1]; cbn [res trace] in *. subst r.
  unfold ret in Ho. subst o. cbn [res trace]. split; [reflexivity|].
  rewrite app_nil_r. cbn [app forallb]. rewrite Htrace. reflexivity.
Qed.

Lemma chain_short_circuit' {L} (headless : JsVal) (l : L) (w : World) :
  env_test env (clock w) PCaptchaPresent = Ok true ->
  res (tickCheckbox env l (tick env w)) = Ok None ->
  let o := MessengerJs.solveCaptcha env headless l w in
  res o = Ok true /\ forallb no_audio_step (trace o) = true.
Proof.
  intros Hdetect Hnone o.
  assert (Ho : o = MessengerJs.solveCaptcha env headless l w) by reflexivity.
  clearbody o.
  destruct (audio_not_attempted' l (tick env w) Hnone) as (Hres & _ & Htrace).
  unfold MessengerJs.solveCaptcha in Ho. unfold bind at 1, test in Ho.
  rewrite Hdetect in Ho. cbn [negb] in Ho. unfold bind at 1 in Ho.
  destruct (MessengerJs.solveRecaptchaAudio env l (tick env w))
    as [r t l1 w1]; cbn [res trace] in *. subst r.
  unfold ret in Ho. subst o. cbn [res trace]. split; [reflexivity|].
  rewrite app_nil_r. cbn [app forallb]. rewrite Htrace. reflexivity.
Qed.

End ShortCircuit.

(** C8.  When a challenge is detected, the checkbox phase completes and no
    challenge frame is listed after it, the chain returns [true], and so
    does the automated strategy, whose calls are those of the checkbox
    phase: no step of the audio path is made (no look-up of the audio
    button, of the response field or of the verify button, no wait for the
    download link, no download). *)
Theorem checkbox_short_circuit :
  forall (env : Env) (headless : JsVal) (w : World),
    env_test env (clock w) PCaptchaPresent = Ok true ->
    res (tickCheckbox env tt (tick env w)) = Ok None ->
    (let o := MessengerrrrJs.solveCaptcha env tt w in
     res o = Ok true /\ forallb no_audio_step (trace o) = true)
    /\ (let o := MessengerrrrJs.solveRecaptchaAudio env tt (tick env w) in
        res o = Ok true
        /\ trace o = trace (tickCheckbox env tt (tick env w))
        /\ forallb no_audio_step (trace o) = true)
    /\ (let o := MessengerJs.solveCaptcha env headless tt w in
        res o = Ok true /\ forallb no_audio_step (trace o) = true)
    /\ (let o := MessengerJs.solveRecaptchaAudio env tt (tick env w) in
        res o = Ok true
        /\ trace o = trace (tickCheckbox env tt (tick env w))
        /\ forallb no_audio_step (trace o) = true).
Proof.
  intros env headless w Hdetect Hnone.
  split; [apply chain_short_circuit; assumption|].
  split; [apply audio_not_attempted; assumption|].
  split; [apply chain_short_circuit'; assumption|].
  apply audio_not_attempted'; assumption.
Qed.

Lemma checkbox_short_circuit_witness :
  (let o := MessengerrrrJs.solveCaptcha checkbox_only tt fresh_world in
   res o = Ok true /\ forallb no_audio_step (trace o) = true)
  /\ (let o := MessengerrrrJs.solveRecaptchaAudio checkbox_only tt
                 (tick checkbox_only fresh_world) in
      res o = Ok true
      /\ trace o = trace (tickCheckbox checkbox_only tt (tick checkbox_only fresh_world))
      /\ forallb no_audio_step (trace o) = true)
  /\ (let o := MessengerJs.solveCaptcha checkbox_only (JBool true) tt fresh_world in
      res o = Ok true /\ forallb no_audio_step (trace o) = true)
  /\ (let o := MessengerJs.solveRecaptchaAudio checkbox_only tt
                 (tick checkbox_only fresh_world) in
      res o = Ok true
      /\ trace o = trace (tickCheckbox checkbox_only tt (tick checkbox_only fresh_world))
      /\ forallb no_audio_step (trace o) = true).
Proof.
  apply (checkbox_short_circuit checkbox_only (JBool true) fresh_world);
    vm_compute; reflexivity.
Defined.

(** With a challenge frame the audio path of [messengerrrr.js] is taken:
    the predicate [no_audio_step] does discriminate. *)
Example audio_path_taken :
  existsb is_audio_step
    (trace (MessengerrrrJs.solveRecaptchaAudio audio_challenge tt fresh_world)) = true.
Proof. vm_compute. reflexivity. Qed.

(* ====================================================================== *)
(** * The transcription of the audio challenge *)
(* ====================================================================== *)

Lemma ends_with_refl (s : list Event) : ends_with s s.
Proof. exists nil. reflexivity. Qed.

Lemma ends_with_cons (s : list Event) (e : Event) (tr : list Event) :
  ends_with s tr -> ends_with s (e :: tr).
Proof. intros [t ->]. exists (e :: t). reflexivity. Qed.

Lemma ends_with_app (s a b : list Event) :
  ends_with s b -> ends_with s (a ++ b).
Proof. intros [t ->]. exists (a ++ t)%list. rewrite app_assoc. reflexivity. Qed.

Lemma typed_texts_app (a b : list Event) :
  typed_texts (a ++ b) = (typed_texts a ++ typed_texts b)%list.
Proof.
  induction a as [|e a IH]; [reflexivity|].
  destruct e as [ms|act r|q r|f sel r|h r|fs|u|q r|r|key r|link d]; cbn; try exact IH.
  destruct act; try exact IH. cbn. rewrite IH. reflexivity.
Qed.

Lemma typed_texts_none (tr : list Event) :
  forallb no_typing tr = true -> typed_texts tr = [].
Proof.
  induction tr as [|e tr IH]; [reflexivity|].
  cbn [forallb]. intros H. apply andb_true_iff in H. destruct H as [He Htr].
  destruct e as [ms|act r|q r|f sel r|h r|fs|u|q r|r|key r|link d]; cbn; auto.
  destruct act; auto; discriminate.
Qed.

Section Transcription.

Variable env : Env.

Lemma tickCheckbox_types_nothing {L} (l : L) (w : World) :
  typed_texts (trace (tickCheckbox env l w)) = [].
Proof.
  apply typed_texts_none.
  assert (H : confined any_env no_typing (@tickCheckbox env L)).
  { unfold tickCheckbox.
    confine ltac:(intros; reflexivity) ltac:(fail). }
  apply (H l w I).
Qed.

(** The word [processAudioChallenge] picks. *)
Lemma mock_word (k : N) :
  exists word,
    nth_error MessengerrrrJs.numbers
      (Z.to_nat (Qfloor (random_unit k
                         * inject_Z (Z.of_nat (List.length MessengerrrrJs.numbers)))))
    = Some word
    /\ In word MessengerrrrJs.numbers.
Proof.
  pose proof (rand_value_range k 0 9 ltac:(lia)) as Hrange.
  unfold rand_value in Hrange.
  change (inject_Z (Z.of_nat (List.length MessengerrrrJs.numbers)))
    with (inject_Z (9 - 0 + 1)).
  set (i := Qfloor (random_unit k * inject_Z (9 - 0 + 1))) in *.
  destruct (nth_error MessengerrrrJs.numbers (Z.to_nat i)) as [word|] eqn:Hnth.
  - exists word. split; [reflexivity|]. eapply nth_error_In. exact Hnth.
  - apply nth_error_None in Hnth. cbn [List.length MessengerrrrJs.numbers] in Hnth. lia.
Qed.

(** [processAudioChallenge] never throws and types nothing; what it returns
    is [null] or one of the ten words, and it is one of the ten words as
    soon as the download completes. *)
Lemma processAudioChallenge_run {L} (link : option string) (l : L) (w : World) :
  exists r t w1,
    MessengerrrrJs.processAudioChallenge env link l w = mkOut r t l w1
    /\ typed_texts t = []
    /\ (forall word, r = Settled (Ok (Some word)) -> In word MessengerrrrJs.numbers)
    /\ (forall msg, r <> Settled (Throw msg))
    /\ (env_download env (clock w) link = Arrives ->
        exists word, r = Settled (Ok (Some word))).
Proof.
  unfold MessengerrrrJs.processAudioChallenge, MessengerrrrJs.downloadAudio.
  unfold_run. rewrite ?rand_run.
  destruct (env_download env (clock w) link) as [|msg| |] eqn:Hdownload;
    reduce_run.
  - destruct (mock_word (env_random env (S (clock w)))) as (word & Hnth & Hin).
    unfold Math_random. reduce_run. rewrite rand_run. reduce_run. rewrite Hnth.
    do 3 eexists. split; [reflexivity|]. split; [reflexivity|].
    split; [|split; [discriminate|]].
    + intros word' Hword. injection Hword as <-. exact Hin.
    + intros _. eexists. reflexivity.
  - do 3 eexists. split; [reflexivity|]. repeat split; discriminate.
  - do 3 eexists. split; [reflexivity|]. repeat split; discriminate.
  - do 3 eexists. split; [reflexivity|]. repeat split; discriminate.
Qed.

(** One step of the audio strategy. *)
Ltac audio_step Ho :=
  first
    [ match type of Ho with
      | context [MessengerrrrJs.processAudioChallenge env ?a ?l1 ?w1] =>
          let r := fresh "r" in
          let Hword := fresh "Hword" in
          let Hr := fresh "Hrun" in
          let Htyped := fresh "Htyped" in
          let Hnothrow := fresh "Hnothrow" in
          destruct (processAudioChallenge_run a l1 w1)
            as (r & ? & ? & Hr & Htyped & Hword & Hnothrow & _);
          rewrite Hr in Ho; clear Hr;
          destruct r as [[[?|]|?]|];
          [ | | exfalso; eapply Hnothrow; reflexivity | ];
          reduce_run_in Ho
      end
    | exec_env_step Ho
    | match type of Ho with
      | context [match ?x with _ => _ end] => is_var x; destruct x; reduce_run_in Ho
      end ].

(** Whatever [solveRecaptchaAudio] of [messengerrrr.js] types is one of the
    ten words. *)
Lemma only_mock_words_typed {L} (l : L) (w : World) :
  Forall is_mock_word
         (typed_texts (trace (MessengerrrrJs.solveRecaptchaAudio env l w))).
Proof.
  set (o := MessengerrrrJs.solveRecaptchaAudio env l w).
  assert (Ho : o = MessengerrrrJs.solveRecaptchaAudio env l w) by reflexivity.
  clearbody o. unfold MessengerrrrJs.solveRecaptchaAudio in Ho. unfold_run_in Ho.
  pose proof (tickCheckbox_types_nothing l w) as Htick.
  destruct (tickCheckbox env l w) as [[[[frame|]|msg]|] t0 l0 w0];
    cbn [trace] in Htick; reduce_run_in Ho.
  2, 3, 4: subst o; cbn [trace]; rewrite ?app_nil_r, Htick; constructor.
  repeat audio_step Ho.
  all: subst o; cbn [trace].
  all: repeat (rewrite typed_texts_app || cbn [typed_texts app]).
  all: repeat match goal with
         | H : typed_texts ?t = [] |- context [typed_texts ?t] => rewrite H
         end; cbn [app].
  all: repeat first [ apply Forall_nil | apply Forall_cons ].
  all: eexists; split; [reflexivity|]; match goal with
                                        | H : forall _, _ -> In _ _ |- _ =>
                                            apply H; reflexivity
                                        end.
Qed.

(** When there is a challenge frame and the strategy returns [true], it has
    typed one of the ten words into the response field and has then clicked
    the verify button. *)
Lemma fabricated_answer_is_submitted {L} (l : L) (w : World) (frame : Frame) :
  res (tickCheckbox env l w) = Ok (Some frame) ->
  let o := MessengerrrrJs.solveRecaptchaAudio env l w in
  res o = Ok true ->
  exists input verify word d1 d2 d3,
    In word MessengerrrrJs.numbers
    /\ ends_with (answer_steps frame input word verify d1 d2 d3) (trace o).
Proof.
  intros Hframe o.
  assert (Ho : o = MessengerrrrJs.solveRecaptchaAudio env l w) by reflexivity.
  clearbody o. unfold MessengerrrrJs.solveRecaptchaAudio in Ho. unfold_run_in Ho.
  destruct (tickCheckbox env l w) as [[[[frame'|]|msg]|] t0 l0 w0];
    cbn [res] in Hframe; try discriminate.
  injection Hframe as ->. reduce_run_in Ho.
  repeat audio_step Ho.
  all: subst o; cbn [res trace]; intros Hres; try discriminate.
  all: do 6 eexists; split; cycle 1.
  all: try (unfold answer_steps;
            repeat first [ apply ends_with_refl | apply ends_with_cons
                         | apply ends_with_app ]).
  all: match goal with
       | H : forall _, _ -> In _ _ |- _ => apply H; reflexivity
       end.
Qed.

(** [solveRecaptchaAudio] of [messenger.js] types nothing, and gives up as
    soon as there is a challenge frame. *)
Lemma no_audio_path {L} (l : L) (w : World) :
  typed_texts (trace (MessengerJs.solveRecaptchaAudio env l w)) = []
  /\ (forall frame, res (tickCheckbox env l w) = Ok (Some frame) ->
                    res (MessengerJs.solveRecaptchaAudio env l w) = Ok false).
Proof.
  unfold MessengerJs.solveRecaptchaAudio, try_catch, bind, ret.
  pose proof (tickCheckbox_types_nothing l w) as Htick.
  destruct (tickCheckbox env l w) as [[[[frame|]|msg]|] t0 l0 w0];
    cbn [trace res] in *; rewrite ?app_nil_r; split; auto; discriminate.
Qed.

End Transcription.

(** C10, as the scripts have it.  No transcription backend exists in either
    script.  In [messengerrrr.js], [processAudioChallenge] answers with one
    of the ten words "zero" ... "nine" as soon as the download of the audio
    completes; when there is a challenge frame and [solveRecaptchaAudio]
    returns [true], its last calls are the look-up of the response field, a
    click on it, the typing of one of the ten words into it, the look-up of
    the verify button and a click on it; and it types nothing else than
    these words.  In [messenger.js], [solveRecaptchaAudio] types nothing
    and returns [false] as soon as a challenge frame shows up. *)
Theorem mock_transcription :
  forall (env : Env) (link : option string) (w : World),
    (env_download env (clock w) link = Arrives ->
     exists word,
       In word MessengerrrrJs.numbers
       /\ res (MessengerrrrJs.processAudioChallenge env link tt w) = Ok (Some word))
    /\ (let o := MessengerrrrJs.solveRecaptchaAudio env tt w in
        Forall is_mock_word (typed_texts (trace o))
        /\ forall frame,
            res (tickCheckbox env tt w) = Ok (Some frame) ->
            res o = Ok true ->
            exists input verify word d1 d2 d3,
              In word MessengerrrrJs.numbers
              /\ ends_with (answer_steps frame input word verify d1 d2 d3) (trace o))
    /\ typed_texts (trace (MessengerJs.solveRecaptchaAudio env tt w)) = []
    /\ (forall frame, res (tickCheckbox env tt w) = Ok (Some frame) ->
                      res (MessengerJs.solveRecaptchaAudio env tt w) = Ok false).
Proof.
  intros env link w. split; [|split; [split|apply no_audio_path]].
  - intros Hdownload.
    destruct (processAudioChallenge_run env link tt w)
      as (r & t & w1 & Hrun & _ & Hword & _ & Hsome).
    destruct (Hsome Hdownload) as [word ->].
    exists word. rewrite Hrun. split; [apply Hword|]; reflexivity.
  - apply only_mock_words_typed.
  - intros frame Hframe Htrue.
    apply (fabricated_answer_is_submitted env tt w frame Hframe Htrue).
Qed.

Lemma mock_transcription_witness :
  (exists word,
     In word MessengerrrrJs.numbers
     /\ res (MessengerrrrJs.processAudioChallenge audio_challenge
               (Some "https://www.google.com/recaptcha/api2/payload/audio.mp3")
               tt fresh_world) = Ok (Some word))
  /\ (exists input verify word d1 d2 d3,
         In word MessengerrrrJs.numbers
         /\ ends_with (answer_steps
                         (mkFrame 2 "https://www.google.com/recaptcha/api2/bframe?k=1")
                         input word verify d1 d2 d3)
                      (trace (MessengerrrrJs.solveRecaptchaAudio audio_challenge tt
                                fresh_world)))
  /\ res (MessengerJs.solveRecaptchaAudio audio_challenge tt fresh_world) = Ok false.
Proof.
  destruct (mock_transcription audio_challenge
              (Some "https://www.google.com/recaptcha/api2/payload/audio.mp3")
              fresh_world) as (Hword & [_ Htyped] & _ & Hfalse).
  split; [apply Hword; reflexivity|]. split.
  - apply (Htyped (mkFrame 2 "https://www.google.com/recaptcha/api2/bframe?k=1"));
      vm_compute; reflexivity.
  - apply (Hfalse (mkFrame 2 "https://www.google.com/recaptcha/api2/bframe?k=1")).
    vm_compute. reflexivity.
Defined.

(** C10, as the specification has it, fails: with a challenge frame and a
    download that completes, [solveRecaptchaAudio] of [messengerrrr.js]
    types "five", the word that [Math.random() = 1/2] picks, into the
    response field, clicks the verify button and returns [true]. *)
Lemma fabricated_answer_is_typed :
  let o := MessengerrrrJs.solveRecaptchaAudio audio_challenge tt fresh_world in
  res o = Ok true
  /\ typed_texts (trace o) = [JStr "five"]
  /\ exists input verify d1 d2 d3 t,
      trace o
      = (t ++ answer_steps (mkFrame 2 "https://www.google.com/recaptcha/api2/bframe?k=1")
                input "five" verify d1 d2 d3)%list.
Proof.
  split; [vm_compute; reflexivity|]. split; [vm_compute; reflexivity|].
  assert (H : exists input verify d1 d2 d3,
             ends_with
               (answer_steps (mkFrame 2 "https://www.google.com/recaptcha/api2/bframe?k=1")
                  input "five" verify d1 d2 d3)
               (trace (MessengerrrrJs.solveRecaptchaAudio audio_challenge tt fresh_world))).
  { remember (trace (MessengerrrrJs.solveRecaptchaAudio audio_challenge tt fresh_world))
      as tr eqn:Htr.
    vm_compute in Htr. subst tr. do 5 eexists. unfold answer_steps.
    repeat first [ apply ends_with_refl | apply ends_with_cons ]. }
  destruct H as (input & verify & d1 & d2 & d3 & t & Ht).
  exists input, verify, d1, d2, d3, t. exact Ht.
Qed.

(* ====================================================================== *)
(** * The login state machine *)
(* ====================================================================== *)

Lemma never_returns_bind_l {L A B} (m : M L A) (f : A -> M L B) :
  never_returns m -> never_returns (bind m f).
Proof.
  intros Hm l w. unfold bind. destruct (Hm l w) as [msg Hmsg].
  destruct (m l w) as [[[a|msg']|] t l1 w1]; cbn [res] in *; try discriminate.
  eexists; reflexivity.
Qed.

Lemma never_returns_bind_r {L A B} (m : M L A) (f : A -> M L B) :
  settles m -> (forall a, never_returns (f a)) -> never_returns (bind m f).
Proof.
  intros Hm Hf l w. unfold bind. specialize (Hm l w).
  destruct (m l w) as [[[a|msg']|] t l1 w1];
    [|eexists; reflexivity|exfalso; apply Hm; reflexivity].
  destruct (Hf a l1 w1) as [msg Hmsg].
  destruct (f a l1 w1) as [r t2 l2 w2]; cbn [res] in *. eexists; exact Hmsg.
Qed.

Lemma never_returns_rethrow {L A} (m : M L A) :
  never_returns m -> never_returns (try_catch m (fun error => throw error)).
Proof.
  intros Hm l w. unfold try_catch, throw. destruct (Hm l w) as [msg Hmsg].
  destruct (m l w) as [[[a|msg']|] t l1 w1]; cbn [res] in *; try discriminate.
  eexists; reflexivity.
Qed.

Section Login.

Variable env : Env.

(** The login of [messenger.js] throws on every page. *)
Lemma login_never_returns {L} (email password : string) :
  never_returns (@MessengerJs.performFacebookLogin env L email password).
Proof.
  unfold MessengerJs.performFacebookLogin.
  apply never_returns_rethrow.
  apply never_returns_bind_r; [settle|intros _].
  apply never_returns_bind_r; [settle|intros emailField].
  apply never_returns_bind_r; [settle|intros _].
  apply never_returns_bind_r; [settle|intros passwordField].
  apply never_returns_bind_l.
  apply fill_password_never_returns.
Qed.

Ltac submit_side := intros; reflexivity.

Lemma humanClick_no_submit {L} (t : Target) :
  confined any_env no_submit_step (@humanClick env L t).
Proof.
  unfold humanClick, humanMove, receiver.
  destruct t; confine submit_side ltac:(fail).
Qed.

Lemma humanType_no_submit {L} (t : Target) (text : JsVal) (min max : Z) :
  confined any_env no_submit_step (@humanType env L t text min max).
Proof.
  unfold humanType, receiver.
  destruct t; confine submit_side ltac:(fail).
Qed.

(** The login of [messenger.js] never gets to the submission of the form. *)
Lemma login_no_submit {L} (email password : string) :
  confined any_env no_submit_step
           (@MessengerJs.performFacebookLogin env L email password).
Proof.
  unfold MessengerJs.performFacebookLogin.
  pose proof (@humanClick_no_submit L) as Hclick.
  pose proof (@humanType_no_submit L) as Htype.
  apply confined_try_catch; [|confine submit_side ltac:(assumption)].
  apply confined_bind; [confine submit_side ltac:(assumption)|intros _].
  apply confined_bind; [confine submit_side ltac:(assumption)|intros emailField].
  apply confined_bind;
    [confine submit_side ltac:(first [apply Hclick | apply Htype])|intros _].
  apply confined_bind; [confine submit_side ltac:(assumption)|intros passwordField].
  apply confined_bind_dead;
    [confine submit_side ltac:(first [apply Hclick | apply Htype])|].
  apply fill_password_never_returns.
Qed.

End Login.

(** C6 fails on [messenger.js].  Its login throws on every page and never
    gets to the submission of the form: no look-up of the login button, no
    Enter key, no wait for the navigation.  ([humanType] is given the
    selector of the password field, not its handle.) *)
Theorem login_never_submits :
  forall (env : Env) (email password : string) (w : World),
    let o := MessengerJs.performFacebookLogin env email password tt w in
    (exists msg, res o = Throw msg)
    /\ forallb no_submit_step (trace o) = true.
Proof.
  intros env email password w o. split.
  - apply login_never_returns.
  - apply (login_no_submit env email password tt w I).
Qed.

(** On a page where every field is found: [messenger.js] types the e-mail
    address, clicks the password field and throws a [TypeError]; the
    password is not typed and the form is not submitted.
    [messengerrrr.js] types both, submits the form and returns [true]. *)
Example login_on_cooperative_page :
  let broken := MessengerJs.performFacebookLogin cooperative "a@x.com" "secret" tt
                  fresh_world in
  let sound := MessengerrrrJs.performFacebookLogin cooperative (Some "a@x.com")
                 (Some "secret") tt fresh_world in
  (res broken = Throw "elementHandle.click is not a function"
   /\ typed_texts (trace broken) = keystrokes "a@x.com"
   /\ existsb is_submit_step (trace broken) = false)
  /\ (res sound = Ok true
      /\ typed_texts (trace sound) = (keystrokes "a@x.com" ++ keystrokes "secret")%list
      /\ existsb is_submit_step (trace sound) = true).
Proof. vm_compute. repeat split. Qed.

(* ====================================================================== *)
(** * Input validation *)
(* ====================================================================== *)

(** [messenger.js]: whatever the input and the environment variables, the
    identity and the secret are the built-in literals. *)
Lemma credentials_are_builtin (raw : JsVal) (pe : ProcessEnv) :
  MessengerJs.r_loginEmail (MessengerJs.resolve raw pe)
  = JStr MessengerJs.hardcoded_loginEmail
  /\ MessengerJs.r_loginPassword (MessengerJs.resolve raw pe)
     = JStr MessengerJs.hardcoded_loginPassword.
Proof. split; reflexivity. Qed.

(** [messenger.js]: an input without [profiles] and [message] passes the
    validation, with the built-in profiles and message. *)
Lemma empty_input_is_accepted (pe : ProcessEnv) :
  MessengerJs.validate (MessengerJs.resolve JUndefined pe) = None
  /\ MessengerJs.r_profiles (MessengerJs.resolve JUndefined pe)
     = MessengerJs.default_profiles
  /\ MessengerJs.r_message (MessengerJs.resolve JUndefined pe) = JStr "Hello World".
Proof. repeat split. Qed.

(** [runMessenger] throws before anything is done when its validation
    fails, and its validation fails when a required field is missing. *)
Lemma runMessenger_fails_fast (env : Env) (input : JsVal) (w : World) (msg : string) :
  MessengerrrrJs.validate input = Some msg ->
  MessengerrrrJs.runMessenger env input tt w = mkOut (Throw msg) [] tt w.
Proof. intros H. unfold MessengerrrrJs.runMessenger. rewrite H. reflexivity. Qed.

Lemma runMessenger_requires (input : JsVal) (field : string) :
  In field ["loginEmail"; "loginPassword"; "profiles"; "message"] ->
  truthy (get_prop input field) = false ->
  exists msg, MessengerrrrJs.validate input = Some msg.
Proof.
  intros Hfield Hfalsy. unfold MessengerrrrJs.validate.
  destruct input; try (eexists; reflexivity).
  cbn [In] in Hfield.
  destruct Hfield as [<-|[<-|[<-|[<-|[]]]]]; rewrite Hfalsy; cbn [negb orb];
    rewrite ?orb_true_r.
  - eexists; reflexivity.
  - eexists; reflexivity.
  - destruct (_ || _); eexists; reflexivity.
  - destruct (_ || _); [eexists; reflexivity|].
    destruct (_ || _); eexists; reflexivity.
Qed.

(** C7 fails on [messenger.js].  Whatever the input, the identity and the
    secret it works with are the built-in literals, not the supplied values;
    on an input that supplies nothing the validation passes, with the
    built-in profiles and message, and the first call of the run launches
    the browser. *)
Theorem builtin_values_replace_the_input :
  forall (env : Env) (raw : JsVal) (w : World),
    let r := MessengerJs.resolve raw (penv w) in
    let nothing := MessengerJs.resolve JUndefined (penv w) in
    MessengerJs.r_loginEmail r = JStr MessengerJs.hardcoded_loginEmail
    /\ MessengerJs.r_loginPassword r = JStr MessengerJs.hardcoded_loginPassword
    /\ MessengerJs.validate nothing = None
    /\ MessengerJs.r_profiles nothing = MessengerJs.default_profiles
    /\ MessengerJs.r_message nothing = JStr "Hello World"
    /\ exists threw rest,
        trace (MessengerJs.main env JUndefined tt w)
        = EDo (ALaunch (JBool false)) threw :: rest.
Proof.
  intros env raw w r nothing.
  split; [reflexivity|]. split; [reflexivity|]. split; [reflexivity|].
  split; [reflexivity|]. split; [reflexivity|].
  unfold MessengerJs.main. unfold bind at 1, process_env.
  change (MessengerJs.validate (MessengerJs.resolve JUndefined (penv w))) with (@None string).
  cbv iota.
  change (MessengerJs.typed (MessengerJs.resolve JUndefined (penv w)))
    with (Some (MessengerJs.hardcoded_loginEmail,
                [ mkProfile "profile-001" "https://www.facebook.com/terri.lopez.9659283";
                  mkProfile "profile-002"
                            "https://www.facebook.com/profile.php?id=61559986547821" ],
                "Hello World")).
  cbv iota beta.
  unfold bind at 1, act.
  change (MessengerJs.r_headless (MessengerJs.resolve JUndefined (penv w)))
    with (JBool false).
  destruct (env_do env (clock w) (ALaunch (JBool false))) as [msg|].
  - do 2 eexists. reflexivity.
  - match goal with
    | |- context [match ?m ?l0 ?w0 with _ => _ end] => destruct (m l0 w0)
    end.
    do 2 eexists. reflexivity.
Qed.

(** A full input ([a@x.com], one profile, "hi"): the run of [messenger.js]
    saves its cookies under the built-in identity, not under the supplied
    one, and the run of [main.js] on an input without a message throws
    before the browser is launched. *)
Example supplied_identity_is_ignored :
  let o := MessengerJs.main cooperative (sample_input true) tt fresh_world in
  let key := "cookies-" ++ sanitize MessengerJs.hardcoded_loginEmail in
  existsb (fun e => match e with
                    | EStored k _ => (k =? key)%string
                    | _ => false
                    end) (trace o) = true
  /\ existsb (fun e => match e with
                       | EStored k _ => (k =? "cookies-a@x.com")%string
                       | _ => false
                       end) (trace o) = false.
Proof. vm_compute. split; reflexivity. Qed.

Example main_js_fails_fast :
  let input := JObj [ ("loginEmail", JStr "a@x.com"); ("loginPassword", JStr "s");
                      ("profiles", JArr [ JObj [ ("id", JStr "p1"); ("url", JStr "u1") ] ]) ] in
  let o := MainJs.main cooperative input tt fresh_world in
  res o = Throw "message required in INPUT.json or Apify Console."
  /\ existsb is_launch (trace o) = false.
Proof. vm_compute. split; reflexivity. Qed.

(* ====================================================================== *)
(** * The utility helpers *)
(* ====================================================================== *)

(** X1.  [rand(min, max)] with [min <= max] returns an integer between
    [min] and [max], both included, whatever [Math.random()] draws; it makes
    no call and takes no time. *)
Theorem rand_in_range :
  forall (env : Env) (L : Type) (min max : Z) (l : L) (w : World),
    min <= max ->
    let o := rand env min max l w in
    (exists v, res o = Ok v /\ min <= v <= max)
    /\ trace o = []
    /\ now (world o) = now w.
Proof.
  intros env L min max l w Hle o. subst o. rewrite rand_run. cbn.
  split; [|split; reflexivity].
  eexists. split; [reflexivity|]. apply rand_value_range. exact Hle.
Qed.

Lemma rand_in_range_witness :
  let o := rand cooperative 3 6 tt fresh_world in
  (exists v, res o = Ok v /\ 3 <= v <= 6)
  /\ trace o = []
  /\ now (world o) = now fresh_world.
Proof. apply (rand_in_range cooperative unit 3 6 tt fresh_world). lia. Defined.

(* ---------------------------------------------------------------------- *)
(** ** Loops *)

Lemma bind_ret {L A B} (a : A) (f : A -> M L B) (l : L) (w : World) :
  bind (ret a) f l w = f a l w.
Proof. unfold bind, ret. destruct (f a l w). reflexivity. Qed.

Section Loops.

Variables (L A : Type).
Variable f : Event -> bool.
Variable body : A -> M L unit.

(** A loop whose every turn makes one call of a kind makes as many calls of
    that kind as it has turns, and fewer only if it throws. *)
Lemma for_each_count :
  (forall x l w,
      let o := body x l w in
      (List.length (filter f (trace o)) <= 1)%nat
      /\ (res o = Ok tt -> List.length (filter f (trace o)) = 1%nat)) ->
  forall (items : list A) (l : L) (w : World),
    let o := for_each items body l w in
    (List.length (filter f (trace o)) <= List.length items)%nat
    /\ (res o = Ok tt -> List.length (filter f (trace o)) = List.length items).
Proof.
  intros Hbody items. induction items as [|x items IH]; intros l w; cbn [for_each].
  - cbn. split; [lia|reflexivity].
  - unfold bind. destruct (Hbody x l w) as [Hle Heq].
    destruct (body x l w) as [[[[]|msg]|] t l1 w1]; cbn [res trace] in *.
    + destruct (IH l1 w1) as [Hle2 Heq2].
      destruct (for_each items body l1 w1) as [r t2 l2 w2]; cbn [res trace] in *.
      rewrite filter_app, length_app. cbn [List.length]. split; [lia|].
      intros Hr. rewrite Heq, Heq2 by auto. reflexivity.
    + cbn [List.length]. split; [lia|discriminate].
    + cbn [List.length]. split; [lia|discriminate].
Qed.

(** A property of the calls of every turn is a property of the calls of the
    loop. *)
Lemma for_each_forall :
  (forall x l w, forallb f (trace (body x l w)) = true) ->
  forall (items : list A) (l : L) (w : World),
    forallb f (trace (for_each items body l w)) = true.
Proof.
  intros Hbody items. induction items as [|x items IH]; intros l w; cbn [for_each].
  - reflexivity.
  - unfold bind. pose proof (Hbody x l w) as Hx.
    destruct (body x l w) as [[[[]|msg]|] t l1 w1]; cbn [trace] in *;
      [|exact Hx|exact Hx].
    pose proof (IH l1 w1) as Hrest.
    destruct (for_each items body l1 w1) as [r t2 l2 w2]; cbn [trace] in *.
    rewrite forallb_app, Hx, Hrest. reflexivity.
Qed.

End Loops.

(* ---------------------------------------------------------------------- *)
(** ** Runs that stop *)

Lemma stopped_at_download_app (a b : list Event) :
  stopped_at_download b -> stopped_at_download (a ++ b).
Proof.
  intros (t & link & d & -> & Hd). exists (a ++ t)%list, link, d.
  rewrite app_assoc. split; [reflexivity|exact Hd].
Qed.

Section Stopping.

Variable env : Env.

Lemma stops_of_settles {L A} (m : M L A) : settles m -> stops_at_download m.
Proof. intros Hm l w Hres. destruct (Hm l w Hres). Qed.

Lemma stops_bind {L A B} (m : M L A) (f : A -> M L B) :
  stops_at_download m -> (forall a, stops_at_download (f a)) ->
  stops_at_download (bind m f).
Proof.
  intros Hm Hf l w. unfold bind. specialize (Hm l w).
  destruct (m l w) as [[[a|msg]|] t l1 w1]; cbn [res trace] in *;
    [|discriminate|intros _; apply Hm; reflexivity].
  specialize (Hf a l1 w1).
  destruct (f a l1 w1) as [r t2 l2 w2]; cbn [res trace] in *.
  intros Hr. apply stopped_at_download_app. apply Hf. exact Hr.
Qed.

Lemma stops_try_catch {L A} (m : M L A) (handler : string -> M L A) :
  stops_at_download m -> (forall msg, stops_at_download (handler msg)) ->
  stops_at_download (try_catch m handler).
Proof.
  intros Hm Hh l w. unfold try_catch. specialize (Hm l w).
  destruct (m l w) as [[[a|msg]|] t l1 w1]; cbn [res trace] in *;
    [discriminate| |intros _; apply Hm; reflexivity].
  specialize (Hh msg l1 w1).
  destruct (handler msg l1 w1) as [r t2 l2 w2]; cbn [res trace] in *.
  intros Hr. apply stopped_at_download_app. apply Hh. exact Hr.
Qed.

Lemma stops_try_finally {L A} (m : M L A) (cleanup : M L unit) :
  stops_at_download m -> stops_at_download cleanup ->
  stops_at_download (try_finally m cleanup).
Proof.
  intros Hm Hc l w. unfold try_finally. specialize (Hm l w).
  destruct (m l w) as [[r|] t l1 w1]; cbn [res trace] in *;
    [|intros _; apply Hm; reflexivity].
  specialize (Hc l1 w1).
  destruct (cleanup l1 w1) as [[[[]|msg]|] t2 l2 w2]; cbn [res trace] in *;
    try discriminate.
  intros _. apply stopped_at_download_app. apply Hc. reflexivity.
Qed.

Lemma stops_call {L L' A} (init : L') (m : M L' A) :
  stops_at_download m -> stops_at_download (@call L L' A init m).
Proof.
  intros Hm l w. unfold call. specialize (Hm init w).
  destruct (m init w) as [r t l1 w1]. cbn [res trace] in *.
  intros Hr. apply Hm. subst r. reflexivity.
Qed.

Lemma stops_downloadAudio {L} (link : option string) :
  stops_at_download (@MessengerrrrJs.downloadAudio env L link).
Proof.
  intros l w. unfold MessengerrrrJs.downloadAudio. cbn [res trace].
  intros Hres. exists nil, link, (env_download env (clock w) link).
  split; [reflexivity|].
  destruct (env_download env (clock w) link); try discriminate; reflexivity.
Qed.

End Stopping.

(** That a computation stops only at a download, by its structure; [known]
    deals with the functions it calls. *)
Ltac stop_step known :=
  first
    [ solve [known]
    | solve [apply stops_of_settles; settle]
    | apply stops_downloadAudio
    | apply stops_call
    | apply stops_try_catch; [|intros ?]
    | apply stops_try_finally
    | apply stops_bind; [|intros ?]
    | match goal with
      | |- stops_at_download (match ?x with _ => _ end) => destruct x
      | |- stops_at_download (if ?x then _ else _) => destruct x
      | |- stops_at_download (let _ := _ in _) => cbv zeta
      end ].

Section StoppingMessengerrrrJs.

Variable env : Env.

Lemma processAudioChallenge_stops {L} (link : option string) :
  stops_at_download (@MessengerrrrJs.processAudioChallenge env L link).
Proof.
  unfold MessengerrrrJs.processAudioChallenge. repeat stop_step ltac:(fail).
Qed.

Lemma solveRecaptchaAudio_stops {L} :
  stops_at_download (@MessengerrrrJs.solveRecaptchaAudio env L).
Proof.
  unfold MessengerrrrJs.solveRecaptchaAudio.
  repeat stop_step ltac:(apply processAudioChallenge_stops).
Qed.

Lemma solveCaptcha_stops {L} : stops_at_download (@MessengerrrrJs.solveCaptcha env L).
Proof.
  unfold MessengerrrrJs.solveCaptcha.
  repeat stop_step ltac:(apply solveRecaptchaAudio_stops).
Qed.

Lemma performFacebookLogin_stops {L} (email password : option string) :
  stops_at_download (@MessengerrrrJs.performFacebookLogin env L email password).
Proof.
  unfold MessengerrrrJs.performFacebookLogin.
  repeat stop_step ltac:(apply solveCaptcha_stops).
Qed.

Lemma reach_profile_stops {L} (profile : Profile) :
  stops_at_download (@MessengerrrrJs.reach_profile env L profile).
Proof.
  unfold MessengerrrrJs.reach_profile.
  repeat stop_step ltac:(apply performFacebookLogin_stops).
Qed.

Lemma sendMessageToProfile_stops {L} (profile : Profile) (message : JsVal) :
  stops_at_download (@MessengerrrrJs.sendMessageToProfile env L profile message).
Proof.
  unfold MessengerrrrJs.sendMessageToProfile.
  repeat stop_step ltac:(apply reach_profile_stops).
Qed.

Lemma profile_turn_stops (message : JsVal) (i : nat) (profile : Profile) :
  stops_at_download (MessengerrrrJs.profile_turn env message i profile).
Proof.
  unfold MessengerrrrJs.profile_turn, MessengerrrrJs.logResult.
  repeat stop_step ltac:(apply sendMessageToProfile_stops).
Qed.

Lemma profile_loop_stops (message : JsVal) (profiles : list Profile) :
  forall i, stops_at_download (MessengerrrrJs.profile_loop env message i profiles).
Proof.
  induction profiles as [|profile rest IH]; intros i;
    cbn [MessengerrrrJs.profile_loop];
    repeat stop_step ltac:(first [ apply profile_turn_stops | apply IH ]).
Qed.

Lemma processAll_stops (profiles : list Profile) (message : JsVal) :
  stops_at_download (MessengerrrrJs.processAll env profiles message).
Proof.
  unfold MessengerrrrJs.processAll, MessengerrrrJs.launchBrowser.
  repeat stop_step ltac:(apply profile_loop_stops).
Qed.

Lemma runMessenger_stops (input : JsVal) :
  stops_at_download (MessengerrrrJs.runMessenger env input).
Proof.
  unfold MessengerrrrJs.runMessenger.
  repeat stop_step ltac:(apply processAll_stops).
Qed.

Lemma entry_stops (input : JsVal) : stops_at_download (MainJs.main env input).
Proof.
  unfold MainJs.main.
  repeat stop_step ltac:(apply runMessenger_stops).
Qed.

End StoppingMessengerrrrJs.

(* ====================================================================== *)
(** * The behaviour simulator, continued *)
(* ====================================================================== *)

Lemma append_empty (s : string) : s ++ EmptyString = s.
Proof. induction s as [|c s IH]; cbn; [reflexivity|rewrite IH; reflexivity]. Qed.

Lemma concat_cons (x : string) (xs : list string) :
  String.concat EmptyString (x :: xs) = x ++ String.concat EmptyString xs.
Proof. destruct xs; cbn; [rewrite append_empty|]; reflexivity. Qed.

Lemma concat_code_points (text : string) :
  String.concat EmptyString (code_points text) = text.
Proof.
  induction text as [|c text IH]; [reflexivity|].
  cbn [code_points]. cbv zeta.
  destruct (code_points text) as [|p ps] eqn:Hpoints.
  - cbn in IH. subst text. reflexivity.
  - rewrite concat_cons in IH.
    destruct (match text with
              | String c' _ => is_continuation c'
              | EmptyString => false
              end).
    + rewrite concat_cons. cbn [append]. rewrite IH. reflexivity.
    + rewrite concat_cons, concat_cons. cbn [append]. rewrite IH. reflexivity.
Qed.

Lemma typed_string_strings (pieces : list string) :
  typed_string (map JStr pieces) = Some (String.concat EmptyString pieces).
Proof.
  induction pieces as [|p pieces IH]; [reflexivity|].
  cbn [map typed_string]. rewrite IH, concat_cons. reflexivity.
Qed.

Lemma typed_string_keystrokes (text : string) :
  typed_string (keystrokes text) = Some text.
Proof.
  unfold keystrokes. rewrite typed_string_strings, concat_code_points. reflexivity.
Qed.

Lemma append_assoc (a b c : string) : (a ++ b) ++ c = a ++ (b ++ c).
Proof. induction a as [|x a IH]; cbn; [reflexivity|rewrite IH; reflexivity]. Qed.

Lemma typed_string_firstn (pieces : list string) :
  forall n, exists typed rest,
    typed_string (firstn n (map JStr pieces)) = Some typed
    /\ typed ++ rest = String.concat EmptyString pieces.
Proof.
  induction pieces as [|p pieces IH]; intros n.
  - exists EmptyString, EmptyString. destruct n; split; reflexivity.
  - destruct n as [|n].
    + exists EmptyString, (String.concat EmptyString (p :: pieces)).
      split; reflexivity.
    + destruct (IH n) as (typed & rest & Htyped & Hrest).
      exists (p ++ typed), rest. cbn [map firstn typed_string].
      rewrite Htyped. split; [reflexivity|].
      rewrite concat_cons, append_assoc, Hrest. reflexivity.
Qed.

(** What has been typed after some of the keystrokes is a beginning of the
    text. *)
Lemma typed_string_firstn_keystrokes (text : string) (n : nat) :
  exists typed rest,
    typed_string (firstn n (keystrokes text)) = Some typed
    /\ typed ++ rest = text.
Proof.
  destruct (typed_string_firstn (code_points text) n) as (typed & rest & Htyped & Hrest).
  rewrite concat_code_points in Hrest. exists typed, rest. split; assumption.
Qed.

Section Simulator.

Variable env : Env.

(** The typing loop of [humanType]. *)
Lemma type_loop {L} (e : ElementHandle) (min max : Z) (pieces : list JsVal) :
  forall (l : L) (w : World),
    let o := for_each pieces (fun char =>
               act env (AType e char) ;;
               d <- rand env min max ;;
               delay d) l w in
    (exists n, typed_texts (trace o) = firstn n pieces)
    /\ (res o = Ok tt -> typed_texts (trace o) = pieces)
    /\ res o <> Stopped.
Proof.
  induction pieces as [|c pieces IH]; intros l w o.
  - cbn. split; [exists 0%nat; reflexivity|]. split; [reflexivity|discriminate].
  - assert (Ho : o = (bind (act env (AType e c) ;;
                            d <- rand env min max ;; delay d)
                           (fun _ => for_each pieces (fun char =>
                              act env (AType e char) ;;
                              d <- rand env min max ;;
                              delay d)) l w)) by reflexivity.
    clearbody o.
    match type of Ho with
    | context [for_each ?cs ?b] => set (loop := for_each cs b) in Ho
    end.
    assert (Hloop : forall l w,
               (exists n, typed_texts (trace (loop l w)) = firstn n pieces)
               /\ (res (loop l w) = Ok tt -> typed_texts (trace (loop l w)) = pieces)
               /\ res (loop l w) <> Stopped)
      by (exact IH).
    clearbody loop. clear IH.
    unfold bind at 1 2 3, act, delay in Ho.
    destruct (env_do env (clock w) (AType e c)) as [msg|];
      reduce_run_in Ho.
    + subst o. cbn. split; [exists 1%nat; reflexivity|]. split; discriminate.
    + rewrite rand_run in Ho. reduce_run_in Ho.
      match type of Ho with
      | context [loop ?l1 ?w1] =>
          destruct (Hloop l1 w1) as ([n Hn] & Hall & Hsettles);
          destruct (loop l1 w1) as [r t2 l2 w2]
      end.
      cbn [res trace] in *. subst o. cbn [res trace typed_texts app map].
      split; [|split].
      * exists (S n). cbn [firstn]. rewrite Hn. reflexivity.
      * intros Hr. rewrite Hall by exact Hr. reflexivity.
      * exact Hsettles.
Qed.

(** [humanType] on an element handle. *)
Lemma humanType_run {L} (e : ElementHandle) (text : string) (min max : Z)
      (l : L) (w : World) :
  let o := humanType env (THandle e) (JStr text) min max l w in
  (exists r rest, trace o = EDo (AClick e (Some 3) None) r :: rest)
  /\ (exists n, typed_texts (trace o) = firstn n (keystrokes text))
  /\ (res o = Ok tt -> typed_texts (trace o) = keystrokes text)
  /\ res o <> Stopped.
Proof.
  intros o.
  assert (Ho : o = humanType env (THandle e) (JStr text) min max l w) by reflexivity.
  clearbody o. unfold humanType, receiver in Ho. rewrite bind_ret in Ho.
  cbn [for_of] in Ho. fold (keystrokes text) in Ho.
  match type of Ho with
  | context [for_each ?cs ?b] => set (loop := for_each cs b) in Ho
  end.
  assert (Hloop : forall l w,
             (exists n, typed_texts (trace (loop l w)) = firstn n (keystrokes text))
             /\ (res (loop l w) = Ok tt -> typed_texts (trace (loop l w)) = keystrokes text)
             /\ res (loop l w) <> Stopped)
    by (apply type_loop).
  clearbody loop.
  unfold bind, ret, act, delay in Ho. reduce_run_in Ho.
  destruct (env_do env (clock w) (AClick e (Some 3) None)) as [msg|];
    reduce_run_in Ho.
  - subst o. cbn. split; [do 2 eexists; reflexivity|].
    split; [exists 0%nat; reflexivity|]. split; discriminate.
  - rewrite rand_run in Ho. reduce_run_in Ho.
    match type of Ho with
    | context [loop ?l1 ?w1] =>
        destruct (Hloop l1 w1) as ([n Hn] & Hall & Hsettles);
        destruct (loop l1 w1) as [r t2 l2 w2]
    end.
    cbn [res trace] in *. subst o. cbn [res trace typed_texts app].
    split; [do 2 eexists; reflexivity|].
    split; [exists n; exact Hn|]. split; [exact Hall|exact Hsettles].
Qed.

(** One turn of the loop of [humanMove] moves the pointer once. *)
Lemma humanMove_run {L} (from_x from_y to_x to_y : Q) (steps : nat) (l : L) (w : World) :
  let o := humanMove env from_x from_y to_x to_y steps l w in
  (List.length (filter is_pointer_move (trace o)) <= S steps)%nat
  /\ (res o = Ok tt -> List.length (filter is_pointer_move (trace o)) = S steps)
  /\ forallb (fun e => negb (is_click e)) (trace o) = true.
Proof.
  intros o. subst o. unfold humanMove. cbv zeta.
  match goal with
  | |- context [for_each ?items ?b l w] => set (body := b)
  end.
  assert (Hbody : forall x l w,
             let o := body x l w in
             (List.length (filter is_pointer_move (trace o)) <= 1)%nat
             /\ (res o = Ok tt ->
                 List.length (filter is_pointer_move (trace o)) = 1%nat)).
  { clear. intros i l w. subst body.
    unfold bind, Math_random, act, delay. rewrite ?rand_run.
    destruct (env_do env _ _); cbn; [split; [lia|discriminate]|].
    rewrite rand_run. cbn. split; [lia|reflexivity]. }
  assert (Hquiet : forall x l w,
             forallb (fun e => negb (is_click e)) (trace (body x l w)) = true).
  { clear. intros i l w. subst body.
    unfold bind, Math_random, act, delay.
    destruct (env_do env _ _); cbn; [reflexivity|].
    rewrite rand_run. reflexivity. }
  destruct (for_each_count L nat is_pointer_move body Hbody (seq 0 (S steps)) l w)
    as [Hle Heq].
  pose proof (for_each_forall L nat _ body Hquiet (seq 0 (S steps)) l w) as Hnone.
  rewrite length_seq in Hle, Heq. auto.
Qed.

End Simulator.

(** X2.  [humanType] on an element handle first selects what the field
    holds with a triple click, then types the text piece by piece, in
    order: what has been typed when it throws is a beginning of the text,
    and what has been typed when it returns is the text. *)
Theorem humanType_types_the_text :
  forall (env : Env) (L : Type) (e : ElementHandle) (text : string) (min max : Z)
         (l : L) (w : World),
    let o := humanType env (THandle e) (JStr text) min max l w in
    let typed := typed_string (typed_texts (trace o)) in
    (exists r rest, trace o = EDo (AClick e (Some 3) None) r :: rest)
    /\ (exists beginning rest, typed = Some beginning /\ beginning ++ rest = text)
    /\ match res o with
       | Settled (Ok _) => typed = Some text
       | Settled (Throw _) => True
       | Stopped => False
       end.
Proof.
  intros env L e text min max l w o typed. subst typed.
  destruct (humanType_run env e text min max l w)
    as (Hclick & [n Hprefix] & Hall & Hsettles).
  fold o in Hclick, Hprefix, Hall, Hsettles.
  split; [exact Hclick|]. split.
  - rewrite Hprefix. apply typed_string_firstn_keystrokes.
  - destruct (res o) as [[[]|msg]|]; [|exact I|apply Hsettles; reflexivity].
    rewrite Hall by reflexivity. apply typed_string_keystrokes.
Qed.

(** X3.  [humanMove] with [steps] steps moves the pointer [steps + 1] times
    when it returns (the loop runs from 0 to [steps] included), and never
    more; it never clicks. *)
Theorem humanMove_moves :
  forall (env : Env) (L : Type) (from_x from_y to_x to_y : Q) (steps : nat)
         (l : L) (w : World),
    let o := humanMove env from_x from_y to_x to_y steps l w in
    (List.length (filter is_pointer_move (trace o)) <= S steps)%nat
    /\ existsb is_click (trace o) = false
    /\ match res o with
       | Settled (Ok _) => List.length (filter is_pointer_move (trace o)) = S steps
       | Settled (Throw _) => True
       | Stopped => False
       end.
Proof.
  intros env L from_x from_y to_x to_y steps l w o.
  destruct (humanMove_run env from_x from_y to_x to_y steps l w)
    as (Hle & Heq & Hnone).
  fold o in Hle, Heq, Hnone.
  split; [exact Hle|]. split.
  - clear - Hnone. induction (trace o) as [|e tr IH]; [reflexivity|].
    cbn [forallb existsb] in *. apply andb_true_iff in Hnone.
    destruct Hnone as [He Htr]. rewrite IH by exact Htr.
    destruct (is_click e); [discriminate|reflexivity].
  - pose proof (humanMove_settles env from_x from_y to_x to_y steps l w) as Hsettles.
    fold o in Hsettles.
    destruct (res o) as [[[]|msg]|];
      [apply Heq; reflexivity|exact I|apply Hsettles; reflexivity].
Qed.

Lemma Math_round_ratio (d s : Z) :
  0 < s -> Math_round (inject_Z d / inject_Z s) = (2 * d + s) / (2 * s).
Proof.
  intros Hs. unfold Math_round.
  destruct s as [|p|p]; try lia.
  assert (H : (inject_Z d / inject_Z (Z.pos p) + (1 # 2) == (2 * d + Z.pos p) # (2 * p))%Q).
  { unfold Qeq, Qdiv, Qmult, Qinv, Qplus, inject_Z. cbn [Qnum Qden]. lia. }
  rewrite (Qfloor_comp _ _ H). reflexivity.
Qed.

Lemma rounded_share (d s : Z) :
  0 < s -> 2 * Z.abs (s * ((2 * d + s) / (2 * s)) - d) <= s.
Proof.
  intros Hs.
  pose proof (Z.div_mod (2 * d + s) (2 * s) ltac:(lia)) as Hdiv.
  pose proof (Z.mod_pos_bound (2 * d + s) (2 * s) ltac:(lia)) as Hmod.
  set (a := (2 * d + s) / (2 * s)) in *.
  set (r := (2 * d + s) mod (2 * s)) in *.
  nia.
Qed.

Section Simulator2.

Variable env : Env.

Lemma humanScroll_run {L} (distance steps : Z) (l : L) (w : World) :
  let o := humanScroll env distance steps l w in
  let amount := Math_round (inject_Z distance / inject_Z steps) in
  (List.length (filter is_scroll (trace o)) <= Z.to_nat steps)%nat
  /\ (res o = Ok tt -> List.length (filter is_scroll (trace o)) = Z.to_nat steps)
  /\ forallb (scrolls_by amount) (trace o) = true.
Proof.
  intros o amount. subst o. unfold humanScroll.
  match goal with
  | |- context [for_each ?items ?b l w] => set (body := b)
  end.
  assert (Hbody : forall x l w,
             let o := body x l w in
             (List.length (filter is_scroll (trace o)) <= 1)%nat
             /\ (res o = Ok tt -> List.length (filter is_scroll (trace o)) = 1%nat)).
  { clear. intros i l w. subst body.
    unfold bind, act, delay.
    destruct (env_do env _ _); cbn; [split; [lia|discriminate]|].
    rewrite rand_run. cbn. split; [lia|reflexivity]. }
  assert (Hamount : forall x l w,
             forallb (scrolls_by amount) (trace (body x l w)) = true).
  { clear. intros i l w. subst body amount.
    unfold bind, act, delay.
    destruct (env_do env _ _); cbn; rewrite ?rand_run; cbn; rewrite Z.eqb_refl;
      reflexivity. }
  destruct (for_each_count L nat is_scroll body Hbody (seq 0 (Z.to_nat steps)) l w)
    as [Hle Heq].
  pose proof (for_each_forall L nat _ body Hamount (seq 0 (Z.to_nat steps)) l w)
    as Hall.
  rewrite length_seq in Hle, Heq. auto.
Qed.

(** [humanClick] on a visible element. *)
Lemma humanClick_on_box {L} (e : ElementHandle) (box : Box) (l : L) (w : World) :
  env_box env (clock w) e = Ok (Some box) ->
  let o := humanClick env (THandle e) l w in
  (List.length (filter is_pointer_move (trace o)) <= 16)%nat
  /\ (List.length (filter is_click (trace o)) <= 1)%nat
  /\ (res o = Ok tt ->
      List.length (filter is_pointer_move (trace o)) = 16%nat
      /\ exists d t,
          50 <= d <= 150
          /\ trace o = (t ++ [EDo (AClick e None (Some d)) None])%list
          /\ existsb is_click t = false).
Proof.
  intros Hbox o.
  assert (Ho : o = humanClick env (THandle e) l w) by reflexivity.
  clearbody o. unfold humanClick, receiver in Ho. rewrite bind_ret in Ho.
  unfold bind at 1, boundingBox in Ho. rewrite Hbox in Ho. reduce_run_in Ho.
  unfold bind at 1 in Ho. rewrite rand_run in Ho. reduce_run_in Ho.
  unfold bind at 1 in Ho. rewrite rand_run in Ho. reduce_run_in Ho.
  unfold bind at 1 in Ho.
  match type of Ho with
  | context [humanMove env ?a ?b ?c ?d ?n ?l1 ?w1] =>
      destruct (humanMove_run env a b c d n l1 w1) as (Hle & Heq & Hquiet);
      destruct_run (humanMove env a b c d n l1 w1) as [[[[]|msg]|] t1 l1' w1']
  end; cbn [res trace] in *; reduce_run_in Ho.
  - unfold bind, act in Ho. rewrite rand_run in Ho. reduce_run_in Ho.
    match type of Ho with
    | context [rand_value ?k 50 150] =>
        pose proof (rand_value_range k 50 150 ltac:(lia)) as Hd;
        set (d := rand_value k 50 150) in *
    end.
    assert (Hnoclick : filter is_click t1 = []).
    { clear - Hquiet. induction t1 as [|ev t1 IH]; [reflexivity|].
      cbn [forallb filter] in *. apply andb_true_iff in Hquiet.
      destruct Hquiet as [Hev Ht]. destruct (is_click ev); [discriminate|auto]. }
    assert (Hnone : existsb is_click t1 = false).
    { clear - Hquiet. induction t1 as [|ev t1 IH]; [reflexivity|].
      cbn [forallb existsb] in *. apply andb_true_iff in Hquiet.
      destruct Hquiet as [Hev Ht]. rewrite IH by exact Ht.
      destruct (is_click ev); [discriminate|reflexivity]. }
    destruct (env_do env _ _) as [msg|]; reduce_run_in Ho; subst o;
      cbn [res trace filter is_pointer_move is_click List.length];
      rewrite !filter_app, ?Hnoclick; cbn [filter is_pointer_move is_click app];
      rewrite ?length_app; cbn [List.length]; rewrite ?Nat.add_0_r.
    + split; [exact Hle|]. split; [lia|discriminate].
    + split; [exact Hle|]. split; [lia|]. intros _.
      split; [apply Heq; reflexivity|].
      exists d, (EBox e (Ok (Some box)) :: t1). split; [exact Hd|].
      split; [reflexivity|]. exact Hnone.
  - assert (Hnoclick : filter is_click t1 = []).
    { clear - Hquiet. induction t1 as [|ev t1 IH]; [reflexivity|].
      cbn [forallb filter] in *. apply andb_true_iff in Hquiet.
      destruct Hquiet as [Hev Ht]. destruct (is_click ev); [discriminate|auto]. }
    subst o. cbn [res trace filter is_pointer_move is_click].
    rewrite Hnoclick. cbn [List.length].
    split; [exact Hle|]. split; [lia|discriminate].
Qed.

Lemma first_match_cons {L} (selector : string) (rest : list string) :
  @first_match env L (selector :: rest)
  = (h <- try_catch (query env None selector) (fun _ => ret None) ;;
     match h with
     | Some e => ret (Some e)
     | None => first_match env rest
     end).
Proof. reflexivity. Qed.

Lemma first_match_run {L} (selectors : list string) :
  forall (l : L) (w : World),
    let o := first_match env selectors l w in
    match res o with
    | Settled (Throw _) | Stopped => False
    | Settled (Ok None) =>
        queried (trace o) = selectors /\ forallb is_miss (trace o) = true
    | Settled (Ok (Some e)) =>
        exists before sel after t,
          selectors = (before ++ sel :: after)%list
          /\ trace o = (t ++ [EQuery None sel (Ok (Some e))])%list
          /\ queried t = before
          /\ forallb is_miss t = true
    end.
Proof.
  induction selectors as [|sel rest IH]; intros l w o.
  - cbn. split; reflexivity.
  - assert (Ho : o = first_match env (sel :: rest) l w) by reflexivity.
    clearbody o. rewrite first_match_cons in Ho.
    unfold bind, try_catch, query, ret in Ho. reduce_run_in Ho.
    destruct (env_query env (clock w) None sel) as [[e|]|msg]; reduce_run_in Ho.
    + subst o. cbn [res]. exists nil, sel, rest, nil. repeat split.
    + match type of Ho with
      | context [first_match env rest ?l1 ?w1] =>
          specialize (IH l1 w1); cbv zeta in IH;
          destruct (first_match env rest l1 w1) as [[[[e|]|msg]|] t l1' w1']
      end; cbn [res trace] in *; subst o; cbn [res trace]; try exact IH.
      * destruct IH as (before & sel' & after & t' & Hsel & Ht & Hq & Hmiss).
        exists (sel :: before), sel', after, (EQuery None sel (Ok None) :: t').
        subst rest t. cbn. rewrite Hq, Hmiss. repeat split.
      * destruct IH as [Hq Hmiss]. cbn. rewrite Hq, Hmiss. split; reflexivity.
    + match type of Ho with
      | context [first_match env rest ?l1 ?w1] =>
          specialize (IH l1 w1); cbv zeta in IH;
          destruct (first_match env rest l1 w1) as [[[[e|]|msg']|] t l1' w1']
      end; cbn [res trace] in *; subst o; cbn [res trace]; try exact IH.
      * destruct IH as (before & sel' & after & t' & Hsel & Ht & Hq & Hmiss).
        exists (sel :: before), sel', after, (EQuery None sel (Throw msg) :: t').
        subst rest t. cbn. rewrite Hq, Hmiss. repeat split.
      * destruct IH as [Hq Hmiss]. cbn. rewrite Hq, Hmiss. split; reflexivity.
Qed.

End Simulator2.



(** X5.  On an element that has a bounding box, [humanClick] moves the
    pointer in 16 moves (15 steps from (100, 100)) and then clicks once, on
    the element itself, holding the button between 50 and 150 ms; the click
    is its last call.  It never clicks twice, and never makes more than 16
    moves. *)
Theorem humanClick_with_box_clicks_once :
  forall (env : Env) (L : Type) (element : ElementHandle) (box : Box)
         (l : L) (w : World),
    env_box env (clock w) element = Ok (Some box) ->
    let o := humanClick env (THandle element) l w in
    (List.length (filter is_pointer_move (trace o)) <= 16)%nat
    /\ (List.length (filter is_click (trace o)) <= 1)%nat
    /\ match res o with
       | Settled (Ok _) =>
           List.length (filter is_pointer_move (trace o)) = 16%nat
           /\ exists d t,
               50 <= d <= 150
               /\ trace o = (t ++ [EDo (AClick element None (Some d)) None])%list
               /\ existsb is_click t = false
       | Settled (Throw _) => True
       | Stopped => False
       end.
Proof.
  intros env L element box l w Hbox o.
  destruct (humanClick_on_box env element box l w Hbox) as (Hmoves & Hclicks & Hok).
  fold o in Hmoves, Hclicks, Hok.
  split; [exact Hmoves|]. split; [exact Hclicks|].
  pose proof (humanClick_settles env (THandle element) l w) as Hsettles.
  fold o in Hsettles.
  destruct (res o) as [[[]|msg]|];
    [apply Hok; reflexivity|exact I|apply Hsettles; reflexivity].
Qed.

Lemma humanClick_with_box_clicks_once_witness :
  let o := humanClick cooperative (THandle 7%nat) tt fresh_world in
  (List.length (filter is_pointer_move (trace o)) <= 16)%nat
  /\ (List.length (filter is_click (trace o)) <= 1)%nat
  /\ match res o with
     | Settled (Ok _) =>
         List.length (filter is_pointer_move (trace o)) = 16%nat
         /\ exists d t,
             50 <= d <= 150
             /\ trace o = (t ++ [EDo (AClick 7%nat None (Some d)) None])%list
             /\ existsb is_click t = false
     | Settled (Throw _) => True
     | Stopped => False
     end.
Proof.
  apply (humanClick_with_box_clicks_once cooperative unit 7%nat (mkBox 10 20 30 40)
           tt fresh_world).
  reflexivity.
Defined.

(** X6.  The selector loops of [sendMessageToProfile] never throw: a
    [page.$] that throws counts as a miss.  They try the selectors in order
    and stop at the first one that matches; they answer [null] only after
    every selector has been tried and has missed. *)
Theorem first_match_takes_the_first :
  forall (env : Env) (L : Type) (selectors : list string) (l : L) (w : World),
    let o := first_match env selectors l w in
    match res o with
    | Settled (Throw _) | Stopped => False
    | Settled (Ok None) =>
        queried (trace o) = selectors /\ forallb is_miss (trace o) = true
    | Settled (Ok (Some e)) =>
        exists before sel after t,
          selectors = (before ++ sel :: after)%list
          /\ trace o = (t ++ [EQuery None sel (Ok (Some e))])%list
          /\ queried t = before
          /\ forallb is_miss t = true
    end.
Proof. intros env L selectors l w. apply first_match_run. Qed.

(* ====================================================================== *)
(** * Cookie persistence *)
(* ====================================================================== *)

Lemma list_ascii_of_append (a b : string) :
  list_ascii_of_string (a ++ b)
  = (list_ascii_of_string a ++ list_ascii_of_string b)%list.
Proof. induction a as [|c a IH]; cbn; [reflexivity|rewrite IH; reflexivity]. Qed.

Lemma underscores_safe (n : nat) :
  forallb safe_char (list_ascii_of_string (underscores n)) = true.
Proof. induction n as [|n IH]; [reflexivity|]. cbn. exact IH. Qed.

Lemma sanitize_safe (email : string) :
  forallb safe_char (list_ascii_of_string (sanitize email)) = true.
Proof.
  induction email as [|c email IH]; [reflexivity|].
  cbn [sanitize]. destruct (safe_char c) eqn:Hc.
  - cbn [list_ascii_of_string forallb]. rewrite Hc, IH. reflexivity.
  - rewrite list_ascii_of_append, forallb_app, underscores_safe, IH. reflexivity.
Qed.

Lemma sanitize_fixes_safe (s : string) :
  forallb safe_char (list_ascii_of_string s) = true -> sanitize s = s.
Proof.
  induction s as [|c s IH]; [reflexivity|].
  cbn [sanitize list_ascii_of_string forallb]. intros H.
  apply andb_true_iff in H. destruct H as [Hc Hs].
  rewrite Hc, IH by exact Hs. reflexivity.
Qed.

(** X7.  The name under which the cookies of an identity are kept (the key
    [cookies-<name>] of [messenger.js], the file [cookies/<name>.json] of
    [messengerrrr.js]) is made of letters, digits, [_], [-], [.] and [@]
    only, so that it holds no path separator; a name that is already so is
    kept as it is. *)
Theorem cookie_name_is_safe :
  forall (email : string),
    forallb safe_char (list_ascii_of_string (sanitize email)) = true
    /\ ~ In "/"%char (list_ascii_of_string (sanitize email))
    /\ ~ In "\"%char (list_ascii_of_string (sanitize email))
    /\ sanitize (sanitize email) = sanitize email.
Proof.
  intros email. pose proof (sanitize_safe email) as Hsafe.
  split; [exact Hsafe|].
  rewrite forallb_forall in Hsafe.
  split; [|split].
  - intros Hin. apply Hsafe in Hin. discriminate.
  - intros Hin. apply Hsafe in Hin. discriminate.
  - apply sanitize_fixes_safe. apply sanitize_safe.
Qed.

(* ====================================================================== *)
(** * The outcome record *)
(* ====================================================================== *)

Lemma utf16_length_append (s1 s2 : string) :
  utf16_length (s1 ++ s2) = (utf16_length s1 + utf16_length s2)%nat.
Proof.
  induction s1 as [|c s1 IH]; cbn [append utf16_length]; [reflexivity|].
  rewrite IH. lia.
Qed.

Lemma units_le_2 (c : ascii) : (units c <= 2)%nat.
Proof. unfold units. cbv zeta. repeat destruct (_ <? _)%nat; lia. Qed.

Lemma units_of_N (n : N) :
  (n < 256)%N -> units (ascii_of_N n)
                 = (if (n <? 128)%N then 1 else if (n <? 192)%N then 0
                    else if (n <? 240)%N then 1 else if (n <? 248)%N then 2 else 1)%nat.
Proof.
  intros Hn. unfold units, nat_of_ascii. rewrite N_ascii_embedding by exact Hn.
  cbv zeta.
  repeat match goal with
         | |- context [(N.to_nat n <? ?k)%nat] =>
             destruct (Nat.ltb_spec (N.to_nat n) k)
         | |- context [(n <? ?k)%N] => destruct (N.ltb_spec n k)
         end; try reflexivity; lia.
Qed.

(** What is left of a character cut between its two code units is one code
    unit. *)
Lemma utf16_length_high_surrogate (c : ascii) (rest : string) :
  utf16_length (high_surrogate c rest) = 1%nat.
Proof.
  unfold high_surrogate. cbv zeta.
  match goal with
  | |- context [N.land (N.shiftr ?cp 10) 1023] =>
      set (x := N.land (N.shiftr cp 10) 1023)
  end.
  assert (Hx : (x < 1024)%N).
  { subst x. change 1023%N with (N.ones 10). rewrite N.land_ones.
    apply N.mod_lt. discriminate. }
  assert (Hhigh : (N.shiftr x 6 < 16)%N).
  { rewrite N.shiftr_div_pow2. apply N.Div0.div_lt_upper_bound.
    change (2 ^ 6 * 16)%N with 1024%N. exact Hx. }
  assert (Hlow : (N.land x 63 < 64)%N).
  { change 63%N with (N.ones 6). rewrite N.land_ones. apply N.mod_lt. discriminate. }
  cbn [utf16_length].
  rewrite (units_of_N 237) by reflexivity.
  rewrite (units_of_N (160 + N.shiftr x 6)) by lia.
  rewrite (units_of_N (128 + N.land x 63)) by lia.
  destruct (N.ltb_spec (160 + N.shiftr x 6) 128); [lia|].
  destruct (N.ltb_spec (160 + N.shiftr x 6) 192); [|lia].
  destruct (N.ltb_spec (128 + N.land x 63) 128); [lia|].
  destruct (N.ltb_spec (128 + N.land x 63) 192); [|lia].
  reflexivity.
Qed.

(** [s.substring(0, n).length] is [Math.min(n, s.length)]. *)
Lemma utf16_length_substring_0 (s : string) :
  forall n, utf16_length (substring_0 n s) = Nat.min n (utf16_length s).
Proof.
  induction s as [|c s IH]; intros n; cbn [substring_0 utf16_length].
  - lia.
  - pose proof (units_le_2 c) as Hc.
    destruct (Nat.leb_spec (units c) n) as [Hle|Hgt].
    + cbn [utf16_length]. rewrite IH. lia.
    + destruct (Nat.eqb_spec n 0) as [->|Hn]; [reflexivity|].
      rewrite utf16_length_high_surrogate. lia.
Qed.

(** [s.substring(0, n)] is [s] when [s] has at most [n] code units. *)
Lemma substring_0_all (s : string) :
  forall n, (utf16_length s <= n)%nat -> substring_0 n s = s.
Proof.
  induction s as [|c s IH]; intros n H; cbn [substring_0 utf16_length] in *.
  - reflexivity.
  - destruct (Nat.leb_spec (units c) n) as [Hle|Hgt]; [|lia].
    rewrite IH by lia. reflexivity.
Qed.

Lemma preview_bounds (message : string) :
  (utf16_length (preview message) <= 53)%nat
  /\ (((utf16_length message <= 50)%nat /\ preview message = message)
      \/ ((50 < utf16_length message)%nat
          /\ preview message = substring_0 50 message ++ "..."
          /\ utf16_length (preview message) = 53%nat)).
Proof.
  unfold preview.
  destruct (Z.ltb_spec 50 (Z.of_nat (utf16_length message))) as [Hlong|Hshort].
  - rewrite utf16_length_append, utf16_length_substring_0.
    change (utf16_length "...") with 3%nat.
    split; [lia|]. right. split; [lia|]. split; [reflexivity|lia].
  - rewrite append_empty, substring_0_all by lia.
    split; [lia|]. left. split; [lia|reflexivity].
Qed.

(* ====================================================================== *)
(** * Input validation, continued *)
(* ====================================================================== *)

(** X9.  [main.js] and [runMessenger] accept the same inputs: those whose
    [loginEmail], [loginPassword] and [message] are truthy and whose
    [profiles] is a non-empty array.  The checks of [runMessenger] never
    fire when it is called from [main.js]. *)
Theorem entry_validations_agree :
  forall (input : JsVal),
    let accepted :=
      truthy (get_prop input "loginEmail")
      && truthy (get_prop input "loginPassword")
      && isArray (get_prop input "profiles")
      && negb (js_length (get_prop input "profiles") =? 0)
      && truthy (get_prop input "message") in
    (MainJs.validate input = None <-> accepted = true)
    /\ (MessengerrrrJs.validate input = None <-> accepted = true).
Proof.
  intros input accepted. subst accepted.
  unfold MainJs.validate, MessengerrrrJs.validate.
  assert (Harr : forall v, isArray v = true -> truthy v = true)
    by (intros []; cbn; congruence).
  destruct input; cbn [get_prop truthy andb]; try (split; split; discriminate).
  destruct (truthy (assoc "loginEmail" fields)); cbn [negb orb andb];
    [|split; split; discriminate].
  destruct (truthy (assoc "loginPassword" fields)); cbn [negb orb andb];
    [|split; split; discriminate].
  destruct (isArray (assoc "profiles" fields)) eqn:Hisarr; cbn [negb orb andb].
  - rewrite (Harr _ Hisarr). cbn [negb orb].
    destruct (js_length (assoc "profiles" fields) =? 0); cbn [negb andb];
      [split; split; discriminate|].
    destruct (truthy (assoc "message" fields)); cbn [negb];
      split; split; (reflexivity || discriminate).
  - rewrite orb_true_r. cbn [orb]. split; split; discriminate.
Qed.

(* ====================================================================== *)
(** * Cookie persistence, continued *)
(* ====================================================================== *)

(** X10.  [messenger.js]: what [saveCookies] has put in the store for an
    identity is what [loadCookies] for the same identity reads (the key is
    the same) and hands to [page.setCookie]; [loadCookies] answers [true]
    when [page.setCookie] completes and [false] when it throws. *)
Theorem stored_cookies_round_trip :
  forall (env env' : Env) (email key : string) (cookies : list Cookie)
         (w w' : World),
    In (EDo (ASetValue key cookies) None)
       (trace (MessengerJs.saveCookies env email tt w)) ->
    env_stored env' (clock w') key = Ok (SCookies cookies) ->
    let s := MessengerJs.saveCookies env email tt w in
    let o := MessengerJs.loadCookies env' email tt w' in
    trace s = [ECookies (Ok cookies); EDo (ASetValue key cookies) None]
    /\ exists r,
        trace o = [EStored key (Ok (SCookies cookies)); EDo (ASetCookie cookies) r]
        /\ res o = Ok (match r with None => true | Some _ => false end).
Proof.
  intros env env' email key cookies w w' Hsaved Hstored s o.
  assert (Hs : s = MessengerJs.saveCookies env email tt w) by reflexivity.
  assert (Ho : o = MessengerJs.loadCookies env' email tt w') by reflexivity.
  clearbody s o. rewrite <- Hs in Hsaved.
  unfold MessengerJs.saveCookies in Hs. unfold_run_in Hs.
  destruct (env_cookies env (clock w)) as [cs|msg]; reduce_run_in Hs.
  - destruct (env_do env (S (clock w)) (ASetValue (MessengerJs.cookieKey email) cs))
      as [msg|]; reduce_run_in Hs; subst s; cbn [trace In] in Hsaved;
      destruct Hsaved as [Hin|[Hin|[]]]; try discriminate.
    injection Hin as <- <-.
    split; [reflexivity|].
    unfold MessengerJs.loadCookies in Ho. unfold_run_in Ho.
    rewrite Hstored in Ho. reduce_run_in Ho.
    destruct (env_do env' (S (clock w')) (ASetCookie cs)) as [msg|] eqn:Hset;
      reduce_run_in Ho; subst o; cbn [trace res]; eexists; split; reflexivity.
  - subst s. cbn [trace In] in Hsaved. destruct Hsaved as [Hin|[]]. discriminate.
Qed.

Lemma stored_cookies_round_trip_witness :
  let s := MessengerJs.saveCookies returning_visitor "a@x.com" tt fresh_world in
  let o := MessengerJs.loadCookies returning_visitor "a@x.com" tt fresh_world in
  trace s = [ECookies (Ok [session_cookie]);
             EDo (ASetValue "cookies-a@x.com" [session_cookie]) None]
  /\ exists r,
      trace o = [EStored "cookies-a@x.com" (Ok (SCookies [session_cookie]));
                 EDo (ASetCookie [session_cookie]) r]
      /\ res o = Ok (match r with None => true | Some _ => false end).
Proof.
  apply (stored_cookies_round_trip returning_visitor returning_visitor "a@x.com"
           "cookies-a@x.com" [session_cookie] fresh_world fresh_world).
  - vm_compute. right. left. reflexivity.
  - reflexivity.
Defined.

(** X11.  [messengerrrr.js]: the file that [saveCookies] has written for an
    identity is the file that [loadCookies] for the same identity looks for
    and reads, and what it holds is what is handed to [page.setCookie];
    [loadCookies] answers [true] when [page.setCookie] completes and [false]
    when it throws. *)
Theorem cookie_file_round_trip :
  forall (env env' : Env) (email path : string) (cookies : list Cookie)
         (w w' : World),
    In (EDo (AWriteJson path cookies) None)
       (trace (MessengerrrrJs.saveCookies env (Some email) tt w)) ->
    env_do env' (clock w') AEnsureDir = None ->
    env_test env' (S (clock w')) (PPathExists path) = Ok true ->
    env_stored env' (S (S (clock w'))) path = Ok (SCookies cookies) ->
    let s := MessengerrrrJs.saveCookies env (Some email) tt w in
    let o := MessengerrrrJs.loadCookies env' (Some email) tt w' in
    trace s = [ECookies (Ok cookies); EDo AEnsureDir None;
               EDo (AWriteJson path cookies) None]
    /\ path = "cookies/" ++ sanitize email ++ ".json"
    /\ exists r,
        trace o = [EDo AEnsureDir None; ETest (PPathExists path) (Ok true);
                   EStored path (Ok (SCookies cookies));
                   EDo (ASetCookie cookies) r]
        /\ res o = Ok (match r with None => true | Some _ => false end).
Proof.
  intros env env' email path cookies w w' Hsaved Hdir Hexists Hstored s o.
  assert (Hs : s = MessengerrrrJs.saveCookies env (Some email) tt w) by reflexivity.
  assert (Ho : o = MessengerrrrJs.loadCookies env' (Some email) tt w') by reflexivity.
  clearbody s o. rewrite <- Hs in Hsaved.
  unfold MessengerrrrJs.saveCookies, MessengerrrrJs.cookieFilePathFor in Hs.
  unfold MessengerrrrJs.loadCookies, MessengerrrrJs.cookieFilePathFor in Ho.
  remember ("cookies/" ++ sanitize email ++ ".json") as file eqn:Hfile.
  unfold_run_in Hs.
  destruct (env_cookies env (clock w)) as [cs|msg]; reduce_run_in Hs.
  - destruct (env_do env (S (clock w)) AEnsureDir) as [msg|]; reduce_run_in Hs.
    + subst s. cbn [trace In] in Hsaved.
      destruct Hsaved as [Hin|[Hin|[]]]; discriminate.
    + destruct (env_do env (S (S (clock w))) _) as [msg|]; reduce_run_in Hs;
        subst s; cbn [trace In] in Hsaved;
        destruct Hsaved as [Hin|[Hin|[Hin|[]]]]; try discriminate.
      injection Hin as Hpath Hcookies. subst path cs.
      split; [reflexivity|]. split; [reflexivity|].
      unfold_run_in Ho.
      rewrite Hdir in Ho. reduce_run_in Ho.
      rewrite Hexists in Ho. reduce_run_in Ho.
      rewrite Hstored in Ho. reduce_run_in Ho.
      destruct (env_do env' (S (S (S (clock w')))) (ASetCookie cookies)) as [msg|];
        reduce_run_in Ho; subst o; cbn [trace res]; eexists; split; reflexivity.
  - subst s. cbn [trace In] in Hsaved. destruct Hsaved as [Hin|[]]. discriminate.
Qed.

Lemma cookie_file_round_trip_witness :
  let s := MessengerrrrJs.saveCookies returning_visitor (Some "a@x.com") tt
             fresh_world in
  let o := MessengerrrrJs.loadCookies returning_visitor (Some "a@x.com") tt
             fresh_world in
  trace s = [ECookies (Ok [session_cookie]); EDo AEnsureDir None;
             EDo (AWriteJson "cookies/a@x.com.json" [session_cookie]) None]
  /\ "cookies/a@x.com.json" = "cookies/" ++ sanitize "a@x.com" ++ ".json"
  /\ exists r,
      trace o = [EDo AEnsureDir None;
                 ETest (PPathExists "cookies/a@x.com.json") (Ok true);
                 EStored "cookies/a@x.com.json" (Ok (SCookies [session_cookie]));
                 EDo (ASetCookie [session_cookie]) r]
      /\ res o = Ok (match r with None => true | Some _ => false end).
Proof.
  apply (cookie_file_round_trip returning_visitor returning_visitor "a@x.com"
           "cookies/a@x.com.json" [session_cookie] fresh_world fresh_world).
  - vm_compute. right. right. left. reflexivity.
  - reflexivity.
  - reflexivity.
  - reflexivity.
Defined.

(** X12.  Cookies that cannot be read fail the profile before any page is
    loaded: [loadCookies] is the first step of [sendMessageToProfile], and
    the read of the store ([Actor.getValue], [fs.readJson]) is outside its
    [try]; the record is a failure whose error is the one of the read. *)
Theorem unreadable_cookies_fail_the_profile :
  forall (env : Env) (profile : Profile) (message email msg : string)
         (input_message headless : JsVal) (w : World),
    nonempty email = true ->
    (env_stored env (clock w) (MessengerJs.cookieKey email) = Throw msg ->
     let o := MessengerJs.sendMessageToProfile env profile message email headless tt w in
     count_page_loads (trace o) = 0%nat
     /\ exists r, res o = Ok r /\ success r = false /\ error r = Some msg)
    /\ (LOGIN_EMAIL (penv w) = Some email ->
        env_do env (clock w) AEnsureDir = None ->
        env_test env (S (clock w))
                 (PPathExists ("cookies/" ++ sanitize email ++ ".json")) = Ok true ->
        env_stored env (S (S (clock w))) ("cookies/" ++ sanitize email ++ ".json")
        = Throw msg ->
        let o := MessengerrrrJs.sendMessageToProfile env profile input_message tt w in
        count_page_loads (trace o) = 0%nat
        /\ exists r, res o = Ok r /\ success r = false /\ error r = Some msg).
Proof.
  intros env profile message email msg input_message headless w Hemail. split.
  - intros Hstored o.
    assert (Ho : o = MessengerJs.sendMessageToProfile env profile message email
                       headless tt w) by reflexivity.
    clearbody o.
    unfold MessengerJs.sendMessageToProfile, MessengerJs.reach_profile,
      MessengerJs.loadCookies, MessengerJs.failure_record in Ho.
    rewrite Hemail in Ho. unfold_run_in Ho. rewrite Hstored in Ho.
    reduce_run_in Ho. subst o. cbn [trace res]. split; [reflexivity|].
    eexists. split; [reflexivity|]. split; reflexivity.
  - intros Henv Hdir Hexists Hstored o.
    assert (Ho : o = MessengerrrrJs.sendMessageToProfile env profile input_message tt w)
      by reflexivity.
    clearbody o.
    unfold MessengerrrrJs.sendMessageToProfile, MessengerrrrJs.reach_profile,
      MessengerrrrJs.loadCookies, MessengerrrrJs.cookieFilePathFor,
      MessengerrrrJs.failure_record in Ho.
    unfold bind at 1, Date_now in Ho. unfold try_catch, call in Ho.
    unfold bind at 1 in Ho. unfold bind at 1, process_env in Ho.
    rewrite Henv in Ho. cbn [MessengerrrrJs.env_truthy] in Ho. rewrite Hemail in Ho.
    unfold_run_in Ho.
    rewrite Hdir in Ho. reduce_run_in Ho.
    rewrite Hexists in Ho. reduce_run_in Ho.
    rewrite Hstored in Ho. reduce_run_in Ho.
    subst o. cbn [trace res]. split; [reflexivity|].
    eexists. split; [reflexivity|]. split; reflexivity.
Qed.

Lemma unreadable_cookies_fail_the_profile_witness :
  (let o := MessengerJs.sendMessageToProfile unreadable_store one_profile "hi"
              "a@x.com" (JBool true) tt headless_world in
   count_page_loads (trace o) = 0%nat
   /\ exists r, res o = Ok r /\ success r = false
                /\ error r = Some "Unexpected end of JSON input")
  /\ (let o := MessengerrrrJs.sendMessageToProfile unreadable_store one_profile
                 (JStr "hi") tt headless_world in
      count_page_loads (trace o) = 0%nat
      /\ exists r, res o = Ok r /\ success r = false
                   /\ error r = Some "Unexpected end of JSON input").
Proof.
  destruct (unreadable_cookies_fail_the_profile unreadable_store one_profile "hi"
              "a@x.com" "Unexpected end of JSON input" (JStr "hi") (JBool true)
              headless_world eq_refl) as [Hactor Hscript].
  split; [apply Hactor|apply Hscript]; reflexivity.
Defined.

(* ====================================================================== *)
(** * The challenge resolution chain, continued *)
(* ====================================================================== *)

Lemma try_catch_false_returns {L} (m : M L bool) (l : L) (w : World) :
  res (m l w) <> Stopped ->
  exists b, res (try_catch m (fun _ => ret false) l w) = Ok b.
Proof.
  unfold try_catch, ret. destruct (m l w) as [[[b|msg]|] t l1 w1]; cbn [res];
    intros H; [eexists; reflexivity|eexists; reflexivity|contradiction].
Qed.

Lemma try_catch_false_never_throws {L} (m : M L bool) (l : L) (w : World) (msg : string) :
  res (try_catch m (fun _ => ret false) l w) <> Throw msg.
Proof.
  unfold try_catch, ret. destruct (m l w) as [[[b|msg']|] t l1 w1]; discriminate.
Qed.

Section ManualWindow.

Variable env : Env.
Variable L : Type.

(** The manual-solve loop polls once per turn; it leaves with [true] on a
    poll that finds no challenge, with [false] when the window has gone by,
    and throws when a poll throws. *)
Lemma manualWait_invariant (fuel : nat) :
  forall (start maxWait : Z) (l : L) (w : World),
    let o := manualWait env fuel start maxWait l w in
    (List.length (filter is_manual_poll (trace o)) <= fuel)%nat
    /\ match res o with
       | Settled (Ok true) =>
           exists t, trace o = (t ++ [ETest PStillPresent (Ok false)])%list
       | Settled (Ok false) =>
           maxWait <= now w - start + 2000 * Z.of_nat fuel ->
           maxWait <= now (world o) - start
       | Settled (Throw msg) =>
           exists t, trace o = (t ++ [ETest PStillPresent (Throw msg)])%list
       | Stopped => False
       end.
Proof.
  induction fuel as [|fuel IH]; intros start maxWait l w o.
  - subst o. rewrite manualWait_eq. unfold bind, Date_now, ret.
    destruct (Z.ltb_spec (now w - start) maxWait) as [Hlt|Hge]; cbn.
    + split; [lia|]. intros H. lia.
    + split; [lia|]. intros _. exact Hge.
  - assert (Ho : o = manualWait env (S fuel) start maxWait l w) by reflexivity.
    clearbody o. rewrite manualWait_eq in Ho.
    unfold bind at 1, Date_now in Ho.
    destruct (Z.ltb_spec (now w - start) maxWait) as [Hlt|Hge].
    + unfold bind at 1, test in Ho.
      destruct (env_test env (clock w) PStillPresent) as [[|]|msg];
        cbn [negb] in Ho.
      * unfold bind, delay in Ho. reduce_run_in Ho.
        match type of Ho with
        | context [manualWait env fuel start maxWait ?l1 ?w1] =>
            specialize (IH start maxWait l1 w1); cbv zeta in IH;
            destruct (manualWait env fuel start maxWait l1 w1)
              as [[[[|]|msg]|] t l2 w2]
        end; cbn [res trace world now] in IH; subst o; cbn [res trace world];
          destruct IH as [Hcount Hres];
          (split; [cbn [filter is_manual_poll List.length]; lia|]).
        -- destruct Hres as [t' ->].
           exists (ETest PStillPresent (Ok true) :: EDelay 2000 :: t'). reflexivity.
        -- intros Hfuel. apply Hres. lia.
        -- destruct Hres as [t' ->].
           exists (ETest PStillPresent (Ok true) :: EDelay 2000 :: t'). reflexivity.
        -- exact Hres.
      * unfold ret in Ho. reduce_run_in Ho. subst o. cbn.
        split; [lia|]. exists nil. reflexivity.
      * reduce_run_in Ho. subst o. cbn. split; [lia|]. exists nil. reflexivity.
    + unfold ret in Ho. reduce_run_in Ho. subst o. cbn.
      split; [lia|]. intros _. exact Hge.
Qed.

End ManualWindow.

(** X13.  The manual-solve window of [solveCaptcha] (three minutes, one poll
    every two seconds) makes at most 90 polls.  It ends with [true] right
    after a poll that finds no challenge left, with [false] only when 180000
    ms or more have gone by since it started, and it throws only when a
    poll throws. *)
Theorem manual_wait_is_bounded :
  forall (env : Env) (L : Type) (l : L) (w : World),
    let o := manualWait env manualWait_iterations (now w) (3 * 60 * 1000) l w in
    (List.length (filter is_manual_poll (trace o)) <= 90)%nat
    /\ match res o with
       | Settled (Ok true) =>
           exists t, trace o = (t ++ [ETest PStillPresent (Ok false)])%list
       | Settled (Ok false) => 180000 <= now (world o) - now w
       | Settled (Throw msg) =>
           exists t, trace o = (t ++ [ETest PStillPresent (Throw msg)])%list
       | Stopped => False
       end.
Proof.
  intros env L l w o.
  destruct (manualWait_invariant env L manualWait_iterations (now w) (3 * 60 * 1000) l w)
    as [Hcount Hres].
  fold o in Hcount, Hres. split; [exact Hcount|].
  destruct (res o) as [[[|]|msg]|]; try exact Hres.
  apply Hres. unfold manualWait_iterations. lia.
Qed.

Section ChainErrors.

Variable env : Env.

Lemma solveRecaptchaAudio_returns {L} (l : L) (w : World) :
  exists b, res (MessengerJs.solveRecaptchaAudio env l w) = Ok b.
Proof.
  unfold MessengerJs.solveRecaptchaAudio. apply try_catch_false_returns.
  not_stopped.
Qed.

Lemma solveRecaptchaAudio_never_throws {L} (l : L) (w : World) (msg : string) :
  res (MessengerrrrJs.solveRecaptchaAudio env l w) <> Throw msg.
Proof.
  unfold MessengerrrrJs.solveRecaptchaAudio. apply try_catch_false_never_throws.
Qed.

(** What the chain does after the automated strategy has failed. *)
Lemma manual_window_throws {L} (wait : bool) (l : L) (w : World) :
  let o := (if wait then
              start <- Date_now ;;
              solved <- manualWait env manualWait_iterations start (3 * 60 * 1000) ;;
              if solved then ret true else ret false
            else ret false) l w in
  match res o with
  | Settled (Ok _) => True
  | Settled (Throw msg) =>
      exists t, trace o = (t ++ [ETest PStillPresent (Throw msg)])%list
  | Stopped => False
  end.
Proof.
  intros o. subst o. destruct wait; [|exact I].
  unfold bind at 1, Date_now. unfold bind.
  destruct (manualWait_invariant env L manualWait_iterations (now w) (3 * 60 * 1000) l w)
    as [_ Hres].
  destruct (manualWait env manualWait_iterations (now w) (3 * 60 * 1000) l w)
    as [[[[|]|msg]|] t l1 w1]; cbn [res trace] in *; try exact I.
  - exact Hres.
  - exact Hres.
Qed.

Lemma solveCaptcha_throws {L} (headless : JsVal) (l : L) (w : World) :
  let o := MessengerJs.solveCaptcha env headless l w in
  match res o with
  | Settled (Ok _) => True
  | Settled (Throw msg) =>
      exists t p, trace o = (t ++ [ETest p (Throw msg)])%list
                  /\ (p = PCaptchaPresent \/ p = PStillPresent)
  | Stopped => False
  end.
Proof.
  intros o.
  assert (Ho : o = MessengerJs.solveCaptcha env headless l w) by reflexivity.
  clearbody o. unfold MessengerJs.solveCaptcha in Ho.
  unfold bind at 1, test in Ho.
  destruct (env_test env (clock w) PCaptchaPresent) as [[|]|msg]; cbn [negb] in Ho.
  - unfold bind at 1 in Ho.
    match type of Ho with
    | context [MessengerJs.solveRecaptchaAudio env ?l1 ?w1] =>
        destruct (solveRecaptchaAudio_returns l1 w1) as [b Hb];
        destruct (MessengerJs.solveRecaptchaAudio env l1 w1) as [r t1 l2 w2]
    end; cbn [res] in Hb; subst r.
    destruct b; [subst o; exact I|].
    pose proof (manual_window_throws (negb (truthy headless)) l2 w2) as Hwait.
    cbv zeta in Hwait.
    match type of Hwait with
    | match res ?x with _ => _ end => destruct x as [[[b|msg]|] t2 l3 w3]
    end; cbn [res trace] in Hwait; subst o; cbn [res trace];
      [exact I| |exact Hwait].
    destruct Hwait as [t' ->].
    exists (ETest PCaptchaPresent (Ok true) :: t1 ++ t')%list, PStillPresent.
    split; [|right; reflexivity].
    cbn [app]. rewrite app_assoc. reflexivity.
  - subst o. exact I.
  - subst o. cbn [res trace]. exists nil, PCaptchaPresent.
    split; [reflexivity|left; reflexivity].
Qed.

Lemma solveCaptcha_throws' {L} (l : L) (w : World) :
  let o := MessengerrrrJs.solveCaptcha env l w in
  match res o with
  | Settled (Ok _) => True
  | Settled (Throw msg) =>
      exists t p, trace o = (t ++ [ETest p (Throw msg)])%list
                  /\ (p = PCaptchaPresent \/ p = PStillPresent)
  | Stopped => stopped_at_download (trace o)
  end.
Proof.
  intros o.
  destruct (res o) as [[b|msg]|] eqn:Hres;
    [exact I| |apply solveCaptcha_stops; exact Hres].
  revert Hres.
  assert (Ho : o = MessengerrrrJs.solveCaptcha env l w) by reflexivity.
  clearbody o. unfold MessengerrrrJs.solveCaptcha in Ho.
  unfold bind at 1, test in Ho.
  destruct (env_test env (clock w) PCaptchaPresent) as [[|]|msg']; cbn [negb] in Ho.
  - unfold bind at 1 in Ho.
    match type of Ho with
    | context [MessengerrrrJs.solveRecaptchaAudio env ?l1 ?w1] =>
        pose proof (solveRecaptchaAudio_never_throws l1 w1) as Hb;
        destruct (MessengerrrrJs.solveRecaptchaAudio env l1 w1)
          as [[[b|msg']|] t1 l2 w2]
    end; cbn [res] in Hb;
      [|exfalso; apply (Hb msg'); reflexivity|subst o; discriminate].
    destruct b; [subst o; discriminate|].
    unfold bind at 1, process_env in Ho.
    pose proof (manual_window_throws
                  (negb (MessengerrrrJs.is_true_string (HEADLESS (penv w2)))) l2 w2)
      as Hwait.
    cbv zeta in Hwait.
    match type of Hwait with
    | match res ?x with _ => _ end => destruct x as [[[b|msg']|] t2 l3 w3]
    end; cbn [res trace] in Hwait; subst o; cbn [res trace]; intros Hres;
      [discriminate| |discriminate].
    injection Hres as ->.
    destruct Hwait as [t' ->].
    exists (ETest PCaptchaPresent (Ok true) :: t1 ++ t')%list, PStillPresent.
    split; [|right; reflexivity].
    cbn [app]. rewrite app_assoc. reflexivity.
  - subst o. discriminate.
  - subst o. cbn [res trace]. intros Hres. injection Hres as ->.
    exists nil, PCaptchaPresent.
    split; [reflexivity|left; reflexivity].
Qed.

End ChainErrors.

(** X14.  The automated strategy never throws: whatever fails in it, it
    answers [false]; in [messengerrrr.js] it does so unless the download of
    the audio does not settle, and the run then stops at that call.  The
    challenge resolution chain throws only when the detection of the
    challenge or a poll of the manual-solve window throws, and that call is
    then its last one. *)
Theorem chain_throws_only_on_a_probe :
  forall (env : Env) (headless : JsVal) (w : World),
    (exists b, res (MessengerJs.solveRecaptchaAudio env tt w) = Ok b)
    /\ (let o := MessengerrrrJs.solveRecaptchaAudio env tt w in
        match res o with
        | Settled (Ok _) => True
        | Settled (Throw _) => False
        | Stopped => stopped_at_download (trace o)
        end)
    /\ (let o := MessengerJs.solveCaptcha env headless tt w in
        match res o with
        | Settled (Ok _) => True
        | Settled (Throw msg) =>
            exists t p, trace o = (t ++ [ETest p (Throw msg)])%list
                        /\ (p = PCaptchaPresent \/ p = PStillPresent)
        | Stopped => False
        end)
    /\ (let o := MessengerrrrJs.solveCaptcha env tt w in
        match res o with
        | Settled (Ok _) => True
        | Settled (Throw msg) =>
            exists t p, trace o = (t ++ [ETest p (Throw msg)])%list
                        /\ (p = PCaptchaPresent \/ p = PStillPresent)
        | Stopped => stopped_at_download (trace o)
        end).
Proof.
  intros env headless w.
  split; [apply solveRecaptchaAudio_returns|].
  split; [|split; [apply solveCaptcha_throws|apply solveCaptcha_throws']].
  intros o.
  destruct (res o) as [[b|msg]|] eqn:Hres.
  - exact I.
  - apply (solveRecaptchaAudio_never_throws env tt w msg). exact Hres.
  - apply (solveRecaptchaAudio_stops env tt w). exact Hres.
Qed.

(** The download that takes the process down: the request for the audio is
    refused, the automated strategy stops there and answers nothing. *)
Example refused_download_stops_the_strategy :
  let o := MessengerrrrJs.solveRecaptchaAudio refused_download tt fresh_world in
  res o = Stopped
  /\ last (trace o) (EDelay 0)
     = EDownload (Some "https://www.google.com/recaptcha/api2/payload/audio.mp3") Dies.
Proof. vm_compute. split; reflexivity. Qed.

(* ====================================================================== *)
(** * The message delivery pipeline, continued *)
(* ====================================================================== *)

Section Record.

Variable env : Env.

(** The two flags after the delivery steps. *)
Lemma deliver_message_vars (message : string) (l : Locals) (w : World) :
  var_messageButtonPresent l = "No" -> var_messageSent l = "No" ->
  let o := MessengerJs.deliver_message env message l w in
  match res o with
  | Settled (Ok _) => var_messageButtonPresent (locals o) = "Yes"
                      /\ var_messageSent (locals o) = "Yes"
  | Settled (Throw _) => (var_messageButtonPresent (locals o) = "Yes"
                          \/ var_messageButtonPresent (locals o) = "No")
                         /\ var_messageSent (locals o) = "No"
  | Stopped => True
  end.
Proof.
  intros Hpresent Hsent o.
  assert (Ho : o = MessengerJs.deliver_message env message l w) by reflexivity.
  clearbody o. unfold MessengerJs.deliver_message in Ho. unfold_run_in Ho.
  repeat exec_step Ho.
  all: subst o; cbn; auto.
Qed.

Lemma deliver_message_vars' (message : JsVal) (l : Locals) (w : World) :
  var_messageButtonPresent l = "No" -> var_messageSent l = "No" ->
  let o := MessengerrrrJs.deliver_message env message l w in
  match res o with
  | Settled (Ok _) => var_messageButtonPresent (locals o) = "Yes"
                      /\ var_messageSent (locals o) = "Yes"
  | Settled (Throw _) => (var_messageButtonPresent (locals o) = "Yes"
                          \/ var_messageButtonPresent (locals o) = "No")
                         /\ var_messageSent (locals o) = "No"
  | Stopped => True
  end.
Proof.
  intros Hpresent Hsent o.
  assert (Ho : o = MessengerrrrJs.deliver_message env message l w) by reflexivity.
  clearbody o. unfold MessengerrrrJs.deliver_message in Ho. unfold_run_in Ho.
  repeat exec_step Ho.
  all: subst o; cbn; auto.
Qed.

Ltac record_fields :=
  unfold well_formed;
  cbn [subject profileId outcome_url durationMs timestamp success error
       message_preview messageButtonPresent messageSent];
  (split; [reflexivity|]); (split; [discriminate|]); (split; [reflexivity|]).

Lemma sendMessageToProfile_record {L} (profile : Profile) (message email : string)
      (headless : JsVal) (l : L) (w : World) :
  exists r,
    res (MessengerJs.sendMessageToProfile env profile message email headless l w) = Ok r
    /\ well_formed profile (JStr message) r.
Proof.
  set (o := MessengerJs.sendMessageToProfile env profile message email headless l w).
  assert (Ho : o = MessengerJs.sendMessageToProfile env profile message email
                     headless l w) by reflexivity.
  clearbody o.
  unfold MessengerJs.sendMessageToProfile, MessengerJs.success_record,
    MessengerJs.failure_record in Ho.
  unfold_run_in Ho.
  match type of Ho with
  | context [MessengerJs.reach_profile env ?p ?e ?h ?l0 ?w0] =>
      destruct_run (MessengerJs.reach_profile env p e h l0 w0) as [[[[]|msg]|] t0 l1 w1]
  end; reduce_run_in Ho.
  - match type of Ho with
    | context [MessengerJs.deliver_message env ?m ?l0 ?w0] =>
        pose proof (deliver_message_vars m l0 w0 eq_refl eq_refl) as Hvars;
        destruct_run (MessengerJs.deliver_message env m l0 w0)
          as [[[[]|msg]|] t1 l2 w2]
    end; cbn in Hvars; reduce_run_in Ho; subst o; cbn [res];
      eexists; (split; [reflexivity|]); destruct Hvars as [Hpresent Hsent];
      destruct profile; record_fields.
    + left. rewrite Hpresent, Hsent. repeat split. eexists. split; reflexivity.
    + right. rewrite Hsent. repeat split; try discriminate. left. split; [|reflexivity].
      destruct Hpresent as [->| ->]; auto.
  - subst o; cbn [res]. eexists; (split; [reflexivity|]).
    destruct profile; record_fields.
    right. repeat split; try discriminate. left. split; [|reflexivity]. auto.
Qed.

Lemma sendMessageToProfile_record' {L} (profile : Profile) (message : JsVal)
      (l : L) (w : World) :
  match res (MessengerrrrJs.sendMessageToProfile env profile message l w) with
  | Settled (Ok r) => well_formed profile message r
  | Settled (Throw _) => False
  | Stopped => True
  end.
Proof.
  set (o := MessengerrrrJs.sendMessageToProfile env profile message l w).
  assert (Ho : o = MessengerrrrJs.sendMessageToProfile env profile message l w)
    by reflexivity.
  clearbody o.
  unfold MessengerrrrJs.sendMessageToProfile, MessengerrrrJs.success_record,
    MessengerrrrJs.failure_record in Ho.
  unfold_run_in Ho.
  match type of Ho with
  | context [MessengerrrrJs.reach_profile env ?p ?l0 ?w0] =>
      destruct (MessengerrrrJs.reach_profile env p l0 w0) as [[[[]|msg]|] t0 l1 w1]
  end; reduce_run_in Ho.
  - match type of Ho with
    | context [MessengerrrrJs.deliver_message env ?m ?l0 ?w0] =>
        pose proof (deliver_message_vars' m l0 w0 eq_refl eq_refl) as Hvars;
        destruct_run (MessengerrrrJs.deliver_message env m l0 w0)
          as [[[[]|msg]|] t1 l2 w2]
    end; cbn in Hvars; reduce_run_in Ho; destruct Hvars as [Hpresent Hsent].
    + unfold MessengerrrrJs.preview_of in Ho.
      destruct message; unfold_run_in Ho; subst o; cbn [res];
        destruct profile; record_fields; rewrite Hpresent, Hsent.
      all: try (right; repeat split; try discriminate; right; repeat split).
      left. repeat split. eexists. split; reflexivity.
    + subst o; cbn [res]. destruct profile; record_fields.
      right. rewrite Hsent. repeat split; try discriminate. left. split; [|reflexivity].
      destruct Hpresent as [->| ->]; auto.
  - subst o; cbn [res]. destruct profile; record_fields.
    right. repeat split; try discriminate. left. split; [|reflexivity]. auto.
  - subst o. exact I.
Qed.

(** [messenger.js]: the inner [catch] of [sendMessageToProfile] replaces
    every error of the delivery steps by one message. *)
Lemma deliver_message_error (message : string) (l : Locals) (w : World) :
  match res (MessengerJs.deliver_message env message l w) with
  | Settled (Throw msg) => msg = "Profile unavailable or no messaging option found"
  | _ => True
  end.
Proof.
  unfold MessengerJs.deliver_message, try_catch, throw.
  match goal with
  | |- context [match ?m l w with _ => _ end] => destruct (m l w) as [[[[]|msg]|] t l1 w1]
  end; cbn [res]; auto.
Qed.

End Record.

Lemma well_formed_shows (profile : Profile) (message : string) (r : Outcome) :
  well_formed profile (JStr message) r -> shown_in_record message r.
Proof.
  intros (_ & _ & _ & [Hsuccess|Hfailure]) Hr.
  - destruct Hsuccess as (_ & _ & (text & Htext & Hshown) & _).
    injection Htext as <-. exists (preview message).
    split; [exact Hshown|]. apply preview_bounds.
  - destruct Hfailure as (Hfalse & _). rewrite Hfalse in Hr. discriminate.
Qed.

(** X8.  The [message] field of a success record of [sendMessageToProfile],
    when the message is a string: it is the message itself when it has at
    most 50 UTF-16 code units, and its first 50 code units followed by "..."
    otherwise, so that it never has more than 53 code units. *)
Theorem preview_is_bounded :
  forall (env : Env) (profile : Profile) (message email : string) (headless : JsVal)
         (w : World),
    match res (MessengerJs.sendMessageToProfile env profile message email headless tt w)
    with
    | Settled (Ok r) => shown_in_record message r
    | _ => False
    end
    /\ match res (MessengerrrrJs.sendMessageToProfile env profile (JStr message) tt w)
       with
       | Settled (Ok r) => shown_in_record message r
       | Settled (Throw _) => False
       | Stopped => True
       end.
Proof.
  intros env profile message email headless w. split.
  - destruct (sendMessageToProfile_record env profile message email headless tt w)
      as (r & -> & Hr).
    apply (well_formed_shows profile). exact Hr.
  - pose proof (sendMessageToProfile_record' env profile (JStr message) tt w) as Hr.
    destruct (res (MessengerrrrJs.sendMessageToProfile env profile (JStr message) tt w))
      as [[r|msg]|]; [|exact Hr|exact I].
    apply (well_formed_shows profile). exact Hr.
Qed.

(** A message of 53 code units whose 50th and 51st are the two halves of one
    character: the record shows its first 49 characters, the first half of
    the character, and "...". *)
Example preview_of_a_long_message :
  let shown {L} (o : Out L Outcome) :=
    match res o with Settled (Ok r) => message_preview r | _ => None end in
  utf16_length long_message = 53%nat
  /\ shown (MessengerJs.sendMessageToProfile no_send_button one_profile long_message
              "a@x.com" (JBool true) tt fresh_world)
     = Some ("aaaaaaaaaaaaaaaaaaaaaaaaaaaaaaaaaaaaaaaaaaaaaaaaa" ++ half_face ++ "...")
  /\ shown (MessengerrrrJs.sendMessageToProfile no_send_button one_profile
              (JStr long_message) tt fresh_world)
     = Some ("aaaaaaaaaaaaaaaaaaaaaaaaaaaaaaaaaaaaaaaaaaaaaaaaa" ++ half_face ++ "...").
Proof. vm_compute. repeat split. Qed.

(** X15.  [sendMessageToProfile] never throws.  It returns a record about
    the profile it was given, with a duration and no timestamp, which is
    either a success, with no error, the preview of the message and both
    flags at "Yes", or a failure, with an error and no preview.  A failure
    has [messageSent] at "No", except in [messengerrrr.js] when the message
    is not a string: both flags are then at "Yes".  [messenger.js] always
    returns; [messengerrrr.js] returns unless a download of the audio
    challenge does not settle, and then stops at that call. *)
Theorem outcome_record_is_well_formed :
  forall (env : Env) (profile : Profile) (message email : string)
         (input_message headless : JsVal) (w : World),
    (exists r,
       res (MessengerJs.sendMessageToProfile env profile message email headless tt w)
       = Ok r
       /\ well_formed profile (JStr message) r)
    /\ (let o := MessengerrrrJs.sendMessageToProfile env profile input_message tt w in
        match res o with
        | Settled (Ok r) => well_formed profile input_message r
        | Settled (Throw _) => False
        | Stopped => stopped_at_download (trace o)
        end).
Proof.
  intros env profile message email input_message headless w.
  split; [apply sendMessageToProfile_record|].
  intros o.
  pose proof (sendMessageToProfile_record' env profile input_message tt w) as Hr.
  fold o in Hr.
  destruct (res o) as [[r|msg]|] eqn:Hres; [exact Hr|exact Hr|].
  apply (sendMessageToProfile_stops env profile input_message tt w). exact Hres.
Qed.

(** X16.  [messenger.js]: once the profile page has been reached, every
    failure of the delivery steps, whatever its cause (no "Message" button,
    no message field, a click or a key press that throws), is reported with
    the one error "Profile unavailable or no messaging option found". *)
Theorem delivery_failures_are_masked :
  forall (env : Env) (profile : Profile) (message email : string) (headless : JsVal)
         (w : World),
    res (MessengerJs.reach_profile env profile email headless tt w) = Ok tt ->
    exists r,
      res (MessengerJs.sendMessageToProfile env profile message email headless tt w)
      = Ok r
      /\ (success r = true
          \/ error r = Some "Profile unavailable or no messaging option found").
Proof.
  intros env profile message email headless w Hreach.
  set (o := MessengerJs.sendMessageToProfile env profile message email headless tt w).
  assert (Ho : o = MessengerJs.sendMessageToProfile env profile message email
                     headless tt w) by reflexivity.
  clearbody o.
  unfold MessengerJs.sendMessageToProfile, MessengerJs.success_record,
    MessengerJs.failure_record in Ho.
  unfold_run_in Ho.
  destruct (MessengerJs.reach_profile env profile email headless tt w)
    as [ra ta la wa]; cbn [res] in Hreach; subst ra. reduce_run_in Ho.
  match type of Ho with
  | context [MessengerJs.deliver_message env ?m ?l0 ?w0] =>
      pose proof (deliver_message_error env m l0 w0) as Herr;
      destruct_run (MessengerJs.deliver_message env m l0 w0) as [[[[]|msg]|] t1 l1 w1]
  end; cbn [res] in Herr; reduce_run_in Ho; subst o; cbn [res];
    eexists; (split; [reflexivity|]); cbn [success error].
  - left. reflexivity.
  - right. rewrite Herr. reflexivity.
Qed.

Lemma delivery_failures_are_masked_witness :
  exists r,
    res (MessengerJs.sendMessageToProfile no_message_button one_profile "hi" "a@x.com"
           (JBool true) tt fresh_world) = Ok r
    /\ (success r = true
        \/ error r = Some "Profile unavailable or no messaging option found").
Proof.
  apply (delivery_failures_are_masked no_message_button one_profile "hi" "a@x.com"
           (JBool true) fresh_world).
  vm_compute. reflexivity.
Defined.

(* ====================================================================== *)
(** * The login wall *)
(* ====================================================================== *)

Section OnReturn.

Variable p : Event -> bool.

Lemma on_return_confined {L A} (m : M L A) :
  confined any_env p m -> on_return p m.
Proof.
  intros Hm l w. destruct (Hm l w I) as [Ht _].
  destruct (res (m l w)) as [[a|msg]|]; [exact Ht|exact I|exact I].
Qed.

Lemma on_return_dead {L A} (m : M L A) :
  never_returns m -> on_return p m.
Proof.
  intros Hm l w. destruct (Hm l w) as [msg Hmsg]. rewrite Hmsg. exact I.
Qed.

Lemma on_return_bind {L A B} (m : M L A) (f : A -> M L B) :
  on_return p m -> (forall a, on_return p (f a)) -> on_return p (bind m f).
Proof.
  intros Hm Hf l w. unfold bind. specialize (Hm l w).
  destruct (m l w) as [[[a|msg]|] t l1 w1]; cbn [res trace] in *; try exact I.
  specialize (Hf a l1 w1).
  destruct (f a l1 w1) as [[[b|msg]|] t2 l2 w2]; cbn [res trace] in *; try exact I.
  rewrite forallb_app, Hm, Hf. reflexivity.
Qed.

Lemma on_return_call {L L' A} (init : L') (m : M L' A) :
  on_return p m -> on_return p (@call L L' A init m).
Proof.
  intros Hm l w. unfold call. specialize (Hm init w).
  destruct (m init w) as [[[a|msg]|] t l1 w1]; cbn [res trace] in *; auto.
Qed.

End OnReturn.

Lemma none_of (f : Event -> bool) (tr : list Event) :
  forallb (fun e => negb (f e)) tr = true -> existsb f tr = false.
Proof.
  induction tr as [|e tr IH]; [reflexivity|].
  cbn [forallb existsb]. intros H. apply andb_true_iff in H.
  destruct H as [He Htr]. rewrite IH by exact Htr.
  destruct (f e); [discriminate|reflexivity].
Qed.

Section LoginWall.

Variable env : Env.

Ltac wall_side := intros; reflexivity.
Ltac wall_confined known := confine wall_side known.

Lemma humanClick_no_login {L} (t : Target) :
  confined any_env no_login_attempt (@humanClick env L t).
Proof. unfold humanClick, humanMove, receiver. destruct t; wall_confined ltac:(fail). Qed.

Lemma humanType_no_login {L} (t : Target) (text : JsVal) (min max : Z) :
  confined any_env no_login_attempt (@humanType env L t text min max).
Proof. unfold humanType, receiver. destruct t; wall_confined ltac:(fail). Qed.

Lemma humanScroll_no_login {L} (distance steps : Z) :
  confined any_env no_login_attempt (@humanScroll env L distance steps).
Proof. unfold humanScroll. wall_confined ltac:(fail). Qed.

Lemma isLoginRequired_no_login {L} :
  confined any_env no_login_attempt (@isLoginRequired env L).
Proof. unfold isLoginRequired. wall_confined ltac:(fail). Qed.

Lemma first_match_no_login {L} (selectors : list string) :
  confined any_env no_login_attempt (@first_match env L selectors).
Proof.
  induction selectors as [|sel rest IH]; [apply confined_ret|].
  rewrite first_match_cons. wall_confined ltac:(assumption).
Qed.

Lemma navigate_no_login {L} (fuel : nat) (target : string) :
  forall success attempt,
    confined any_env no_login_attempt (@navigate env L fuel target success attempt).
Proof.
  induction fuel as [|fuel IH]; intros success attempt; rewrite navigate_eq;
    wall_confined ltac:(eauto).
Qed.

Lemma loadCookies_no_login {L} (email : string) :
  confined any_env no_login_attempt (@MessengerJs.loadCookies env L email).
Proof. unfold MessengerJs.loadCookies. wall_confined ltac:(fail). Qed.

Lemma deliver_message_no_login (message : string) :
  confined any_env no_login_attempt (MessengerJs.deliver_message env message).
Proof.
  unfold MessengerJs.deliver_message.
  wall_confined ltac:(first [ apply humanClick_no_login | apply humanType_no_login
                            | apply first_match_no_login ]).
Qed.

(** [messenger.js]: the way to the profile page returns only if no login
    was required. *)
Lemma reach_profile_without_login {L} (profile : Profile) (email : string)
      (headless : JsVal) :
  on_return no_login_attempt (@MessengerJs.reach_profile env L profile email headless).
Proof.
  unfold MessengerJs.reach_profile.
  apply on_return_bind; [apply on_return_confined|intros _].
  { wall_confined ltac:(apply loadCookies_no_login). }
  apply on_return_bind; [apply on_return_confined; apply navigate_no_login|intros _].
  apply on_return_bind;
    [apply on_return_confined; apply isLoginRequired_no_login|intros needsLogin].
  apply on_return_bind.
  - destruct needsLogin; [|apply on_return_confined; apply confined_ret].
    apply on_return_dead.
    apply never_returns_bind_r; [settle|intros pe].
    apply never_returns_bind_l. apply login_never_returns.
  - intros _. apply on_return_confined.
    wall_confined ltac:(apply humanScroll_no_login).
Qed.

Lemma sendMessageToProfile_without_login {L} (profile : Profile)
      (message email : string) (headless : JsVal) (l : L) (w : World) :
  let o := MessengerJs.sendMessageToProfile env profile message email headless l w in
  exists r,
    res o = Ok r
    /\ (success r = false \/ existsb is_login_attempt (trace o) = false).
Proof.
  intros o.
  assert (Ho : o = MessengerJs.sendMessageToProfile env profile message email
                     headless l w) by reflexivity.
  clearbody o. unfold MessengerJs.sendMessageToProfile in Ho.
  unfold call, try_catch in Ho. unfold bind at 1, Date_now in Ho.
  match type of Ho with
  | context [match ?m initial_locals w with _ => _ end] =>
      assert (Hbody : on_return no_login_attempt m)
  end.
  { apply on_return_bind;
      [apply on_return_call; apply reach_profile_without_login|intros _].
    apply on_return_bind;
      [apply on_return_confined; apply deliver_message_no_login|intros _].
    apply on_return_confined. unfold MessengerJs.success_record.
    wall_confined ltac:(fail). }
  specialize (Hbody initial_locals w).
  match type of Ho with
  | context [match ?m initial_locals w with _ => _ end] =>
      assert (Hsettles : res (m initial_locals w) <> Stopped) by not_stopped;
      destruct (m initial_locals w) as [[[r|msg]|] t l1 w1]
  end; cbn [res trace] in Hbody, Hsettles.
  - reduce_run_in Ho. subst o. cbn [res trace]. exists r. split; [reflexivity|].
    right. apply none_of. exact Hbody.
  - unfold MessengerJs.failure_record in Ho. unfold_run_in Ho.
    subst o. cbn [res]. eexists. split; [reflexivity|]. left. reflexivity.
  - exfalso. apply Hsettles. reflexivity.
Qed.

End LoginWall.

(** X17.  [messenger.js]: no profile that requires a login is ever
    messaged.  Every record of [sendMessageToProfile] is a failure, or
    comes from a run in which no login was attempted: the login of
    [messenger.js] throws on every page, so that a successful record is one
    for which [isLoginRequired] answered [false]. *)
Theorem login_wall_fails_the_profile :
  forall (env : Env) (profile : Profile) (message email : string) (headless : JsVal)
         (w : World),
    let o := MessengerJs.sendMessageToProfile env profile message email headless tt w in
    exists r,
      res o = Ok r
      /\ (success r = false \/ existsb is_login_attempt (trace o) = false).
Proof. intros. apply sendMessageToProfile_without_login. Qed.

(** Behind a login form that goes away once it has been submitted,
    [messengerrrr.js] logs in and delivers the message; [messenger.js]
    attempts the login and fails the profile. *)
Example login_wall_runs :
  let verdict {L} (o : Out L Outcome) :=
    (match res o with Settled (Ok r) => Some (success r, error r) | _ => None end,
     existsb is_login_attempt (trace o)) in
  verdict (MessengerrrrJs.sendMessageToProfile login_wall one_profile (JStr "hi") tt
             headless_world)
  = (Some (true, None), true)
  /\ verdict (MessengerJs.sendMessageToProfile login_wall one_profile "hi" "a@x.com"
                (JBool true) tt headless_world)
     = (Some (false, Some "elementHandle.click is not a function"), true).
Proof. vm_compute. split; reflexivity. Qed.

(* ---------------------------------------------------------------------- *)
(** ** The login of [messengerrrr.js] *)

Lemma concat_app (a b : list string) :
  String.concat EmptyString (a ++ b)
  = String.concat EmptyString a ++ String.concat EmptyString b.
Proof.
  induction a as [|x a IH]; [reflexivity|].
  cbn [app]. rewrite !concat_cons, IH.
  clear. induction x as [|c x IH]; cbn; [reflexivity|rewrite IH; reflexivity].
Qed.

Lemma typed_into_app (a b : list Event) :
  typed_into (a ++ b) = (typed_into a ++ typed_into b)%list.
Proof.
  induction a as [|e a IH]; [reflexivity|].
  destruct e as [ms|act r|q r|f sel r|h r|fs|u|q r|r|key r|link d]; cbn; try exact IH.
  destruct act; try exact IH. cbn. rewrite IH. reflexivity.
Qed.

Lemma typed_into_texts (tr : list Event) :
  map snd (typed_into tr) = typed_texts tr.
Proof.
  induction tr as [|e tr IH]; [reflexivity|].
  destruct e as [ms|act r|q r|f sel r|h r|fs|u|q r|r|key r|link d]; cbn; try exact IH.
  destruct act; try exact IH. cbn. rewrite IH. reflexivity.
Qed.

Lemma typed_into_none (tr : list Event) :
  typed_texts tr = [] -> typed_into tr = [].
Proof.
  rewrite <- typed_into_texts. destruct (typed_into tr); [reflexivity|discriminate].
Qed.

Lemma typed_into_only (e : ElementHandle) (tr : list Event) :
  forallb (types_into e) tr = true -> typed_into tr = map (pair e) (typed_texts tr).
Proof.
  induction tr as [|ev tr IH]; [reflexivity|].
  cbn [forallb]. intros H. apply andb_true_iff in H. destruct H as [Hev Htr].
  destruct ev as [ms|act r|q r|f sel r|h r|fs|u|q r|r|key r|link d]; cbn; auto.
  destruct act; cbn; auto.
  cbn in Hev. apply Nat.eqb_eq in Hev. subst. rewrite IH by exact Htr. reflexivity.
Qed.

Lemma typed_into_words (tr : list Event) :
  Forall is_mock_word (typed_texts tr) ->
  Forall (fun typed => is_mock_word (snd typed)) (typed_into tr).
Proof. rewrite <- typed_into_texts. apply Forall_map. Qed.

Lemma followed_by_here (e : Event) (after : list Event -> Prop) (rest : list Event) :
  after rest -> followed_by e after (e :: rest).
Proof. intros H. exists nil, rest. split; [reflexivity|exact H]. Qed.

Lemma followed_by_cons (e e' : Event) (after : list Event -> Prop) (tr : list Event) :
  followed_by e after tr -> followed_by e after (e' :: tr).
Proof.
  intros (before & rest & -> & H). exists (e' :: before), rest.
  split; [reflexivity|exact H].
Qed.

Lemma followed_by_app (e : Event) (after : list Event -> Prop) (t tr : list Event) :
  followed_by e after tr -> followed_by e after (t ++ tr).
Proof.
  intros (before & rest & -> & H). exists (t ++ before)%list, rest.
  rewrite app_assoc. split; [reflexivity|exact H].
Qed.

Lemma confined_bind_ret {L A B} (pre : ProcessEnv -> Prop) (p : Event -> bool)
      (a : A) (f : A -> M L B) :
  confined pre p (f a) -> confined pre p (bind (ret a) f).
Proof. intros H l w Hpre. rewrite bind_ret. apply H. exact Hpre. Qed.

Section Typing.

Variable env : Env.

Lemma humanClick_types_nothing {L} (t : Target) (l : L) (w : World) :
  typed_texts (trace (humanClick env t l w)) = [].
Proof.
  apply typed_texts_none.
  assert (H : confined any_env no_typing (@humanClick env L t)).
  { unfold humanClick, humanMove, receiver.
    destruct t; confine ltac:(intros; reflexivity) ltac:(fail). }
  apply (H l w I).
Qed.

(** [humanClick] on an element handle, when it returns. *)
Lemma humanClick_outcome {L} (e : ElementHandle) (l : L) (w : World) :
  let o := humanClick env (THandle e) l w in
  res o = Ok tt -> clicks_if_visible e (trace o).
Proof.
  intros o. subst o.
  destruct (env_box env (clock w) e) as [[box|]|msg] eqn:Hbox.
  - pose proof (humanClick_on_box env e box l w Hbox) as (_ & _ & Hok).
    cbv zeta in Hok.
    assert (Hhead : exists t0, trace (humanClick env (THandle e) l w)
                               = EBox e (Ok (Some box)) :: t0).
    { unfold humanClick, receiver. rewrite bind_ret.
      unfold bind at 1, boundingBox. rewrite !Hbox.
      match goal with
      | |- context [match ?x ?l0 ?w0 with _ => _ end] => destruct (x l0 w0)
      end.
      eexists. reflexivity. }
    destruct Hhead as [t0 Ht0].
    intros Hres. destruct (Hok Hres) as (_ & d & t & _ & Htrace & Hnone).
    rewrite Ht0 in Htrace |- *.
    destruct t as [|ev t]; [discriminate|].
    injection Htrace as <- ->.
    right. exists box, t, d. split; [reflexivity|].
    cbn [existsb] in Hnone. apply orb_false_iff in Hnone. apply Hnone.
  - unfold humanClick, receiver. rewrite bind_ret.
    unfold bind, boundingBox, ret. rewrite !Hbox. cbn. intros _. left. reflexivity.
  - unfold humanClick, receiver. rewrite bind_ret.
    unfold bind, boundingBox. rewrite !Hbox. cbn. discriminate.
Qed.

Lemma humanType_into {L} (e : ElementHandle) (text : string) (min max : Z)
      (l : L) (w : World) :
  let o := humanType env (THandle e) (JStr text) min max l w in
  res o = Ok tt -> typed_into (trace o) = map (pair e) (keystrokes text).
Proof.
  intros o Hres.
  destruct (humanType_run env e text min max l w) as (_ & _ & Hall & _).
  fold o in Hall. rewrite <- (Hall Hres).
  apply typed_into_only.
  assert (H : confined any_env (types_into e)
                (@humanType env L (THandle e) (JStr text) min max)).
  { unfold humanType, receiver. cbn [for_of].
    apply confined_bind_ret.
    confine ltac:(intros; cbn; first [reflexivity | apply Nat.eqb_refl]) ltac:(fail). }
  apply (H l w I).
Qed.

Lemma isLoginRequired_types_nothing {L} (l : L) (w : World) :
  typed_texts (trace (isLoginRequired env l w)) = [].
Proof.
  apply typed_texts_none.
  assert (H : confined any_env no_typing (@isLoginRequired env L)).
  { unfold isLoginRequired. confine ltac:(intros; reflexivity) ltac:(fail). }
  apply (H l w I).
Qed.

Lemma manualWait_types_nothing {L} (fuel : nat) (start maxWait : Z) (l : L) (w : World) :
  typed_texts (trace (manualWait env fuel start maxWait l w)) = [].
Proof.
  apply typed_texts_none.
  assert (H : forall fuel, confined any_env no_typing
                             (@manualWait env L fuel start maxWait)).
  { clear. induction fuel as [|fuel IH]; rewrite manualWait_eq;
      confine ltac:(intros; reflexivity) ltac:(assumption). }
  apply (H fuel l w I).
Qed.

(** Whatever the chain of [messengerrrr.js] types is one of the ten words
    of the mock transcription. *)
Lemma solveCaptcha_types_mock_words {L} (l : L) (w : World) :
  Forall is_mock_word (typed_texts (trace (MessengerrrrJs.solveCaptcha env l w))).
Proof.
  set (o := MessengerrrrJs.solveCaptcha env l w).
  assert (Ho : o = MessengerrrrJs.solveCaptcha env l w) by reflexivity.
  clearbody o. unfold MessengerrrrJs.solveCaptcha in Ho.
  unfold bind at 1, test in Ho.
  destruct (env_test env (clock w) PCaptchaPresent) as [[|]|msg]; cbn [negb] in Ho.
  2, 3: subst o; cbn; constructor.
  unfold bind at 1 in Ho.
  match type of Ho with
  | context [MessengerrrrJs.solveRecaptchaAudio env ?l1 ?w1] =>
      pose proof (only_mock_words_typed env l1 w1) as Hwords;
      destruct (MessengerrrrJs.solveRecaptchaAudio env l1 w1) as [[[[|]|msg]|] t1 l2 w2]
  end; cbn [trace] in Hwords.
  1, 3, 4: unfold ret in Ho; reduce_run_in Ho; subst o; cbn [trace typed_texts app];
    rewrite ?app_nil_r; exact Hwords.
  unfold bind at 1, process_env in Ho.
  destruct (negb (MessengerrrrJs.is_true_string (HEADLESS (penv w2)))).
  - unfold bind at 1, Date_now in Ho. unfold bind, ret in Ho.
    match type of Ho with
    | context [manualWait env ?f ?s ?m ?l3 ?w3] =>
        pose proof (manualWait_types_nothing f s m l3 w3) as Hwait;
        destruct (manualWait env f s m l3 w3) as [[[[|]|msg]|] t2 l4 w4]
    end; cbn [trace] in Hwait; reduce_run_in Ho; subst o;
      cbn [trace typed_texts app];
      rewrite ?app_nil_r, ?typed_texts_app, ?Hwait, ?app_nil_r; exact Hwords.
  - unfold ret in Ho. reduce_run_in Ho. subst o. cbn [trace typed_texts app].
    rewrite ?app_nil_r. exact Hwords.
Qed.

Ltac login_call Ho :=
  let t := fresh "t" in
  let l' := fresh "l" in
  let w' := fresh "w" in
  let msg := fresh "msg" in
  match type of Ho with
  | context [humanClick env (THandle ?h) ?l0 ?w0] =>
      let H := fresh "Htyped" in
      let Hc := fresh "Hclick" in
      pose proof (humanClick_types_nothing (THandle h) l0 w0) as H;
      apply typed_into_none in H;
      pose proof (humanClick_outcome h l0 w0) as Hc; cbv zeta in Hc;
      destruct_run (humanClick env (THandle h) l0 w0) as [[[[]|msg]|] t l' w'];
      cbn [res trace] in H, Hc; [specialize (Hc eq_refl)|clear Hc]
  | context [humanType env (THandle ?h) (JStr ?s) ?a ?b ?l0 ?w0] =>
      let H := fresh "Htyped" in
      pose proof (humanType_into h s a b l0 w0) as H; cbv zeta in H;
      destruct_run (humanType env (THandle h) (JStr s) a b l0 w0)
        as [[[[]|msg]|] t l' w'];
      cbn [res trace] in H; [specialize (H eq_refl)|clear H]
  | context [MessengerrrrJs.solveCaptcha env ?l0 ?w0] =>
      let H := fresh "Hwords" in
      let b := fresh "solved" in
      pose proof (solveCaptcha_types_mock_words l0 w0) as H;
      apply typed_into_words in H;
      destruct (MessengerrrrJs.solveCaptcha env l0 w0) as [[[b|msg]|] t l' w'];
      cbn [trace] in H; [destruct b| |]
  | context [isLoginRequired env ?l0 ?w0] =>
      let H := fresh "Htyped" in
      let b := fresh "still" in
      pose proof (isLoginRequired_types_nothing l0 w0) as H;
      apply typed_into_none in H;
      destruct_run (isLoginRequired env l0 w0) as [[[b|msg]|] t l' w'];
      cbn [trace] in H; [destruct b|]
  end;
  reduce_run_in Ho.

(** The login when it returns. *)
Lemma performFacebookLogin_types (email password : string) (w : World) :
  let o := MessengerrrrJs.performFacebookLogin env (Some email) (Some password) tt w in
  res o <> Stopped ->
  match res o with
  | Settled (Ok _) =>
      exists extra emailField passwordField q,
        typed_into (trace o)
        = (map (pair emailField) (keystrokes email)
           ++ map (pair passwordField) (keystrokes password) ++ extra)%list
        /\ In (EQuery None emailSelector (Ok (Some emailField))) (trace o)
        /\ In (EQuery None passwordSelector (Ok (Some passwordField))) (trace o)
        /\ Forall (fun typed => is_mock_word (snd typed)) extra
        /\ followed_by (EQuery None loginButtonSelector q) (submission q) (trace o)
  | _ => True
  end.
Proof.
  intros o.
  assert (Ho : o = MessengerrrrJs.performFacebookLogin env (Some email) (Some password)
                     tt w) by reflexivity.
  clearbody o. unfold MessengerrrrJs.performFacebookLogin in Ho.
  cbn [of_env_var] in Ho. unfold_run_in Ho.
  repeat first [ progress (try (subst o; intros _; exact I)); fail
               | login_call Ho
               | exec_env_step Ho ].
  all: try (subst o; intros _; exact I).
  all: subst o; cbn [res trace]; intros _.
  all: repeat (rewrite typed_into_app || cbn [typed_into app loginRace]).
  all: repeat match goal with
         | H : typed_into ?t = _ |- context [typed_into ?t] => rewrite H
         end.
  all: cbn [app]; rewrite ?app_nil_r.
  all: first
         [ exists nil; do 3 eexists; rewrite app_nil_r; split; [reflexivity|]
         | do 4 eexists; split; [reflexivity|] ].
  all: split; [right; left; reflexivity|].
  all: split;
    [ repeat first [ left; reflexivity | right | apply in_or_app; right ] |].
  all: split; [first [constructor | eassumption]|].
  all: repeat first [ apply followed_by_here | apply followed_by_cons
                    | apply followed_by_app ].
  all: cbn [submission]; try (eexists; reflexivity).
  all: do 2 eexists; split; [reflexivity|assumption].
Qed.

End Typing.

(** X18.  [messengerrrr.js]: when the login returns, it has typed the
    identity into the field answered for the e-mail selector, then the
    secret into the field answered for the password selector; the only
    other thing it may have typed is a word of the mock transcription.  It
    has looked up the login button, and what follows that look-up is a
    press of Enter when there is no button, and [humanClick] on the button
    when there is one, which clicks it once if it has a bounding box and
    does nothing if it has none; then comes the wait for the navigation.
    The login stops only at a download that does not settle. *)
Theorem login_types_identity_then_secret :
  forall (env : Env) (email password : string) (w : World),
    let o := MessengerrrrJs.performFacebookLogin env (Some email) (Some password) tt w in
    match res o with
    | Settled (Ok _) =>
        exists extra emailField passwordField q,
          typed_into (trace o)
          = (map (pair emailField) (keystrokes email)
             ++ map (pair passwordField) (keystrokes password) ++ extra)%list
          /\ In (EQuery None emailSelector (Ok (Some emailField))) (trace o)
          /\ In (EQuery None passwordSelector (Ok (Some passwordField))) (trace o)
          /\ Forall (fun typed => is_mock_word (snd typed)) extra
          /\ followed_by (EQuery None loginButtonSelector q) (submission q) (trace o)
    | Settled (Throw _) => True
    | Stopped => stopped_at_download (trace o)
    end.
Proof.
  intros env email password w o.
  pose proof (performFacebookLogin_types env email password w) as H.
  cbv zeta in H. fold o in H.
  destruct (res o) as [[b|msg]|] eqn:Hres.
  - apply H. discriminate.
  - exact I.
  - apply (performFacebookLogin_stops env (Some email) (Some password) tt w).
    exact Hres.
Qed.

(** A login page on which no element has a bounding box: the login types
    the identity and the secret, neither clicks the login button nor
    presses Enter, and returns [true] all the same, the page being past the
    login when it looks. *)
Example login_without_submission :
  let o := MessengerrrrJs.performFacebookLogin invisible (Some "a@x.com")
             (Some "secret") tt fresh_world in
  res o = Ok true
  /\ map snd (typed_into (trace o)) = (keystrokes "a@x.com" ++ keystrokes "secret")%list
  /\ pressed_enter (trace o) = false
  /\ existsb (fun e => match e with
                       | EDo (AClick _ None _) _ => true
                       | _ => false
                       end) (trace o) = false
  /\ existsb (fun e => match e with
                       | EQuery None sel (Ok (Some _)) =>
                           (sel =? loginButtonSelector)%string
                       | _ => false
                       end) (trace o) = true.
Proof. vm_compute. repeat split. Qed.

(* ====================================================================== *)
(** * The life of the browser *)
(* ====================================================================== *)

Create HintDb page.

(** The functions below make no call that starts, sets up or ends the run.
    [p] is any property of calls that all other calls have. *)
Section PageLevel.

Variable env : Env.
Variable pre : ProcessEnv -> Prop.
Variable p : Event -> bool.
Hypothesis page_level_allowed : forall e, page_level e = true -> p e = true.

Ltac page_side := intros; apply page_level_allowed; reflexivity.
Ltac page_known := eauto with nocore page.
Ltac page_confined := confine page_side page_known.

Lemma humanClick_page {L} (t : Target) : confined pre p (@humanClick env L t).
Proof. unfold humanClick, humanMove, receiver. destruct t; page_confined. Qed.

Lemma humanType_page {L} (t : Target) (text : JsVal) (min max : Z) :
  confined pre p (@humanType env L t text min max).
Proof. unfold humanType, receiver. destruct t; page_confined. Qed.

Lemma humanScroll_page {L} (distance steps : Z) :
  confined pre p (@humanScroll env L distance steps).
Proof. unfold humanScroll. page_confined. Qed.

Lemma isLoginRequired_page {L} : confined pre p (@isLoginRequired env L).
Proof. unfold isLoginRequired. page_confined. Qed.

Lemma first_match_page {L} (selectors : list string) :
  confined pre p (@first_match env L selectors).
Proof.
  induction selectors as [|sel rest IH]; [apply confined_ret|].
  rewrite first_match_cons. confine page_side ltac:(assumption).
Qed.

Lemma navigate_page {L} (fuel : nat) (target : string) :
  forall success attempt, confined pre p (@navigate env L fuel target success attempt).
Proof.
  induction fuel as [|fuel IH]; intros success attempt; rewrite navigate_eq;
    confine page_side ltac:(eauto).
Qed.

Lemma tickCheckbox_page {L} : confined pre p (@tickCheckbox env L).
Proof. unfold tickCheckbox. page_confined. Qed.

Lemma manualWait_page {L} (fuel : nat) (start maxWait : Z) :
  confined pre p (@manualWait env L fuel start maxWait).
Proof.
  induction fuel as [|fuel IH]; rewrite manualWait_eq;
    confine page_side ltac:(assumption).
Qed.

#[local] Hint Resolve humanClick_page humanType_page humanScroll_page
  isLoginRequired_page first_match_page navigate_page tickCheckbox_page
  manualWait_page : page.

(* ------------------------------ messenger.js ----------------------------- *)

Lemma loadCookies_page {L} (email : string) :
  confined pre p (@MessengerJs.loadCookies env L email).
Proof. unfold MessengerJs.loadCookies. page_confined. Qed.

Lemma saveCookies_page {L} (email : string) :
  confined pre p (@MessengerJs.saveCookies env L email).
Proof. unfold MessengerJs.saveCookies. page_confined. Qed.

Lemma solveCaptcha_page {L} (headless : JsVal) :
  confined pre p (@MessengerJs.solveCaptcha env L headless).
Proof.
  unfold MessengerJs.solveCaptcha, MessengerJs.solveRecaptchaAudio. page_confined.
Qed.

#[local] Hint Resolve loadCookies_page saveCookies_page solveCaptcha_page : page.

Lemma performFacebookLogin_page {L} (email password : string) :
  confined pre p (@MessengerJs.performFacebookLogin env L email password).
Proof. unfold MessengerJs.performFacebookLogin. page_confined. Qed.

#[local] Hint Resolve performFacebookLogin_page : page.

Lemma sendMessageToProfile_page {L} (profile : Profile) (message email : string)
      (headless : JsVal) :
  confined pre p (@MessengerJs.sendMessageToProfile env L profile message email headless).
Proof.
  unfold MessengerJs.sendMessageToProfile, MessengerJs.reach_profile,
    MessengerJs.deliver_message, MessengerJs.success_record,
    MessengerJs.failure_record.
  page_confined.
Qed.

Lemma establish_session_page {L} (email : string) :
  confined pre p (@MessengerJs.establish_session env L email).
Proof. unfold MessengerJs.establish_session. page_confined. Qed.

#[local] Hint Resolve sendMessageToProfile_page establish_session_page : page.

Lemma profile_loop_page (message email : string) (headless : JsVal)
      (profiles : list Profile) :
  forall i, confined pre p (MessengerJs.profile_loop env message email headless i profiles).
Proof.
  induction profiles as [|profile rest IH]; intros i;
    cbn [MessengerJs.profile_loop]; unfold MessengerJs.profile_turn.
  - apply confined_ret.
  - specialize (IH (S i)). confine page_side ltac:(first [assumption | page_known]).
Qed.

(* ----------------------------- messengerrrr.js --------------------------- *)

Lemma loadCookies_page' {L} (email : option string) :
  confined pre p (@MessengerrrrJs.loadCookies env L email).
Proof.
  unfold MessengerrrrJs.loadCookies, MessengerrrrJs.cookieFilePathFor. page_confined.
Qed.

Lemma saveCookies_page' {L} (email : option string) :
  confined pre p (@MessengerrrrJs.saveCookies env L email).
Proof.
  unfold MessengerrrrJs.saveCookies, MessengerrrrJs.cookieFilePathFor. page_confined.
Qed.

Lemma solveCaptcha_page' {L} : confined pre p (@MessengerrrrJs.solveCaptcha env L).
Proof.
  unfold MessengerrrrJs.solveCaptcha, MessengerrrrJs.solveRecaptchaAudio,
    MessengerrrrJs.processAudioChallenge.
  page_confined.
Qed.

#[local] Hint Resolve loadCookies_page' saveCookies_page' solveCaptcha_page' : page.

Lemma performFacebookLogin_page' {L} (email password : option string) :
  confined pre p (@MessengerrrrJs.performFacebookLogin env L email password).
Proof. unfold MessengerrrrJs.performFacebookLogin. page_confined. Qed.

#[local] Hint Resolve performFacebookLogin_page' : page.

Lemma sendMessageToProfile_page' {L} (profile : Profile) (message : JsVal) :
  confined pre p (@MessengerrrrJs.sendMessageToProfile env L profile message).
Proof.
  unfold MessengerrrrJs.sendMessageToProfile, MessengerrrrJs.reach_profile,
    MessengerrrrJs.deliver_message, MessengerrrrJs.success_record,
    MessengerrrrJs.preview_of, MessengerrrrJs.failure_record.
  page_confined.
Qed.

Lemma establish_session_page' {L} (email : option string) :
  confined pre p (@MessengerrrrJs.establish_session env L email).
Proof. unfold MessengerrrrJs.establish_session. page_confined. Qed.

#[local] Hint Resolve sendMessageToProfile_page' establish_session_page' : page.

Lemma profile_loop_page' (message : JsVal) (profiles : list Profile) :
  forall i, confined pre p (MessengerrrrJs.profile_loop env message i profiles).
Proof.
  induction profiles as [|profile rest IH]; intros i;
    cbn [MessengerrrrJs.profile_loop];
    unfold MessengerrrrJs.profile_turn, MessengerrrrJs.logResult.
  - apply confined_ret.
  - specialize (IH (S i)). confine page_side ltac:(first [assumption | page_known]).
Qed.

End PageLevel.

Lemma page_level_refl (e : Event) : page_level e = true -> page_level e = true.
Proof. exact (fun H => H). Qed.

Lemma no_lifecycle (tr : list Event) :
  forallb page_level tr = true ->
  filter is_close tr = [] /\ existsb is_set_up tr = false
  /\ Forall (fun e => published e = None) tr.
Proof.
  induction tr as [|e tr IH]; [repeat split; constructor|].
  cbn [forallb]. intros H. apply andb_true_iff in H. destruct H as [He Htr].
  destruct (IH Htr) as (Hclose & Hsetup & Hpub).
  cbn [filter existsb]. rewrite Hclose, Hsetup.
  destruct e as [ms|a r|q r|f sel r|h r|fs|u|q r|r|key r|link d];
    try (repeat split; [constructor; [reflexivity|exact Hpub]]).
  destruct a; try discriminate;
    (repeat split; [constructor; [reflexivity|exact Hpub]]).
Qed.

Section Batch.

Variable env : Env.

(** The opening of the home page always returns, and leaves [results] as it
    is. *)
Lemma establish_session_run {L} (email : string) (l : L) (w : World) :
  exists t w1, MessengerJs.establish_session env email l w = mkOut (Ok tt) t l w1.
Proof.
  set (o := MessengerJs.establish_session env email l w).
  assert (Ho : o = MessengerJs.establish_session env email l w) by reflexivity.
  clearbody o.
  unfold MessengerJs.establish_session, MessengerJs.loadCookies in Ho.
  unfold_run_in Ho. repeat exec_env_step Ho.
  all: subst o; do 2 eexists; reflexivity.
Qed.

Lemma establish_session_run' {L} (email : option string) (l : L) (w : World) :
  exists t w1, MessengerrrrJs.establish_session env email l w = mkOut (Ok tt) t l w1.
Proof.
  set (o := MessengerrrrJs.establish_session env email l w).
  assert (Ho : o = MessengerrrrJs.establish_session env email l w) by reflexivity.
  clearbody o.
  unfold MessengerrrrJs.establish_session, MessengerrrrJs.loadCookies,
    MessengerrrrJs.cookieFilePathFor in Ho.
  unfold_run_in Ho. repeat exec_env_step Ho.
  all: try (subst o; do 2 eexists; reflexivity).
  all: destruct email; reduce_run_in Ho; repeat exec_env_step Ho.
  all: subst o; do 2 eexists; reflexivity.
Qed.

(** A call of [sendMessageToProfile] of [messengerrrr.js], seen from the
    profile loop. *)
Lemma sendMessageToProfile_shape {L} (profile : Profile) (message : JsVal)
      (l : L) (w : World) :
  exists r t w1,
    MessengerrrrJs.sendMessageToProfile env profile message l w = mkOut r t l w1
    /\ match r with
       | Settled (Ok r) => subject r = profile
       | Settled (Throw _) => False
       | Stopped => True
       end.
Proof.
  pose proof (sendMessageToProfile_record' env profile message l w) as Hr.
  assert (Hl : locals (MessengerrrrJs.sendMessageToProfile env profile message l w)
               = l).
  { unfold MessengerrrrJs.sendMessageToProfile, call.
    match goal with
    | |- context [match ?m ?l0 ?w0 with _ => _ end] => destruct (m l0 w0)
    end. reflexivity. }
  destruct (MessengerrrrJs.sendMessageToProfile env profile message l w)
    as [r t l1 w1]; cbn [res locals] in *. subst l1.
  exists r, t, w1. split; [reflexivity|].
  destruct r as [[r|msg]|]; [apply Hr|exact Hr|exact I].
Qed.

(** One turn of the profile loop: when it returns, [results] has one more
    record, about the profile of the turn; when it throws, [results] is as
    it was. *)
Lemma profile_turn_returns (message email : string) (headless : JsVal)
      (i : nat) (profile : Profile) (results : list Outcome) (w : World) :
  let o := MessengerJs.profile_turn env message email headless i profile results w in
  match res o with
  | Settled (Ok _) => exists r, locals o = (results ++ [r])%list /\ subject r = profile
  | Settled (Throw _) => locals o = results
  | Stopped => False
  end.
Proof.
  intros o.
  assert (Ho : o = MessengerJs.profile_turn env message email headless i profile results w)
    by reflexivity.
  clearbody o. unfold MessengerJs.profile_turn in Ho.
  set (pause := if 0 <? Z.of_nat i then _ else _) in Ho.
  assert (Hpause : exists t w1, pause results w = mkOut (Ok tt) t results w1).
  { subst pause. destruct (0 <? Z.of_nat i); unfold_run; rewrite ?rand_run;
      eexists; eexists; reflexivity. }
  destruct Hpause as (t0 & w0 & Hpause).
  unfold try_catch in Ho. unfold bind at 1 in Ho. rewrite Hpause in Ho.
  unfold bind at 1 in Ho.
  destruct (sendMessageToProfile_run env profile message email headless results w0)
    as (r & t & w1 & Hrun & Hsubject & _ & _).
  rewrite Hrun in Ho. unfold_run_in Ho.
  destruct (env_do env (clock w1) (APushData (with_timestamp (now w1) r)))
    as [msg|]; reduce_run_in Ho.
  - destruct (env_do env _ (APushData (MessengerJs.fail_record profile msg _)))
      as [msg'|]; reduce_run_in Ho; subst o; cbn [res locals]; [reflexivity|].
    eexists. split; [reflexivity|]. destruct profile. reflexivity.
  - subst o. cbn [res locals]. exists r. split; [reflexivity|exact Hsubject].
Qed.

Lemma profile_turn_returns' (message : JsVal)
      (i : nat) (profile : Profile) (results : list Outcome) (w : World) :
  let o := MessengerrrrJs.profile_turn env message i profile results w in
  match res o with
  | Settled (Ok _) => exists r, locals o = (results ++ [r])%list /\ subject r = profile
  | Settled (Throw _) => locals o = results
  | Stopped => True
  end.
Proof.
  intros o.
  assert (Ho : o = MessengerrrrJs.profile_turn env message i profile results w)
    by reflexivity.
  clearbody o. unfold MessengerrrrJs.profile_turn, MessengerrrrJs.logResult in Ho.
  set (pause := if 0 <? Z.of_nat i then _ else _) in Ho.
  assert (Hpause : exists t w1, pause results w = mkOut (Ok tt) t results w1).
  { subst pause. destruct (0 <? Z.of_nat i); unfold_run; rewrite ?rand_run;
      eexists; eexists; reflexivity. }
  destruct Hpause as (t0 & w0 & Hpause).
  unfold try_catch in Ho. unfold bind at 1 in Ho. rewrite Hpause in Ho.
  unfold bind at 1 in Ho.
  destruct (sendMessageToProfile_shape profile message results w0)
    as (r & t & w1 & Hrun & Hsubject).
  rewrite Hrun in Ho. destruct r as [[r|msg]|]; [|destruct Hsubject|subst o; exact I].
  unfold_run_in Ho.
  destruct (env_do env (clock w1) (AAppendFile (with_timestamp (now w1) r)))
    as [msg|]; reduce_run_in Ho.
  - destruct (env_do env _ (AAppendFile (MessengerrrrJs.fail_record profile msg _)))
      as [msg'|]; reduce_run_in Ho; subst o; cbn [res locals]; [reflexivity|].
    eexists. split; [reflexivity|]. destruct profile. reflexivity.
  - subst o. cbn [res locals]. exists r. split; [reflexivity|exact Hsubject].
Qed.

(** The profile loop returns only with one record per profile, in order. *)
Lemma profile_loop_returns (message email : string) (headless : JsVal)
      (profiles : list Profile) :
  forall (i : nat) (results : list Outcome) (w : World),
    let o := MessengerJs.profile_loop env message email headless i profiles results w in
    match res o with
    | Settled (Ok _) =>
        exists rs, locals o = (results ++ rs)%list /\ map subject rs = profiles
    | _ => True
    end.
Proof.
  induction profiles as [|profile rest IH]; intros i results w o; subst o;
    cbn [MessengerJs.profile_loop].
  - cbn. exists []. rewrite app_nil_r. split; reflexivity.
  - unfold bind.
    pose proof (profile_turn_returns message email headless i profile results w) as Hturn.
    cbv zeta in Hturn.
    destruct (MessengerJs.profile_turn env message email headless i profile results w)
      as [[[[]|msg]|] t1 l1 w1]; cbn [res locals] in *; try exact I.
    destruct Hturn as (r & -> & Hr).
    specialize (IH (S i) (results ++ [r])%list w1). cbv zeta in IH.
    destruct (MessengerJs.profile_loop env message email headless (S i) rest
                (results ++ [r])%list w1) as [[[[]|msg]|] t2 l2 w2];
      cbn [res locals] in *; try exact I.
    destruct IH as (rs & -> & Hrs).
    exists (r :: rs). rewrite <- app_assoc. cbn. rewrite Hr, Hrs. split; reflexivity.
Qed.

Lemma profile_loop_returns' (message : JsVal) (profiles : list Profile) :
  forall (i : nat) (results : list Outcome) (w : World),
    let o := MessengerrrrJs.profile_loop env message i profiles results w in
    match res o with
    | Settled (Ok _) =>
        exists rs, locals o = (results ++ rs)%list /\ map subject rs = profiles
    | _ => True
    end.
Proof.
  induction profiles as [|profile rest IH]; intros i results w o; subst o;
    cbn [MessengerrrrJs.profile_loop].
  - cbn. exists []. rewrite app_nil_r. split; reflexivity.
  - unfold bind.
    pose proof (profile_turn_returns' message i profile results w) as Hturn.
    cbv zeta in Hturn.
    destruct (MessengerrrrJs.profile_turn env message i profile results w)
      as [[[[]|msg]|] t1 l1 w1]; cbn [res locals] in *; try exact I.
    destruct Hturn as (r & -> & Hr).
    specialize (IH (S i) (results ++ [r])%list w1). cbv zeta in IH.
    destruct (MessengerrrrJs.profile_loop env message (S i) rest
                (results ++ [r])%list w1) as [[[[]|msg]|] t2 l2 w2];
      cbn [res locals] in *; try exact I.
    destruct IH as (rs & -> & Hrs).
    exists (r :: rs). rewrite <- app_assoc. cbn. rewrite Hr, Hrs. split; reflexivity.
Qed.

(** The body of the [try] that the [finally] of the run closes: the opening
    of the home page, then the profile loop. *)
Lemma batch_run (message email : string) (headless : JsVal)
      (profiles : list Profile) (w : World) :
  let o := (MessengerJs.establish_session env email ;;
            MessengerJs.profile_loop env message email headless 0 profiles) [] w in
  forallb page_level (trace o) = true
  /\ penv (world o) = penv w
  /\ match res o with
     | Settled (Ok _) => map subject (locals o) = profiles
     | Settled (Throw _) => True
     | Stopped => False
     end.
Proof.
  intros o.
  assert (Hpage : confined any_env page_level
                    (MessengerJs.establish_session env email ;;
                     MessengerJs.profile_loop env message email headless 0 profiles)).
  { apply confined_bind; [apply establish_session_page; exact page_level_refl|].
    intros _. apply profile_loop_page. exact page_level_refl. }
  destruct (Hpage [] w I) as [Htrace Hpenv]. fold o in Htrace, Hpenv.
  split; [exact Htrace|]. split; [exact Hpenv|].
  assert (Hsettles : res o <> Stopped) by (subst o; not_stopped).
  revert Hsettles.
  subst o. unfold bind.
  destruct (establish_session_run email (@nil Outcome) w) as (t0 & w0 & ->).
  pose proof (profile_loop_returns message email headless profiles 0 [] w0) as Hloop.
  cbv zeta in Hloop.
  destruct (MessengerJs.profile_loop env message email headless 0 profiles [] w0)
    as [[[[]|msg]|] t1 l1 w1]; cbn [res locals] in *; intros Hsettles;
    [|exact I|apply Hsettles; reflexivity].
  destruct Hloop as (rs & -> & Hrs). exact Hrs.
Qed.

Lemma batch_run' (message : JsVal) (email : option string)
      (profiles : list Profile) (w : World) :
  let o := (MessengerrrrJs.establish_session env email ;;
            MessengerrrrJs.profile_loop env message 0 profiles) [] w in
  forallb page_level (trace o) = true
  /\ penv (world o) = penv w
  /\ match res o with
     | Settled (Ok _) => map subject (locals o) = profiles
     | _ => True
     end.
Proof.
  intros o.
  assert (Hpage : confined any_env page_level
                    (MessengerrrrJs.establish_session env email ;;
                     MessengerrrrJs.profile_loop env message 0 profiles)).
  { apply confined_bind; [apply establish_session_page'; exact page_level_refl|].
    intros _. apply profile_loop_page'. exact page_level_refl. }
  destruct (Hpage [] w I) as [Htrace Hpenv]. fold o in Htrace, Hpenv.
  split; [exact Htrace|]. split; [exact Hpenv|].
  subst o. unfold bind.
  destruct (establish_session_run' email (@nil Outcome) w) as (t0 & w0 & ->).
  pose proof (profile_loop_returns' message profiles 0 [] w0) as Hloop.
  cbv zeta in Hloop.
  destruct (MessengerrrrJs.profile_loop env message 0 profiles [] w0)
    as [[[[]|msg]|] t1 l1 w1]; cbn [res locals] in *; try exact I.
  destruct Hloop as (rs & -> & Hrs). exact Hrs.
Qed.

End Batch.

Section Run.

Variable env : Env.

Lemma processAll_run (profiles : list Profile) (message : JsVal) (w : World) :
  let o := MessengerrrrJs.processAll env profiles message tt w in
  closed_as_expected o
  /\ penv (world o) = penv w
  /\ match res o with
     | Settled (Ok rs) => map subject rs = profiles
     | _ => True
     end
  /\ Forall (fun e => published e = None) (trace o)
  /\ (if MessengerrrrJs.env_truthy (LOGIN_EMAIL (penv w))
         && MessengerrrrJs.env_truthy (LOGIN_PASSWORD (penv w))
      then exists r rest,
          trace o = EDo (ALaunch (JBool (MessengerrrrJs.is_true_string
                                           (HEADLESS (penv w))))) r :: rest
      else trace o = []
           /\ res o = Throw (cross_mark
                             ++ " LOGIN_EMAIL and LOGIN_PASSWORD must be set in .env file")).
Proof.
  intros o. unfold closed_as_expected.
  assert (Ho : o = MessengerrrrJs.processAll env profiles message tt w) by reflexivity.
  clearbody o. unfold MessengerrrrJs.processAll in Ho.
  unfold bind at 1, process_env in Ho. cbv zeta in Ho.
  destruct (MessengerrrrJs.env_truthy (LOGIN_EMAIL (penv w))); cbn [negb orb andb] in *;
    [|unfold_run_in Ho; subst o; cbn; repeat split; constructor].
  destruct (MessengerrrrJs.env_truthy (LOGIN_PASSWORD (penv w))); cbn [negb orb andb] in *;
    [|unfold_run_in Ho; subst o; cbn; repeat split; constructor].
  pose proof (batch_run' env message (LOGIN_EMAIL (penv w)) profiles) as Hbatch.
  cbv zeta in Hbatch.
  set (inner := bind (MessengerrrrJs.establish_session env _) _) in *.
  clearbody inner.
  unfold MessengerrrrJs.launchBrowser in Ho. unfold_run_in Ho.
  do 5 (exec_env_step Ho;
        [subst o; cbn; repeat split; repeat constructor; do 2 eexists; reflexivity|]).
  match type of Ho with
  | context [inner ?l0 ?w0] =>
      destruct (Hbatch w0) as (Hpage & Hpenv & Hres);
      destruct (inner l0 w0) as [r1 t1 l1 w1]
  end.
  cbn [trace world res locals penv tick] in Hpage, Hpenv, Hres.
  destruct (no_lifecycle t1 Hpage) as (Hclose & Hsetup & Hpub).
  assert (Hpub' : forall r, Forall (fun e => published e = None)
                              (t1 ++ [EDo ABrowserClose r])%list).
  { intros r. apply Forall_app. split; [exact Hpub|repeat constructor]. }
  destruct r1 as [[[]|msg]|]; reduce_run_in Ho.
  1, 2: exec_env_step Ho; subst o;
    cbn [trace world res penv tick filter is_close existsb is_set_up orb];
    rewrite ?app_nil_r, ?filter_app, Hclose; cbn [filter is_close app List.length];
    (split; [reflexivity|]); (split; [exact Hpenv|]); (split; [try exact I; try exact Hres|]);
    (split; [repeat (apply Forall_cons; [reflexivity|]); apply Hpub'|]);
    do 2 eexists; reflexivity.
  subst o. cbn [trace world res penv tick filter is_close].
  rewrite ?app_nil_r, ?filter_app, ?Hclose.
  split; [reflexivity|]. split; [exact Hpenv|]. split; [exact I|].
  split; [repeat (apply Forall_cons; [reflexivity|]); exact Hpub|].
  do 2 eexists; reflexivity.
Qed.

Lemma runMessenger_run (input : JsVal) (w : World) :
  let o := MessengerrrrJs.runMessenger env input tt w in
  closed_as_expected o
  /\ Forall (fun e => published e = None) (trace o)
  /\ match MessengerrrrJs.typed input, res o with
     | Some profiles, Settled (Ok (Some rs)) => map subject rs = profiles
     | _, _ => True
     end.
Proof.
  intros o. unfold closed_as_expected.
  assert (Ho : o = MessengerrrrJs.runMessenger env input tt w) by reflexivity.
  clearbody o. unfold MessengerrrrJs.runMessenger in Ho.
  destruct (MessengerrrrJs.validate input) as [msg|].
  { subst o. cbn. destruct (MessengerrrrJs.typed input);
      repeat split; constructor. }
  unfold bind at 1, set_process_env in Ho.
  destruct (MessengerrrrJs.typed input) as [profiles|].
  2: { subst o. cbn. repeat split; constructor. }
  unfold bind, ret in Ho.
  match type of Ho with
  | context [MessengerrrrJs.processAll env profiles ?message ?l0 ?w0] =>
      destruct (processAll_run profiles message w0)
        as (Hclose & _ & Hres & Hpub & _);
      unfold closed_as_expected in Hclose;
      destruct (MessengerrrrJs.processAll env profiles message l0 w0)
        as [[[rs|msg]|] t1 l1 w1]
  end; cbn [trace res] in *; subst o; cbn [trace res]; rewrite ?app_nil_r;
    repeat split; assumption.
Qed.

Lemma entry_run (input : JsVal) (w : World) :
  let o := MainJs.main env input tt w in
  closed_as_expected o
  /\ match MessengerrrrJs.typed input with
     | Some profiles =>
         Forall (fun e => match published e with
                          | Some rs => map subject rs = profiles
                          | None => True
                          end) (trace o)
     | None => True
     end.
Proof.
  intros o. unfold closed_as_expected.
  assert (Ho : o = MainJs.main env input tt w) by reflexivity.
  clearbody o. unfold MainJs.main in Ho. unfold bind at 1, act in Ho.
  destruct (env_do env (clock w) AActorInit) as [msg|].
  { subst o. cbn. split; [reflexivity|].
    destruct (MessengerrrrJs.typed input); repeat constructor. }
  destruct (MainJs.validate input) as [msg|].
  { subst o. cbn. split; [reflexivity|].
    destruct (MessengerrrrJs.typed input); repeat constructor. }
  unfold bind at 1 in Ho.
  match type of Ho with
  | context [MessengerrrrJs.runMessenger env input ?l0 ?w0] =>
      destruct (runMessenger_run input w0) as (Hclose & Hpub & Hres);
      unfold closed_as_expected in Hclose;
      destruct (MessengerrrrJs.runMessenger env input l0 w0)
        as [[[[rs|]|msg]|] t1 l1 w1]
  end; cbn [trace res] in *.
  - unfold_run_in Ho.
    assert (Hweak : forall profiles,
               Forall (fun e => match published e with
                                | Some rs => map subject rs = profiles
                                | None => True
                                end) t1).
    { intros profiles. eapply Forall_impl; [|exact Hpub].
      intros e He. rewrite He. exact I. }
    assert (Hclose' : forall tl,
               filter is_close tl = [] -> existsb is_set_up tl = false ->
               List.length (filter is_close (EDo AActorInit None :: t1 ++ tl))
               = (if existsb is_set_up (EDo AActorInit None :: t1 ++ tl)
                  then 1 else 0)%nat).
    { intros tl Hc Hs. cbn [filter is_close existsb is_set_up orb].
      rewrite filter_app, existsb_app, Hc, Hs, app_nil_r, orb_false_r. exact Hclose. }
    repeat exec_env_step Ho; subst o; cbn [trace res];
      (split; [apply Hclose'; reflexivity|]);
      destruct (MessengerrrrJs.typed input) as [profiles|]; try exact I;
      (apply Forall_cons; [exact I|]); (apply Forall_app; split; [apply Hweak|]);
      repeat (apply Forall_cons; [first [exact Hres | exact I]|]); apply Forall_nil.
  - unfold ret in Ho. subst o. cbn [trace res]. rewrite app_nil_r.
    split.
    + cbn [filter is_close existsb is_set_up orb]. exact Hclose.
    + destruct (MessengerrrrJs.typed input) as [profiles|]; [|exact I].
      apply Forall_cons; [exact I|]. eapply Forall_impl; [|exact Hpub].
      intros e He. rewrite He. exact I.
  - subst o. cbn [trace res].
    split.
    + cbn [filter is_close existsb is_set_up orb]. exact Hclose.
    + destruct (MessengerrrrJs.typed input) as [profiles|]; [|exact I].
      apply Forall_cons; [exact I|]. eapply Forall_impl; [|exact Hpub].
      intros e He. rewrite He. exact I.
  - subst o. cbn [trace res].
    split.
    + cbn [filter is_close]. exact Hclose.
    + destruct (MessengerrrrJs.typed input) as [profiles|]; [|exact I].
      apply Forall_cons; [exact I|]. eapply Forall_impl; [|exact Hpub].
      intros e He. rewrite He. exact I.
Qed.

Lemma actor_run (raw : JsVal) (w : World) :
  let o := MessengerJs.main env raw tt w in
  List.length (filter is_close (trace o))
  = (if existsb is_set_up (trace o) then 1 else 0)%nat
  /\ match MessengerJs.typed (MessengerJs.resolve raw (penv w)) with
     | Some (_, profiles, _) =>
         Forall (fun e => match published e with
                          | Some rs => map subject rs = profiles
                          | None => True
                          end) (trace o)
     | None => True
     end.
Proof.
  intros o.
  assert (Ho : o = MessengerJs.main env raw tt w) by reflexivity.
  clearbody o. unfold MessengerJs.main in Ho.
  unfold bind at 1, process_env in Ho. cbv zeta in Ho.
  destruct (MessengerJs.typed (MessengerJs.resolve raw (penv w)))
    as [[[email profiles] message]|];
    (destruct (MessengerJs.validate (MessengerJs.resolve raw (penv w))) as [msg|];
     [subst o; cbn; split; [reflexivity|repeat constructor]|]).
  2: { subst o. cbn. split; [reflexivity|exact I]. }
  pose proof (batch_run env message email
                (MessengerJs.r_headless (MessengerJs.resolve raw (penv w))) profiles)
    as Hbatch.
  cbv zeta in Hbatch.
  set (inner := bind (MessengerJs.establish_session env _) _) in *.
  clearbody inner.
  unfold_run_in Ho.
  do 5 (exec_env_step Ho; [subst o; cbn; split; [reflexivity|repeat constructor]|]).
  match type of Ho with
  | context [inner ?l0 ?w0] =>
      destruct (Hbatch w0) as (Hpage & _ & Hres);
      destruct (inner l0 w0) as [r1 t1 l1 w1]
  end.
  destruct r1 as [r1|]; [|destruct Hres].
  cbn [trace world res locals] in Hpage, Hres.
  destruct (no_lifecycle t1 Hpage) as (Hclose & Hsetup & Hpub).
  assert (Hweak : Forall (fun e => match published e with
                                   | Some rs => map subject rs = profiles
                                   | None => True
                                   end) t1).
  { eapply Forall_impl; [|exact Hpub]. intros e He. rewrite He. exact I. }
  destruct r1 as [[]|msg]; reduce_run_in Ho; repeat exec_env_step Ho; subst o;
    cbn [trace filter is_close existsb is_set_up orb];
    rewrite ?app_nil_r, ?filter_app, ?Hclose; cbn [filter is_close app List.length];
    rewrite ?filter_app, ?Hclose; cbn [filter is_close app List.length];
    (split; [reflexivity|]);
    repeat (apply Forall_cons; [exact I|]);
    repeat (apply Forall_app; split); try exact Hweak;
    repeat (apply Forall_cons; [first [exact Hres | exact I]|]); apply Forall_nil.
Qed.

End Run.

(** X19.  The browser is closed exactly when the set-up of the page has
    completed and the run settles: [browser.close()] is then called once, by
    the [finally] of the run, whatever the profiles return or throw, and it
    is not called at all when the launch or one of [newPage],
    [setUserAgent], [setExtraHTTPHeaders], [evaluateOnNewDocument] throws
    (they come before the [try]): the browser that was launched is then
    left open.  [messenger.js] always settles.  A run of [messengerrrr.js]
    or [main.js] may stop instead, at a download of the audio challenge that
    does not settle: the [finally] is not run and the browser is never
    closed. *)
Theorem browser_is_closed_once_set_up :
  forall (env : Env) (raw : JsVal) (profiles : list Profile) (message : JsVal)
         (w : World),
    let closes (tr : list Event) := List.length (filter is_close tr) in
    let expected (tr : list Event) := (if existsb is_set_up tr then 1 else 0)%nat in
    (res (MessengerJs.main env raw tt w) <> Stopped
     /\ closes (trace (MessengerJs.main env raw tt w))
        = expected (trace (MessengerJs.main env raw tt w)))
    /\ (let o := MessengerrrrJs.processAll env profiles message tt w in
        match res o with
        | Settled _ => closes (trace o) = expected (trace o)
        | Stopped => closes (trace o) = 0%nat /\ stopped_at_download (trace o)
        end)
    /\ (let o := MainJs.main env raw tt w in
        match res o with
        | Settled _ => closes (trace o) = expected (trace o)
        | Stopped => closes (trace o) = 0%nat /\ stopped_at_download (trace o)
        end).
Proof.
  intros env raw profiles message w closes expected. subst closes expected.
  cbv beta.
  split; [split; [not_stopped|apply actor_run]|]. split.
  - intros o. destruct (processAll_run env profiles message w) as [Hclose _].
    unfold closed_as_expected in Hclose. fold o in Hclose.
    destruct (res o) eqn:Hres; [exact Hclose|]. split; [exact Hclose|].
    apply (processAll_stops env profiles message tt w). exact Hres.
  - intros o. destruct (entry_run env raw w) as [Hclose _].
    unfold closed_as_expected in Hclose. fold o in Hclose.
    destruct (res o) eqn:Hres; [exact Hclose|]. split; [exact Hclose|].
    apply (entry_stops env raw tt w). exact Hres.
Qed.

(** A download that is refused, behind a login wall with an audio
    challenge: the page has been set up, the run stops at the download, and
    the browser is not closed. *)
Example browser_never_closed :
  let o := MainJs.main refused_download (sample_input true) tt fresh_world in
  res o = Stopped
  /\ existsb is_set_up (trace o) = true
  /\ existsb is_close (trace o) = false
  /\ last (trace o) (EDelay 0)
     = EDownload (Some "https://www.google.com/recaptcha/api2/payload/audio.mp3") Dies.
Proof. vm_compute. repeat split. Qed.

(** A launch that completes and a [newPage] that throws: the browser is not
    closed. *)
Example browser_left_open :
  let env := with_do cooperative
               (fun _ a => match a with ANewPage => Some "Target closed" | _ => None end) in
  let o := MessengerJs.main env (sample_input true) tt fresh_world in
  trace o = [EDo (ALaunch (JBool true)) None; EDo ANewPage (Some "Target closed")]
  /\ res o = Throw "Target closed".
Proof. vm_compute. split; reflexivity. Qed.

(** X20.  The result list that a run hands over is never partial.  When
    [processAll] returns, its result has one record per profile, in the
    order of the input; the list that [messenger.js] stores as OUTPUT and
    the list that [main.js] pushes to the dataset are such lists.  (When the
    profile loop throws, the run throws, after it has closed the browser,
    and hands nothing over.) *)
Theorem published_results_are_complete :
  forall (env : Env) (raw : JsVal) (profiles : list Profile) (message : JsVal)
         (w : World),
    let complete (expected : list Profile) (e : Event) :=
      match published e with
      | Some rs => map subject rs = expected
      | None => True
      end in
    match res (MessengerrrrJs.processAll env profiles message tt w) with
    | Settled (Ok rs) => map subject rs = profiles
    | Settled (Throw _) | Stopped => True
    end
    /\ match MessengerJs.typed (MessengerJs.resolve raw (penv w)) with
       | Some (_, expected, _) =>
           Forall (complete expected) (trace (MessengerJs.main env raw tt w))
       | None => True
       end
    /\ match MessengerrrrJs.typed raw with
       | Some expected =>
           Forall (complete expected) (trace (MainJs.main env raw tt w))
       | None => True
       end.
Proof.
  intros env raw profiles message w complete. subst complete.
  split; [|split; [apply actor_run|apply entry_run]].
  destruct (processAll_run env profiles message w) as (_ & _ & Hres & _).
  cbv zeta in Hres.
  destruct (res (MessengerrrrJs.processAll env profiles message tt w)) as [[rs|msg]|];
    [exact Hres|exact I|exact I].
Qed.

(** On a page where everything works both entry points hand a list over. *)
Example results_are_published :
  let handed_over (tr : list Event) :=
    flat_map (fun e => match published e with
                       | Some rs => [map profileId rs]
                       | None => []
                       end) tr in
  handed_over (trace (MessengerJs.main cooperative (sample_input true) tt fresh_world))
  = [["p1"]]
  /\ handed_over (trace (MainJs.main cooperative (sample_input true) tt fresh_world))
     = [["p1"]].
Proof. vm_compute. split; reflexivity. Qed.



(** Credentials given as numbers: [process.env] holds them as [String]
    prints the doubles they are, 2^53 + 1 as "9007199254740992" and 10^21 as
    "1e+21". *)
Example numeric_credentials :
  let input := JObj [ ("loginEmail", JNum 9007199254740993);
                      ("loginPassword", JNum (10 ^ 21));
                      ("profiles", JArr [ JObj [ ("id", JStr "p1"); ("url", JStr "u1") ] ]);
                      ("message", JStr "hi") ] in
  let o := MessengerrrrJs.runMessenger cooperative input tt fresh_world in
  MessengerrrrJs.validate input = None
  /\ penv (world o)
     = mkProcessEnv (Some "9007199254740992") (Some "1e+21") (Some "false").
Proof. vm_compute. split; reflexivity. Qed.

(** Credentials that are truthy but whose string is empty (an empty array)
    pass the validation of [runMessenger], and then fail the check of
    [processAll], whose error speaks of the .env file. *)
Example empty_array_credentials :
  let input := JObj [ ("loginEmail", JArr []); ("loginPassword", JStr "s");
                      ("profiles", JArr [ JObj [ ("id", JStr "p1"); ("url", JStr "u1") ] ]);
                      ("message", JStr "hi") ] in
  let o := MessengerrrrJs.runMessenger cooperative input tt fresh_world in
  MessengerrrrJs.validate input = None
  /\ trace o = []
  /\ res o = Throw (cross_mark ++ " LOGIN_EMAIL and LOGIN_PASSWORD must be set in .env file").
Proof. vm_compute. repeat split. Qed.

(** X22.  The opening of the Facebook home page before the profile loop
    never fails the run: whatever throws in it (the navigation, the read of
    the cookies, the reload), [establish_session] returns, and the profile
    loop starts with an empty result list. *)
Theorem session_setup_never_throws :
  forall (env : Env) (email : string) (email' : option string)
         (results : list Outcome) (w : World),
    (exists t w1,
       MessengerJs.establish_session env email results w = mkOut (Ok tt) t results w1)
    /\ (exists t w1,
          MessengerrrrJs.establish_session env email' results w
          = mkOut (Ok tt) t results w1).
Proof.
  intros. split; [apply establish_session_run|apply establish_session_run'].
Qed.

(* ====================================================================== *)
(** * The pace of the profile loop *)
(* ====================================================================== *)

Section FirstCall.

Variable env : Env.
Variable p : Event -> bool.

Lemma starts_bind {L A B} (m : M L A) (f : A -> M L B) :
  starts_with p m -> starts_with p (bind m f).
Proof.
  intros Hm l w. unfold bind. destruct (Hm l w) as (e & rest & Ht & He).
  destruct (m l w) as [[[a|msg]|] t l1 w1]; cbn [trace] in *; subst t.
  - destruct (f a l1 w1) as [r t2 l2 w2]. cbn [trace app]. eauto.
  - eauto.
  - eauto.
Qed.

Lemma starts_bind_ret {L A B} (a : A) (f : A -> M L B) :
  starts_with p (f a) -> starts_with p (bind (ret a) f).
Proof. intros Hf l w. rewrite bind_ret. apply Hf. Qed.

Lemma starts_after_now {L B} (f : Z -> M L B) :
  (forall t, starts_with p (f t)) -> starts_with p (bind Date_now f).
Proof.
  intros Hf l w. unfold bind, Date_now.
  destruct (Hf (now w) l w) as (e & rest & Ht & He).
  destruct (f (now w) l w) as [r t2 l2 w2]. cbn [trace app] in *. eauto.
Qed.

Lemma starts_after_env {L B} (f : ProcessEnv -> M L B) :
  (forall pe, starts_with p (f pe)) -> starts_with p (bind process_env f).
Proof.
  intros Hf l w. unfold bind, process_env.
  destruct (Hf (penv w) l w) as (e & rest & Ht & He).
  destruct (f (penv w) l w) as [r t2 l2 w2]. cbn [trace app] in *. eauto.
Qed.

Lemma starts_try_catch {L A} (m : M L A) (h : string -> M L A) :
  starts_with p m -> starts_with p (try_catch m h).
Proof.
  intros Hm l w. unfold try_catch. destruct (Hm l w) as (e & rest & Ht & He).
  destruct (m l w) as [[[a|msg]|] t l1 w1]; cbn [trace] in *; subst t.
  - eauto.
  - destruct (h msg l1 w1) as [r t2 l2 w2]. cbn [trace app]. eauto.
  - eauto.
Qed.

Lemma starts_call {L L' A} (init : L') (m : M L' A) :
  starts_with p m -> starts_with p (@call L L' A init m).
Proof.
  intros Hm l w. unfold call. destruct (Hm init w) as (e & rest & Ht & He).
  destruct (m init w) as [r t l1 w1]. cbn [trace] in *. eauto.
Qed.

Lemma starts_act {L} (a : Action) :
  (forall r, p (EDo a r) = true) -> starts_with p (@act env L a).
Proof.
  intros H l w. unfold act. destruct (env_do env (clock w) a); cbn [trace]; eauto.
Qed.

Lemma starts_stored {L} (key : string) :
  (forall r, p (EStored key r) = true) -> starts_with p (@stored env L key).
Proof. intros H l w. unfold stored. cbn [trace]. eauto. Qed.

End FirstCall.

Section Pace.

Variable env : Env.

Lemma navigate_starts {L} (target : string) :
  starts_with not_a_timer (@navigate env L (Z.to_nat maxAttempts) target false 0).
Proof.
  change (Z.to_nat maxAttempts) with 3%nat. rewrite navigate_eq.
  cbn [negb andb Z.ltb Z.compare maxAttempts].
  apply starts_bind. apply starts_try_catch. apply starts_bind.
  apply starts_act. reflexivity.
Qed.

Lemma sendMessageToProfile_starts {L} (profile : Profile) (message email : string)
      (headless : JsVal) :
  starts_with not_a_timer
    (@MessengerJs.sendMessageToProfile env L profile message email headless).
Proof.
  unfold MessengerJs.sendMessageToProfile.
  apply starts_call. apply starts_after_now. intros start.
  apply starts_try_catch. apply starts_bind. apply starts_call.
  unfold MessengerJs.reach_profile.
  destruct (nonempty email).
  - apply starts_bind. apply starts_bind. unfold MessengerJs.loadCookies.
    apply starts_bind. apply starts_stored. reflexivity.
  - apply starts_bind_ret. apply starts_bind. apply navigate_starts.
Qed.

Lemma sendMessageToProfile_starts' {L} (profile : Profile) (message : JsVal) :
  starts_with not_a_timer (@MessengerrrrJs.sendMessageToProfile env L profile message).
Proof.
  unfold MessengerrrrJs.sendMessageToProfile.
  apply starts_call. apply starts_after_now. intros start.
  apply starts_try_catch. apply starts_bind. apply starts_call.
  unfold MessengerrrrJs.reach_profile.
  apply starts_after_env. intros pe. cbv zeta.
  destruct (MessengerrrrJs.env_truthy (LOGIN_EMAIL pe)).
  - apply starts_bind. apply starts_bind.
    unfold MessengerrrrJs.loadCookies, MessengerrrrJs.cookieFilePathFor.
    apply starts_bind. apply starts_bind. apply starts_act. reflexivity.
  - apply starts_bind_ret. apply starts_bind. apply navigate_starts.
Qed.

(** A turn of the profile loop, from what its [try] starts with. *)
Lemma turn_starts {A} (pause : M (list Outcome) unit) (send : M (list Outcome) A)
      (rest : A -> M (list Outcome) unit) (handler : string -> M (list Outcome) unit)
      (q : Event -> bool) :
  starts_with q (pause ;; send) ->
  starts_with q (try_catch (pause ;; result <- send ;; rest result) handler).
Proof.
  intros H. apply starts_try_catch. intros l w.
  destruct (H l w) as (e & tl & Ht & He). unfold bind in *.
  destruct (pause l w) as [[[[]|msg]|] t0 l0 w0]; cbn [trace] in *; [|eauto|eauto].
  destruct (send l0 w0) as [[[a|msg]|] t1 l1 w1]; cbn [trace] in *; [|eauto|eauto].
  destruct (rest a l1 w1) as [r t2 l2 w2]; cbn [trace].
  rewrite app_assoc, Ht. cbn [app]. eauto.
Qed.

Lemma pause_starts {L A} (send : M L A) :
  starts_with (fun e => match e with
                        | EDelay d => (3000 <=? d) && (d <=? 10000)
                        | _ => false
                        end)
              ((pauseTime <- rand env 3000 10000 ;; delay pauseTime) ;; send).
Proof.
  intros l w. unfold bind at 1. unfold bind at 1. rewrite rand_run.
  unfold delay. cbn [trace app].
  destruct (send _ _) as [r t l1 w1]. cbn [trace app].
  do 2 eexists. split; [reflexivity|].
  pose proof (rand_value_range (env_random env (clock w)) 3000 10000 ltac:(lia)).
  apply andb_true_iff. split; apply Z.leb_le; lia.
Qed.

End Pace.

(** X23.  The profile loop pauses between 3 and 10 seconds before every
    profile but the first: the turn of a later profile starts with that
    pause, and the turn of the first profile starts with a call, not with a
    timer. *)
Theorem pause_between_profiles :
  forall (env : Env) (message email : string) (input_message headless : JsVal)
         (i : nat) (profile : Profile) (results : list Outcome) (w : World),
    let paced (tr : list Event) :=
      match i, tr with
      | O, e :: _ => is_delay e = false
      | S _, EDelay d :: _ => 3000 <= d <= 10000
      | _, _ => False
      end in
    paced (trace (MessengerJs.profile_turn env message email headless i profile results w))
    /\ paced (trace (MessengerrrrJs.profile_turn env input_message i profile results w)).
Proof.
  intros env message email input_message headless i profile results w paced.
  subst paced.
  unfold MessengerJs.profile_turn, MessengerrrrJs.profile_turn.
  destruct i as [|i]; cbn [Z.of_nat Z.ltb Z.compare]; split.
  - match goal with
    | |- context [try_catch (bind ?pause (fun _ => bind ?send ?k)) ?h] =>
        destruct (turn_starts pause send k h
                    (fun e => negb (is_delay e))
                    (starts_bind_ret _ tt (fun _ => send)
                       (sendMessageToProfile_starts env profile message email headless))
                    results w) as (e & tl & -> & He)
    end.
    destruct (is_delay e); [discriminate|reflexivity].
  - match goal with
    | |- context [try_catch (bind ?pause (fun _ => bind ?send ?k)) ?h] =>
        destruct (turn_starts pause send k h
                    (fun e => negb (is_delay e))
                    (starts_bind_ret _ tt (fun _ => send)
                       (sendMessageToProfile_starts' env profile input_message))
                    results w) as (e & tl & -> & He)
    end.
    destruct (is_delay e); [discriminate|reflexivity].
  - match goal with
    | |- context [try_catch (bind ?pause (fun _ => bind ?send ?k)) ?h] =>
        destruct (turn_starts pause send k h _
                    (pause_starts env send) results w) as (e & tl & -> & He)
    end.
    destruct e; try discriminate. apply andb_true_iff in He.
    destruct He as [Hlo Hhi]. apply Z.leb_le in Hlo, Hhi. lia.
  - match goal with
    | |- context [try_catch (bind ?pause (fun _ => bind ?send ?k)) ?h] =>
        destruct (turn_starts pause send k h _
                    (pause_starts env send) results w) as (e & tl & -> & He)
    end.
    destruct e; try discriminate. apply andb_true_iff in He.
    destruct He as [Hlo Hhi]. apply Z.leb_le in Hlo, Hhi. lia.
Qed.

(* ====================================================================== *)
(** * The detection of the login wall *)
(* ====================================================================== *)

Lemma includes_eq (s sub : string) :
  includes s sub
  = if String.prefix sub s then true
    else match s with
         | EmptyString => false
         | String _ rest => includes rest sub
         end.
Proof. destruct s; reflexivity. Qed.

Lemma prefix_append (sub after : string) : String.prefix sub (sub ++ after) = true.
Proof.
  induction sub as [|c sub IH]; [destruct after; reflexivity|].
  cbn. destruct (ascii_dec c c); [exact IH|contradiction].
Qed.

Lemma includes_append (before sub after : string) :
  includes (before ++ sub ++ after) sub = true.
Proof.
  induction before as [|c before IH]; rewrite includes_eq.
  - cbn [append]. rewrite prefix_append. reflexivity.
  - cbn [append]. rewrite IH. destruct (String.prefix _ _); reflexivity.
Qed.

Lemma prefix_split (sub s : string) :
  String.prefix sub s = true -> exists after, s = sub ++ after.
Proof.
  revert s. induction sub as [|c sub IH]; intros s H.
  - exists s. reflexivity.
  - destruct s as [|c' s]; [discriminate|]. cbn in H.
    destruct (ascii_dec c c') as [<-|]; [|discriminate].
    destruct (IH s H) as [after ->]. exists after. reflexivity.
Qed.

Lemma includes_split (s sub : string) :
  includes s sub = true -> exists before after, s = before ++ sub ++ after.
Proof.
  induction s as [|c s IH]; rewrite includes_eq.
  - destruct (String.prefix sub EmptyString) eqn:Hprefix; [|discriminate].
    intros _. destruct (prefix_split _ _ Hprefix) as [after Hafter].
    exists EmptyString, after. exact Hafter.
  - destruct (String.prefix sub (String c s)) eqn:Hprefix.
    + intros _. destruct (prefix_split _ _ Hprefix) as [after Hafter].
      exists EmptyString, after. exact Hafter.
    + intros H. destruct (IH H) as (before & after & ->).
      exists (String c before), after. reflexivity.
Qed.

(** X24.  [isLoginRequired] reads the address of the page first.  When the
    address holds one of "/login", "/signin", "login.facebook.com" or
    "m.facebook.com/login", it answers [true] from the address alone,
    without evaluating anything in the page.  When the address holds none
    of them, it evaluates the look-up of the login elements in the page,
    and its answer is the one of that evaluation: the same value, or the
    same error. *)
Theorem login_address_is_enough :
  forall (env : Env) (L : Type) (l : L) (w : World),
    let o := isLoginRequired env l w in
    let address := env_url env (clock w) in
    let evaluation := env_test env (S (clock w)) PLoginElements in
    (forall marker, includes address marker = true
                    <-> exists before after, address = before ++ marker ++ after)
    /\ (existsb (includes address) login_markers = true ->
        res o = Ok true /\ trace o = [EUrl address])
    /\ (existsb (includes address) login_markers = false ->
        res o = evaluation
        /\ trace o = [EUrl address; ETest PLoginElements evaluation]).
Proof.
  intros env L l w o address evaluation.
  assert (Ho : o = isLoginRequired env l w) by reflexivity.
  clearbody o. unfold isLoginRequired in Ho.
  unfold bind at 1, page_url in Ho. fold address in Ho.
  split; [|split].
  - intros marker. split; [apply includes_split|].
    intros (before & after & ->). apply includes_append.
  - cbn [existsb login_markers]. intros Hmarker.
    rewrite orb_false_r in Hmarker. rewrite <- !orb_assoc in Ho.
    rewrite Hmarker in Ho. unfold ret in Ho. subst o. split; reflexivity.
  - cbn [existsb login_markers]. intros Hmarker.
    rewrite orb_false_r in Hmarker. rewrite <- !orb_assoc in Ho.
    rewrite Hmarker in Ho. unfold bind, test, ret in Ho. reduce_run_in Ho.
    fold evaluation in Ho.
    destruct evaluation as [b|msg]; subst o; split; reflexivity.
Qed.

(** The two ways of [isLoginRequired]: on the address of a login page the
    page is not looked at; on any other address the page decides. *)
Example login_address_runs :
  let at_address (address : string) (elements : bool) : Env :=
    mkEnv (env_random cooperative) (env_elapsed cooperative) (env_do cooperative)
          (fun _ p => match p with PLoginElements => Ok elements | _ => Ok false end)
          (env_query cooperative) (env_box cooperative) (env_frames cooperative)
          (fun _ => address) (env_text cooperative) (env_cookies cooperative)
          (env_stored cooperative) (env_download cooperative) in
  let answer (address : string) (elements : bool) :=
    let o := isLoginRequired (at_address address elements) tt fresh_world in
    (res o, List.length (trace o)) in
  answer "https://www.facebook.com/login/?next=x" false = (Settled (Ok true), 1%nat)
  /\ answer "https://www.facebook.com/someone" true = (Settled (Ok true), 2%nat)
  /\ answer "https://www.facebook.com/someone" false = (Settled (Ok false), 2%nat).
Proof. vm_compute. repeat split. Qed.

(* ====================================================================== *)
(** * The summary *)
(* ====================================================================== *)

Lemma counts_add_up (results : list Outcome) :
  successful results + failed results = Z.of_nat (List.length results).
Proof.
  unfold successful, failed.
  induction results as [|r results IH]; [reflexivity|].
  cbn [filter List.length]. destruct (success r); cbn [negb List.length]; lia.
Qed.

(** X25.  [messenger.js]: the summary adds up.  Whenever the run gets to
    store its OUTPUT, the successful and the failed records of the list it
    stores are as many as the profiles of the run ([totalProfiles]). *)
Theorem summary_adds_up :
  forall (env : Env) (raw : JsVal) (w : World),
    match MessengerJs.typed (MessengerJs.resolve raw (penv w)) with
    | Some (_, profiles, _) =>
        Forall (fun e => match published e with
                         | Some rs =>
                             successful rs + failed rs
                             = js_length (MessengerJs.r_profiles
                                            (MessengerJs.resolve raw (penv w)))
                         | None => True
                         end)
               (trace (MessengerJs.main env raw tt w))
    | None => True
    end.
Proof.
  intros env raw w.
  destruct (actor_run env raw w) as [_ Hcomplete].
  unfold MessengerJs.typed in *.
  destruct (MessengerJs.r_loginEmail (MessengerJs.resolve raw (penv w)));
    try exact I.
  destruct (MessengerJs.r_profiles (MessengerJs.resolve raw (penv w))) as [| | | | |items|];
    cbn [as_profiles] in *; try exact I.
  destruct (all_profiles items) as [profiles|] eqn:Hitems; [|exact I].
  destruct (MessengerJs.r_message (MessengerJs.resolve raw (penv w))); try exact I.
  eapply Forall_impl; [|exact Hcomplete].
  intros e. cbv beta. destruct (published e) as [rs|]; [|intros _; exact I].
  intros He. rewrite counts_add_up. cbn [js_length]. f_equal.
  rewrite <- (length_map subject rs), He.
  clear - Hitems. revert profiles Hitems.
  induction items as [|v items IH]; intros profiles Hitems; cbn [all_profiles] in Hitems.
  - injection Hitems as <-. reflexivity.
  - destruct (as_profile v); [|discriminate].
    destruct (all_profiles items) as [ps|]; [|discriminate].
    injection Hitems as <-. cbn [List.length]. rewrite (IH ps eq_refl). reflexivity.
Qed.
